(** * ALX Polly: vote integrity, rate limiting and mutation authorization

    A shallow embedding of the server-side core of the polling application:

    - [src/lib/rate-limiter.ts]      fixed-window rate limiter,
    - [src/lib/vote-signature.ts]    HMAC vote signatures,
    - [src/lib/error-handling.ts]    friendly error messages and sanitization,
    - [src/app/lib/actions/poll-actions.ts]  the server actions,

    followed by the properties proved about them.

    Conventions.  A JavaScript string is a sequence of UTF-16 code units; this
    development covers the strings whose code units are below 256 and writes
    one [ascii] per code unit.  JavaScript numbers that hold counters,
    timestamps and indices are integers far below 2^53 and are written in [Z].
    Asynchronous functions are run to completion one request at a time: every
    [await] is a bind of the state monad [M]. *)

From stdpp Require Import base option list strings gmap pretty sorting.
From Stdlib Require Import ZArith Ascii Lia.

Local Open Scope Z_scope.

(* ===================================================================== *)
(** * Part I: definitions                                                  *)
(* ===================================================================== *)

(** ** JavaScript strings *)

Module Js.

Definition code (c : ascii) : Z := Z.of_N (N_of_ascii c).

(** WhiteSpace and LineTerminator code units below 256, as used by
    [String.prototype.trim]. *)
Definition isWhiteSpace (c : ascii) : bool :=
  let n := code c in
  ((9 <=? n) && (n <=? 13)) || (n =? 32) || (n =? 160).

Fixpoint trimStart (s : string) : string :=
  match s with
  | EmptyString => EmptyString
  | String c s' => if isWhiteSpace c then trimStart s' else s
  end.

Fixpoint trimEnd (s : string) : string :=
  match s with
  | EmptyString => EmptyString
  | String c s' =>
      match trimEnd s' with
      | EmptyString => if isWhiteSpace c then EmptyString else String c EmptyString
      | t => String c t
      end
  end.

Definition trim (s : string) : string := trimEnd (trimStart s).

(** [String.prototype.toLowerCase] on code units below 256: the ASCII
    capitals and the Latin-1 capitals (U+00C0..U+00DE except U+00D7). *)
Definition lowerChar (c : ascii) : ascii :=
  let n := code c in
  if ((65 <=? n) && (n <=? 90))
     || ((192 <=? n) && (n <=? 222) && negb (n =? 215))
  then ascii_of_N (Z.to_N (n + 32)) else c.

Fixpoint toLowerCase (s : string) : string :=
  match s with
  | EmptyString => EmptyString
  | String c s' => String (lowerChar c) (toLowerCase s')
  end.

Fixpoint startsWith (p s : string) : bool :=
  match p, s with
  | EmptyString, _ => true
  | String a p', String b s' => bool_decide (a = b) && startsWith p' s'
  | String _ _, EmptyString => false
  end.

(** [s.includes(p)] *)
Fixpoint includes (s p : string) : bool :=
  startsWith p s ||
  match s with
  | EmptyString => false
  | String _ s' => includes s' p
  end.

(** [s.split(sep)[0]] for a one-character separator. *)
Fixpoint splitHead (sep : ascii) (s : string) : string :=
  match s with
  | EmptyString => EmptyString
  | String c s' => if bool_decide (c = sep) then EmptyString else String c (splitHead sep s')
  end.

(** Truthiness of a [string | null | undefined] value: the value itself
    when it is a non-empty string. *)
Definition truthy (v : option string) : option string :=
  match v with
  | Some (String _ _ as s) => Some s
  | _ => None
  end.

Definition length (s : string) : Z := Z.of_nat (String.length s).

End Js.

(** ** The hosted backend, as seen through the data-access client

    The actions talk to the backend through [supabase.auth.getUser()] and
    through query builders [supabase.from(table)...]; a built query is data,
    and awaiting it hands it to the backend, which answers [{ data, error }]. *)

Inductive Json :=
| JNull
| JString (s : string)
| JNumber (n : Z)
| JBool (b : bool)
| JStrings (l : list string).

Global Instance Json_eq_dec : EqDecision Json.
Proof. solve_decision. Defined.

(** An object literal or a returned row: its properties in order. *)
Definition Row : Type := list (string * Json).

(** [row[key]], [None] when the property is missing. *)
Fixpoint row_get (key : string) (r : Row) : option Json :=
  match r with
  | [] => None
  | (k, v) :: r' => if bool_decide (k = key) then Some v else row_get key r'
  end.

(** [.eq(column, value)] *)
Inductive Filter := eq_ (column : string) (value : Json).

Global Instance Filter_eq_dec : EqDecision Filter.
Proof. solve_decision. Defined.

Inductive Query :=
(** [.select(columns).eq(..)...] with optional [.order(column, {ascending})]
    and optional [.single()] *)
| select (columns : string) (filters : list Filter)
         (order : option (string * bool)) (single : bool)
(** [.insert(rows)] *)
| insert (rows : list Row)
(** [.update(values).eq(..)....select()] *)
| update (values : Row) (filters : list Filter)
(** [.delete().eq(..)....select()] *)
| delete (filters : list Filter).

Global Instance Query_eq_dec : EqDecision Query.
Proof. solve_decision. Defined.

(** The fields of a backend error object read by the application. *)
Record ApiError := {
  message : option string;
  code : option string;
  details : option string;
  hint : option string;
  stack : option string
}.

Global Instance ApiError_eq_dec : EqDecision ApiError.
Proof. solve_decision. Defined.

Inductive Data := null | object (r : Row) | array (rs : list Row).

Global Instance Data_eq_dec : EqDecision Data.
Proof. solve_decision. Defined.

Record PostgrestResponse := { data : Data; data_error : option ApiError }.

Record User := { id : string }.

Global Instance User_eq_dec : EqDecision User.
Proof. solve_decision. Defined.

(** [{ data: { user }, error }] *)
Record UserResponse := { user : option User; user_error : option ApiError }.

(** A backend is anything that answers these two kinds of request. *)
Class Supabase (DB : Type) := {
  backend_getUser : DB -> UserResponse * DB;
  backend_execute : string -> Query -> DB -> PostgrestResponse * DB
}.

(** What went over the wire, in order. *)
Inductive Exchange :=
| GetUser (response : UserResponse)
| From (table : string) (query : Query) (response : PostgrestResponse).

Definition is_mutation (x : Exchange) : bool :=
  match x with
  | From _ (insert _) _ | From _ (update _ _) _ | From _ (delete _) _ => true
  | _ => false
  end.

(** ** The request world and the monad of server code *)

(** [RateLimitEntry] of rate-limiter.ts *)
Record RateLimitEntry := { count : Z; resetTime : Z }.

Global Instance RateLimitEntry_eq_dec : EqDecision RateLimitEntry.
Proof. solve_decision. Defined.

(** The state a server function can touch.  [DB] is the state of the hosted
    backend; the other fields are the process-wide rate-limit map, the headers
    of the request being served, the clock read by [Date.now()], the paths
    handed to [revalidatePath], the lines written by [console.error], and the
    record of the exchanges with the backend. *)
Record World (DB : Type) := mkWorld {
  rateLimitStore : gmap string RateLimitEntry;
  requestHeaders : gmap string string;
  clock : Z;
  db : DB;
  revalidated : list string;
  console : list (string * ApiError);
  wire : list Exchange
}.
Arguments mkWorld {DB}.
Arguments rateLimitStore {DB}.
Arguments requestHeaders {DB}.
Arguments clock {DB}.
Arguments db {DB}.
Arguments revalidated {DB}.
Arguments console {DB}.
Arguments wire {DB}.

Definition M (DB A : Type) : Type := World DB -> A * World DB.

Definition ret {DB A} (a : A) : M DB A := fun w => (a, w).
Definition bind {DB A B} (m : M DB A) (k : A -> M DB B) : M DB B :=
  fun w => let (a, w') := m w in k a w'.

Declare Scope action_scope.
Delimit Scope action_scope with action.
Notation "x <- m ;; k" := (bind m (fun x => k))
  (at level 100, m at next level, right associativity) : action_scope.
Notation "m ;;; k" := (bind m (fun _ => k))
  (at level 100, right associativity) : action_scope.
Local Open Scope action_scope.

Definition set_rateLimitStore {DB} (s : gmap string RateLimitEntry) (w : World DB) : World DB :=
  mkWorld s (requestHeaders w) (clock w) (db w) (revalidated w) (console w) (wire w).
Definition set_clock {DB} (t : Z) (w : World DB) : World DB :=
  mkWorld (rateLimitStore w) (requestHeaders w) t (db w) (revalidated w) (console w) (wire w).

(** [await headers()] of next/headers *)
Definition headers {DB} : M DB (gmap string string) := fun w => (requestHeaders w, w).
(** [Date.now()] *)
Definition Date_now {DB} : M DB Z := fun w => (clock w, w).
(** [revalidatePath(path)] of next/cache *)
Definition revalidatePath {DB} (path : string) : M DB unit :=
  fun w => (tt, mkWorld (rateLimitStore w) (requestHeaders w) (clock w) (db w)
                        (revalidated w ++ [path]) (console w) (wire w)).
(** [console.error(line, data)] *)
Definition console_error {DB} (line : string) (data : ApiError) : M DB unit :=
  fun w => (tt, mkWorld (rateLimitStore w) (requestHeaders w) (clock w) (db w)
                        (revalidated w) (console w ++ [(line, data)]) (wire w)).

(** [await supabase.auth.getUser()] *)
Definition auth_getUser `{Supabase DB} : M DB UserResponse :=
  fun w =>
    let (r, d) := backend_getUser (db w) in
    (r, mkWorld (rateLimitStore w) (requestHeaders w) (clock w) d
                (revalidated w) (console w) (wire w ++ [GetUser r])).

(** [await supabase.from(table).<query>] *)
Definition from `{Supabase DB} (table : string) (q : Query) : M DB PostgrestResponse :=
  fun w =>
    let (r, d) := backend_execute table q (db w) in
    (r, mkWorld (rateLimitStore w) (requestHeaders w) (clock w) d
                (revalidated w) (console w) (wire w ++ [From table q r])).

(** ** src/lib/rate-limiter.ts *)

Record RateLimitResult := {
  allowed : bool;
  remaining : Z;
  result_resetTime : Z
}.

(** What a server function hands back as its [error].  The TypeScript
    type is [string], but the friendly text is read from object literals
    used as tables, and indexing an object literal by the name of a member
    of [Object.prototype] yields that member (a function, or the prototype
    itself for [__proto__]), which is no text. *)
Inductive ErrorValue :=
| Text (text : string)
| Inherited (member : string).
Coercion Text : string >-> ErrorValue.
Arguments Some {A} & a.

Global Instance ErrorValue_eq_dec : EqDecision ErrorValue.
Proof. solve_decision. Defined.

(** Truthiness of such a value, or of its absence: every value but the
    empty text. *)
Definition truthyValue (v : option ErrorValue) : option ErrorValue :=
  match v with
  | Some (Text EmptyString) | None => None
  | Some v => Some v
  end.

(** The envelope returned by the server actions: [{ ok, error? }]. *)
Record ActionResult := { ok : bool; error : option ErrorValue }.

Global Instance ActionResult_eq_dec : EqDecision ActionResult.
Proof. solve_decision. Defined.

(** The body of the [setInterval] callback: drop the expired entries. *)
Definition cleanupExpired (now : Z) (store : gmap string RateLimitEntry)
  : gmap string RateLimitEntry :=
  filter (fun kv => (now >? resetTime kv.2) = false) store.

Definition getClientIP {DB} : M DB string :=
  headersList <- headers ;;
  let forwardedFor := headersList !! "x-forwarded-for" in
  let realIP := headersList !! "x-real-ip" in
  let cfConnectingIP := headersList !! "cf-connecting-ip" in
  match Js.truthy forwardedFor with
  | Some forwardedFor => ret (Js.trim (Js.splitHead "," forwardedFor))
  | None =>
  match Js.truthy realIP with
  | Some realIP => ret realIP
  | None =>
  match Js.truthy cfConnectingIP with
  | Some cfConnectingIP => ret cfConnectingIP
  | None => ret "127.0.0.1"
  end end end.

Definition checkRateLimit {DB} (action : string) (windowMs maxRequests : Z)
  : M DB RateLimitResult :=
  clientIP <- getClientIP ;;
  let key := clientIP +:+ ":" +:+ action in
  now <- Date_now ;;
  fun w =>
  let entry := rateLimitStore w !! key in
  let firstOrExpired :=
    (* First request or window expired *)
    let newEntry := {| count := 1; resetTime := now + windowMs |} in
    ({| allowed := true; remaining := maxRequests - 1;
        result_resetTime := resetTime newEntry |},
     set_rateLimitStore (<[key := newEntry]> (rateLimitStore w)) w) in
  match entry with
  | None => firstOrExpired
  | Some entry =>
      if now >? resetTime entry then firstOrExpired
      else if count entry >=? maxRequests then
        (* Rate limit exceeded *)
        ({| allowed := false; remaining := 0; result_resetTime := resetTime entry |}, w)
      else
        (* Increment counter *)
        let entry := {| count := count entry + 1; resetTime := resetTime entry |} in
        ({| allowed := true; remaining := maxRequests - count entry;
            result_resetTime := resetTime entry |},
         set_rateLimitStore (<[key := entry]> (rateLimitStore w)) w)
  end.

(** Default parameters of [checkRateLimit]. *)
Definition defaultWindowMs : Z := 60000.
Definition defaultMaxRequests : Z := 20.

Definition rateLimitCheck {DB} (action : string) : M DB ActionResult :=
  result <- checkRateLimit action defaultWindowMs defaultMaxRequests ;;
  if negb (allowed result) then
    ret {| ok := false; error := Some "Too many requests. Please try again later." |}
  else ret {| ok := true; error := None |}.

(** ** Node's [crypto.createHmac('sha256', key).update(data).digest('hex')]

    HMAC (RFC 2104) over SHA-256 (FIPS 180-4), on 32-bit words held in [Z]
    with the wrap-around written out.  Messages and keys are byte lists. *)

Module NodeCrypto.

Definition mask32 : Z := 0xFFFFFFFF.
Definition add32 (a b : Z) : Z := Z.land (a + b) mask32.
Definition rotr (n x : Z) : Z :=
  Z.lor (Z.shiftr x n) (Z.land (Z.shiftl x (32 - n)) mask32).
Definition not32 (x : Z) : Z := Z.lxor x mask32.

Definition Ch (x y z : Z) : Z := Z.lxor (Z.land x y) (Z.land (not32 x) z).
Definition Maj (x y z : Z) : Z :=
  Z.lxor (Z.lxor (Z.land x y) (Z.land x z)) (Z.land y z).
Definition bigSigma0 (x : Z) : Z := Z.lxor (Z.lxor (rotr 2 x) (rotr 13 x)) (rotr 22 x).
Definition bigSigma1 (x : Z) : Z := Z.lxor (Z.lxor (rotr 6 x) (rotr 11 x)) (rotr 25 x).
Definition smallSigma0 (x : Z) : Z := Z.lxor (Z.lxor (rotr 7 x) (rotr 18 x)) (Z.shiftr x 3).
Definition smallSigma1 (x : Z) : Z := Z.lxor (Z.lxor (rotr 17 x) (rotr 19 x)) (Z.shiftr x 10).

(** The constants are derived as the standard defines them: the first 32
    bits of the fractional parts of the cube roots of the first sixty-four
    primes, and of the square roots of the first eight. *)
Definition primes : list Z :=
  [2; 3; 5; 7; 11; 13; 17; 19; 23; 29; 31; 37; 41; 43; 47; 53;
   59; 61; 67; 71; 73; 79; 83; 89; 97; 101; 103; 107; 109; 113; 127; 131;
   137; 139; 149; 151; 157; 163; 167; 173; 179; 181; 191; 193; 197; 199; 211; 223;
   227; 229; 233; 239; 241; 251; 257; 263; 269; 271; 277; 281; 283; 293; 307; 311].

(** The integer cube root below [2 ^ bits], found bit by bit from the top. *)
Fixpoint cubeRoot (bits : nat) (n root : Z) : Z :=
  match bits with
  | O => root
  | S bits' =>
      let candidate := root + 2 ^ Z.of_nat bits' in
      if candidate * candidate * candidate <=? n
      then cubeRoot bits' n candidate else cubeRoot bits' n root
  end.

Definition K256 : list Z :=
  (fun p => Z.land (cubeRoot 40 (p * 2 ^ 96) 0) mask32) <$> primes.

Definition H256 : list Z :=
  (fun p => Z.land (Z.sqrt (p * 2 ^ 64)) mask32) <$> take 8 primes.

(** Big-endian bytes of [x], [n] of them. *)
Fixpoint be_bytes (n : nat) (x : Z) : list Z :=
  match n with
  | O => []
  | S n' => Z.land (Z.shiftr x (8 * Z.of_nat n')) 0xFF :: be_bytes n' x
  end.

Definition be_word (bs : list Z) : Z :=
  fold_left (fun acc b => Z.lor (Z.shiftl acc 8) b) bs 0.

Definition pad (msg : list Z) : list Z :=
  let len := Z.of_nat (length msg) in
  msg ++ [0x80] ++ replicate (Z.to_nat ((55 - len) mod 64)) 0 ++ be_bytes 8 (8 * len).

(** Cut a list into chunks of [n] elements; [fuel] bounds the number of chunks. *)
Fixpoint chunks {A} (fuel n : nat) (l : list A) : list (list A) :=
  match fuel, l with
  | O, _ | _, [] => []
  | S fuel', _ => take n l :: chunks fuel' n (drop n l)
  end.

(** The message schedule: a window of the last sixteen words slides forward. *)
Fixpoint schedule (rounds : nat) (window : list Z) : list Z :=
  match rounds with
  | O => []
  | S rounds' =>
      let at_ i := window !!! i in
      let next := add32 (add32 (smallSigma1 (at_ 14%nat)) (at_ 9%nat))
                        (add32 (smallSigma0 (at_ 1%nat)) (at_ 0%nat)) in
      at_ 0%nat :: schedule rounds' (drop 1 window ++ [next])
  end.

Definition round (st : list Z) (kw : Z * Z) : list Z :=
  match st with
  | [a; b; c; d; e; f; g; h] =>
      let t1 := add32 (add32 (add32 h (bigSigma1 e)) (add32 (Ch e f g) kw.1)) kw.2 in
      let t2 := add32 (bigSigma0 a) (Maj a b c) in
      [add32 t1 t2; a; b; c; add32 d t1; e; f; g]
  | _ => st
  end.

Definition compress (H : list Z) (block : list Z) : list Z :=
  let W := schedule 64 (be_word <$> chunks 16 4 block) in
  zip_with add32 H (fold_left round (zip K256 W) H).

Definition sha256 (msg : list Z) : list Z :=
  let padded := pad msg in
  let blocks := chunks (length padded) 64 padded in
  fold_left compress blocks H256 ≫= be_bytes 4.

Definition hmac_sha256 (key msg : list Z) : list Z :=
  let key := if (64 <? Z.of_nat (length key)) then sha256 key else key in
  let key := key ++ replicate (64 - length key) 0 in
  let ipad := (fun b => Z.lxor b 0x36) <$> key in
  let opad := (fun b => Z.lxor b 0x5c) <$> key in
  sha256 (opad ++ sha256 (ipad ++ msg)).

Definition hexDigit (n : Z) : ascii :=
  ascii_of_N (Z.to_N (if n <? 10 then 48 + n else 87 + n)).

(** [digest('hex')] *)
Fixpoint hex (bs : list Z) : string :=
  match bs with
  | [] => EmptyString
  | b :: bs' => String (hexDigit (Z.shiftr b 4)) (String (hexDigit (Z.land b 0xF)) (hex bs'))
  end.

(** UTF-8 encoding of a string of code units below 256, as performed by
    [update(data)] on a string argument. *)
Fixpoint utf8 (s : string) : list Z :=
  match s with
  | EmptyString => []
  | String c s' =>
      let n := Js.code c in
      (if n <? 128 then [n]
       else [Z.lor 0xC0 (Z.shiftr n 6); Z.lor 0x80 (Z.land n 0x3F)]) ++ utf8 s'
  end.

Definition createHmac_sha256_hex (key data : string) : string :=
  hex (hmac_sha256 (utf8 key) (utf8 data)).

End NodeCrypto.

(** ** src/lib/vote-signature.ts *)

(** Loading a module either yields its bindings or throws. *)
Inductive Load (A : Type) :=
| Loaded (bindings : A)
| Thrown (error_message : string).
Arguments Loaded {A}.
Arguments Thrown {A}.

(** The top-level statements of the module: read the secret from
    [process.env] and refuse to load without it. *)
Definition load_vote_signature (process_env : gmap string string) : Load string :=
  let VOTE_SIGNING_SECRET := process_env !! "VOTE_SIGNING_SECRET" in
  match Js.truthy VOTE_SIGNING_SECRET with
  | None => Thrown "VOTE_SIGNING_SECRET environment variable is required"
  | Some secret => Loaded secret
  end.

(** The text that is signed: [`${pollId}:${userAgent}${ip ? `:${ip}` : ''}`]. *)
Definition signedData (pollId userAgent : string) (ip : option string) : string :=
  pollId +:+ ":" +:+ userAgent +:+
  match Js.truthy ip with
  | Some ip => ":" +:+ ip
  | None => ""
  end.

Definition generateVoteSignature (VOTE_SIGNING_SECRET : string)
    (pollId userAgent : string) (ip : option string) : string :=
  let data := signedData pollId userAgent ip in
  NodeCrypto.createHmac_sha256_hex VOTE_SIGNING_SECRET data.

Definition verifyVoteSignature (VOTE_SIGNING_SECRET : string)
    (pollId userAgent signature : string) (ip : option string) : bool :=
  let expectedSignature := generateVoteSignature VOTE_SIGNING_SECRET pollId userAgent ip in
  bool_decide (expectedSignature = signature).

(** ** src/app/poll/[id]/page.tsx: the signature placed in the cookie *)

(** The part of [PublicPollPage] that derives the vote signature of a
    request from its headers. *)
Definition PublicPollPage_voteSignature {DB} (VOTE_SIGNING_SECRET : string)
    (params_id : string) : M DB string :=
  headersList <- headers ;;
  let userAgent := default "" (Js.truthy (headersList !! "user-agent")) in
  let forwardedFor := headersList !! "x-forwarded-for" in
  let ip := match Js.truthy forwardedFor with
            | Some forwardedFor => Some (Js.trim (Js.splitHead "," forwardedFor))
            | None => None
            end in
  ret (generateVoteSignature VOTE_SIGNING_SECRET params_id userAgent ip).

(** ** src/lib/logger.ts *)

(** [logger.error(message, data)]: one [console.error] line in either
    environment (the production branch only adds a timestamp to the data). *)
Definition logger_error {DB} (msg : string) (data : ApiError) : M DB unit :=
  console_error ("[ERROR] " +:+ msg) data.

(** ** src/lib/error-handling.ts *)

(** The own properties of an object literal: later properties override
    earlier ones. *)
Definition objectLiteral (props : list (string * string)) : gmap string string :=
  foldl (fun m kv => <[kv.1 := kv.2]> m) ∅ props.

(** The names every object literal inherits from [Object.prototype]. *)
Definition Object_prototype : list string :=
  [ "constructor"; "__defineGetter__"; "__defineSetter__"; "hasOwnProperty";
    "__lookupGetter__"; "__lookupSetter__"; "isPrototypeOf"; "propertyIsEnumerable";
    "toString"; "valueOf"; "__proto__"; "toLocaleString" ].

(** [table[key]] on an object literal: the own property of that name,
    otherwise the member inherited under that name, otherwise [undefined]. *)
Definition getProperty (table : gmap string string) (key : string) : option ErrorValue :=
  match table !! key with
  | Some text => Some (Text text)
  | None => if bool_decide (key ∈ Object_prototype) then Some (Inherited key) else None
  end.

Definition DB_ERROR_MESSAGES_props : list (string * string) :=
  [ ("23505", "This action has already been completed.");
    ("23503", "Referenced item not found.");
    ("23502", "Required field is missing.");
    ("42501", "You do not have permission to perform this action.");
    ("42P01", "Requested resource not found.");
    ("PGRST116", "Requested resource not found.");
    ("PGRST301", "You do not have permission to perform this action.");
    ("PGRST302", "Authentication required.");
    ("PGRST303", "You do not have permission to perform this action.") ].

Definition DB_ERROR_MESSAGES : gmap string string :=
  objectLiteral DB_ERROR_MESSAGES_props.

Definition SUPABASE_ERROR_MESSAGES_props : list (string * string) :=
  [ ("invalid_credentials", "Invalid email or password.");
    ("email_not_confirmed", "Please check your email and confirm your account.");
    ("weak_password", "Password is too weak. Please choose a stronger password.");
    ("user_not_found", "User not found.");
    ("email_address_invalid", "Please enter a valid email address.");
    ("signup_disabled", "New account registration is currently disabled.");
    ("email_address_not_authorized", "This email address is not authorized.");
    ("invalid_request", "Invalid request. Please try again.");
    ("invalid_grant", "Invalid credentials.");
    ("invalid_token", "Session expired. Please log in again.");
    ("token_expired", "Session expired. Please log in again.");
    ("refresh_token_not_found", "Session expired. Please log in again.");
    ("invalid_refresh_token", "Session expired. Please log in again.");
    ("invalid_otp", "Invalid verification code.");
    ("otp_expired", "Verification code has expired.");
    ("email_rate_limit_exceeded", "Too many requests. Please try again later.");
    ("sms_rate_limit_exceeded", "Too many requests. Please try again later.");
    ("phone_number_invalid", "Please enter a valid phone number.");
    ("invalid_phone_number", "Please enter a valid phone number.");
    ("phone_number_not_found", "Phone number not found.");
    ("invalid_email", "Please enter a valid email address.");
    ("invalid_password", "Password does not meet requirements.");
    ("invalid_user_data", "Invalid user information provided.");
    ("invalid_claims", "Invalid user claims.");
    ("invalid_audience", "Invalid audience.");
    ("invalid_issuer", "Invalid issuer.");
    ("invalid_jwt", "Invalid authentication token.");
    ("invalid_webhook", "Invalid webhook request.");
    ("invalid_webhook_signature", "Invalid webhook signature.");
    ("invalid_webhook_payload", "Invalid webhook payload.");
    ("invalid_webhook_event", "Invalid webhook event.");
    ("invalid_webhook_topic", "Invalid webhook topic.");
    ("invalid_webhook_version", "Invalid webhook version.");
    ("invalid_webhook_environment", "Invalid webhook environment.");
    ("invalid_webhook_application", "Invalid webhook application.");
    ("invalid_webhook_organization", "Invalid webhook organization.");
    ("invalid_webhook_user", "Invalid webhook user.");
    ("invalid_webhook_team", "Invalid webhook team.");
    ("invalid_webhook_project", "Invalid webhook project.");
    ("invalid_webhook_workspace", "Invalid webhook workspace.");
    ("invalid_webhook_environment", "Invalid webhook environment.");
    ("invalid_webhook_application", "Invalid webhook application.");
    ("invalid_webhook_organization", "Invalid webhook organization.");
    ("invalid_webhook_user", "Invalid webhook user.");
    ("invalid_webhook_team", "Invalid webhook team.");
    ("invalid_webhook_project", "Invalid webhook project.");
    ("invalid_webhook_workspace", "Invalid webhook workspace.") ].

Definition SUPABASE_ERROR_MESSAGES : gmap string string :=
  objectLiteral SUPABASE_ERROR_MESSAGES_props.

(** [error?.message?.includes(pattern)] *)
Definition message_includes (error : ApiError) (pattern : string) : bool :=
  match message error with
  | Some m => Js.includes m pattern
  | None => false
  end.

(** [key && table[key]]: the value found under the key when both the key
    and the value are truthy. *)
Definition lookup_truthy (table : gmap string string) (key : option string)
  : option ErrorValue :=
  match Js.truthy key with
  | Some k => truthyValue (getProperty table k)
  | None => None
  end.

Definition getFriendlyErrorMessage {DB} (error : ApiError) : M DB ErrorValue :=
  (* Log the full error for debugging *)
  logger_error "Database/API Error:" error ;;;
  ret
  (* Check for specific error codes first *)
  match lookup_truthy DB_ERROR_MESSAGES (code error) with
  | Some friendly => friendly
  | None =>
  (* Check for Supabase error messages *)
  match lookup_truthy SUPABASE_ERROR_MESSAGES (message error) with
  | Some friendly => friendly
  | None =>
  (* Check for common error patterns *)
  if message_includes error "duplicate key" then
    Text "This item already exists."
  else if message_includes error "foreign key" then
    Text "Referenced item not found."
  else if message_includes error "permission denied" then
    Text "You do not have permission to perform this action."
  else if message_includes error "not found" then
    Text "Requested resource not found."
  else if message_includes error "unauthorized" then
    Text "Authentication required."
  else if message_includes error "forbidden" then
    Text "You do not have permission to perform this action."
  else if message_includes error "rate limit" then
    Text "Too many requests. Please try again later."
  else if message_includes error "timeout" then
    Text "Request timed out. Please try again."
  else if message_includes error "network" then
    Text "Network error. Please check your connection and try again."
  else
    (* Default fallback *)
    Text "An unexpected error occurred. Please try again."
  end end.

(** Values that reach the server functions untyped: form entries, and the
    arguments of a server action, whose TypeScript types are not enforced at
    run time. *)
Inductive JsValue :=
| JsUndefined
| JsNull
| JsStr (s : string)
| JsNum (n : Z)
| JsNaN
| JsObject.

(** A [typeof v === 'number'] test. *)
Definition is_number (v : JsValue) : bool :=
  match v with JsNum _ | JsNaN => true | _ => false end.

(** [Boolean(v)] *)
Definition Boolean (v : JsValue) : bool :=
  match v with
  | JsStr (String _ _) | JsObject => true
  | JsNum n => negb (n =? 0)
  | _ => false
  end.

Module Regex.

(** Case-insensitive comparison of a code unit with an ASCII pattern
    character (flag [i] without flag [u]). *)
Definition upperAscii (c : ascii) : ascii :=
  let n := Js.code c in
  if (97 <=? n) && (n <=? 122) then ascii_of_N (Z.to_N (n - 32)) else c.

Definition eq_ci (a b : ascii) : bool := bool_decide (upperAscii a = upperAscii b).

Fixpoint startsWith_ci (p s : string) : bool :=
  match p, s with
  | EmptyString, _ => true
  | String a p', String b s' => eq_ci a b && startsWith_ci p' s'
  | String _ _, EmptyString => false
  end.

(** [\w] *)
Definition isWord (c : ascii) : bool :=
  let n := Js.code c in
  ((48 <=? n) && (n <=? 57)) || ((65 <=? n) && (n <=? 90))
  || ((97 <=? n) && (n <=? 122)) || (n =? 95).

(** [s.replace(re, '')] for a global pattern [re] without empty matches:
    [matchAt s] is the length of the match of [re] at the start of [s].
    [skip] counts the code units of the current match still to be dropped. *)
Fixpoint removeAll (matchAt : string -> option nat) (skip : nat) (s : string) : string :=
  match s with
  | EmptyString => EmptyString
  | String c s' =>
      match skip with
      | S k => removeAll matchAt k s'
      | O =>
          match matchAt s with
          | Some (S k) => removeAll matchAt k s'
          | _ => String c (removeAll matchAt O s')
          end
      end
  end.

(** [/[<>]/] *)
Definition angleBracket (s : string) : option nat :=
  match s with
  | String c _ => if bool_decide (c = "<"%char) || bool_decide (c = ">"%char)
                  then Some 1%nat else None
  | EmptyString => None
  end.

(** [/javascript:/i] *)
Definition javascriptScheme (s : string) : option nat :=
  if startsWith_ci "javascript:" s then Some 11%nat else None.

(** The length of the longest prefix of word characters. *)
Fixpoint wordRun (s : string) : nat :=
  match s with
  | String c s' => if isWord c then S (wordRun s') else O
  | EmptyString => O
  end.

Fixpoint dropChars (n : nat) (s : string) : string :=
  match n, s with
  | S n', String _ s' => dropChars n' s'
  | _, _ => s
  end.

(** [/on\w+=/i]: the greedy run of word characters has to be followed by
    [=]; giving characters back cannot help, since what follows a shorter
    run is a word character. *)
Definition eventHandler (s : string) : option nat :=
  if startsWith_ci "on" s then
    let rest := dropChars 2 s in
    let n := wordRun rest in
    match n, dropChars n rest with
    | S _, String c _ => if bool_decide (c = "="%char) then Some (2 + n + 1)%nat else None
    | _, _ => None
    end
  else None.

End Regex.

Definition sanitizeText (text : JsValue) : string :=
  match text with
  | JsStr text =>
      (* Remove any potential HTML tags and dangerous characters *)
      Js.trim
        (Regex.removeAll Regex.eventHandler O
          (Regex.removeAll Regex.javascriptScheme O
            (Regex.removeAll Regex.angleBracket O text)))
  | _ => ""
  end.

(** ** The schema library (zod 3), as far as the schemas of the actions use it *)

Module Zod.

Inductive PathItem := Key (name : string) | Index (i : nat).

Record ZodIssue := { path : list PathItem; issue_message : string }.

(** The checks of a string schema, in the order the builder calls add them. *)
Inductive StringCheck :=
| min (value : Z) (msg : string)
| max (value : Z) (msg : string)
| trim.

(** [ZodString._parse]: the checks run in order; [min] and [max] report on
    the current text, [trim] rewrites it for the checks that follow and for
    the output. *)
Fixpoint parseString (checks : list StringCheck) (p : list PathItem) (input : string)
  : list ZodIssue * string :=
  match checks with
  | [] => ([], input)
  | min value msg :: checks' =>
      let (issues, out) := parseString checks' p input in
      ((if Js.length input <? value then [{| path := p; issue_message := msg |}] else [])
         ++ issues, out)
  | max value msg :: checks' =>
      let (issues, out) := parseString checks' p input in
      ((if Js.length input >? value then [{| path := p; issue_message := msg |}] else [])
         ++ issues, out)
  | trim :: checks' => parseString checks' p (Js.trim input)
  end.

Record ArraySchema := {
  element : list StringCheck;
  minLength : Z * string;
  maxLength : Z * string;
  (** [.refine(check, message)] *)
  refinement : list string -> bool;
  refinement_message : string
}.

(** [ZodArray._parse]: the length checks first, then every element. *)
Fixpoint parseElements (checks : list StringCheck) (p : list PathItem) (i : nat)
    (items : list string) : list ZodIssue * list string :=
  match items with
  | [] => ([], [])
  | item :: items' =>
      let (issues, out) := parseString checks (p ++ [Index i]) item in
      let (issues', outs) := parseElements checks p (S i) items' in
      (issues ++ issues', out :: outs)
  end.

Definition parseArray (schema : ArraySchema) (p : list PathItem) (input : list string)
  : list ZodIssue * list string :=
  let len := Z.of_nat (length input) in
  let tooSmall :=
    if len <? (minLength schema).1
    then [{| path := p; issue_message := (minLength schema).2 |}] else [] in
  let tooBig :=
    if len >? (maxLength schema).1
    then [{| path := p; issue_message := (maxLength schema).2 |}] else [] in
  let (issues, out) := parseElements (element schema) p 0 input in
  (tooSmall ++ tooBig ++ issues, out).

(** [ZodEffects._parse] for a refinement: the inner schema is parsed, and
    the refinement runs on its output whether or not it raised issues. *)
Definition parseRefined (schema : ArraySchema) (p : list PathItem) (input : list string)
  : list ZodIssue * list string :=
  let (issues, out) := parseArray schema p input in
  (issues ++
    (if refinement schema out then []
     else [{| path := p; issue_message := refinement_message schema |}]),
   out).

(** [z.object({ question, options })] *)
Record ObjectSchema := { question : list StringCheck; options : ArraySchema }.

Inductive SafeParseReturn :=
| success (data_question : string) (data_options : list string)
| failure (firstError : ZodIssue) (otherErrors : list ZodIssue).

(** [schema.safeParse({ question, options })]: the properties are parsed in
    the order of the shape. *)
Definition safeParse (schema : ObjectSchema) (q : string) (opts : list string)
  : SafeParseReturn :=
  let (issues_q, out_q) := parseString (question schema) [Key "question"] q in
  let (issues_o, out_o) := parseRefined (options schema) [Key "options"] opts in
  match issues_q ++ issues_o with
  | [] => success out_q out_o
  | firstError :: others => failure firstError others
  end.

End Zod.

(** ** src/app/lib/actions/poll-actions.ts: validation schemas *)

(* Question validation: 10-500 characters, trimmed *)
Definition pollQuestionSchema : list Zod.StringCheck :=
  [ Zod.min 1 "Question is required";
    Zod.min 10 "Question must be at least 10 characters";
    Zod.max 500 "Question must be less than 500 characters";
    Zod.trim ].

(* Options validation: 2-10 options, each 2-200 characters, case-insensitive unique *)
Definition pollOptionsSchema : Zod.ArraySchema :=
  {| Zod.element :=
       [ Zod.min 1 "Option cannot be empty";
         Zod.min 2 "Option must be at least 2 characters";
         Zod.max 200 "Option must be less than 200 characters";
         Zod.trim ];
     Zod.minLength := (2, "At least 2 options are required");
     Zod.maxLength := (10, "Maximum 10 options allowed");
     Zod.refinement := fun options =>
       (* Case-insensitive uniqueness check to prevent duplicate options *)
       let uniqueOptions : gset string := list_to_set (Js.toLowerCase <$> options) in
       bool_decide (size uniqueOptions = length options);
     Zod.refinement_message := "Options must be unique (case-insensitive)" |}.

Definition createPollSchema : Zod.ObjectSchema :=
  {| Zod.question := pollQuestionSchema; Zod.options := pollOptionsSchema |}.

Definition updatePollSchema : Zod.ObjectSchema :=
  {| Zod.question := pollQuestionSchema; Zod.options := pollOptionsSchema |}.

(** ** [FormData] *)

Definition FormData : Type := list (string * JsValue).

(** [formData.get(name)]: the first entry of that name, or [null]. *)
Fixpoint formData_get (name : string) (formData : FormData) : JsValue :=
  match formData with
  | [] => JsNull
  | (k, v) :: rest => if bool_decide (k = name) then v else formData_get name rest
  end.

(** [formData.getAll(name)] *)
Definition formData_getAll (name : string) (formData : FormData) : list JsValue :=
  (filter (fun kv => kv.1 = name) formData).*2.

(** ** src/app/lib/actions/poll-actions.ts: the server actions *)

(** [{ polls, error }] and [{ poll, error }] *)
Record PollsResult := { polls : Data; polls_error : option ErrorValue }.
Record PollResult := { poll : Data; poll_error : option ErrorValue }.

(** [JSON.stringify] of an argument placed in a request body. *)
Definition toJSON (v : JsValue) : Json :=
  match v with
  | JsStr s => JString s
  | JsNum n => JNumber n
  | _ => JNull
  end.

(** [v < 0] for a value whose [typeof] is ['number']. *)
Definition lt_zero (v : JsValue) : bool :=
  match v with
  | JsNum n => n <? 0
  | _ => false
  end.

(** [!data || data.length === 0] *)
Definition no_rows (d : Data) : bool :=
  match d with
  | null | array [] => true
  | _ => false
  end.

Section Actions.

Context `{Supabase DB}.

Definition createPoll (formData : FormData) : M DB ActionResult :=
  (* Rate limiting: prevent abuse of poll creation *)
  rateLimitResult <- rateLimitCheck "createPoll" ;;
  if negb (ok rateLimitResult) then ret rateLimitResult else
  (* Extract and sanitize input data to prevent XSS *)
  let question := sanitizeText (formData_get "question" formData) in
  let options := sanitizeText <$> filter (fun v => Boolean v) (formData_getAll "options" formData) in
  (* Validate input with Zod schema for data integrity *)
  match Zod.safeParse createPollSchema question options with
  | Zod.failure firstError _ =>
      ret {| ok := false; error := Some (Zod.issue_message firstError) |}
  | Zod.success validatedQuestion validatedOptions =>
  (* Get authenticated user for ownership enforcement *)
  response <- auth_getUser ;;
  match user_error response with
  | Some userError =>
      friendly <- getFriendlyErrorMessage userError ;;
      ret {| ok := false; error := Some friendly |}
  | None =>
  match user response with
  | None => ret {| ok := false; error := Some "You must be logged in" |}
  | Some user =>
  (* Insert poll with user_id for ownership tracking *)
  response <- from "polls" (insert [
    [ ("user_id", JString (id user));
      ("question", JString validatedQuestion);
      ("options", JStrings validatedOptions) ] ]) ;;
  match data_error response with
  | Some error =>
      friendly <- getFriendlyErrorMessage error ;;
      ret {| ok := false; error := Some friendly |}
  | None =>
  (* Revalidate polls list cache to show new poll *)
  revalidatePath "/dashboard/polls" ;;;
  ret {| ok := true; error := None |}
  end end end end.

Definition getUserPolls : M DB PollsResult :=
  response <- auth_getUser ;;
  match user response with
  | None => ret {| polls := array []; polls_error := Some "Not authenticated" |}
  | Some user =>
  (* Filter by user_id to enforce ownership *)
  response <- from "polls"
    (select "*" [eq_ "user_id" (JString (id user))] (Some ("created_at", false)) false) ;;
  match data_error response with
  | Some error =>
      friendly <- getFriendlyErrorMessage error ;;
      ret {| polls := array []; polls_error := Some friendly |}
  | None =>
      ret {| polls := match data response with null => array [] | d => d end;
             polls_error := None |}
  end end.

Definition getPollById (id_ : string) : M DB PollResult :=
  (* Get current user for ownership verification *)
  response <- auth_getUser ;;
  match user_error response, user response with
  | None, Some user =>
  (* Double filter: by ID and user_id to enforce ownership *)
  response <- from "polls"
    (select "*" [eq_ "id" (JString id_); eq_ "user_id" (JString (id user))] None true) ;;
  match data_error response with
  | Some error =>
      friendly <- getFriendlyErrorMessage error ;;
      ret {| poll := null; poll_error := Some friendly |}
  | None => ret {| poll := data response; poll_error := None |}
  end
  | _, _ => ret {| poll := null; poll_error := Some "Authentication required" |}
  end.

Definition submitVote (pollId : string) (optionIndex : JsValue)
    (voteSignature : option string) : M DB ActionResult :=
  (* Rate limiting: prevent vote spam and abuse *)
  rateLimitResult <- rateLimitCheck "submitVote" ;;
  if negb (ok rateLimitResult) then ret rateLimitResult else
  userResponse <- auth_getUser ;;
  let user := user userResponse in
  (* Validate poll exists before allowing vote *)
  response <- from "polls" (select "id" [eq_ "id" (JString pollId)] None true) ;;
  if bool_decide (is_Some (data_error response)) || bool_decide (data response = null) then
    ret {| ok := false; error := Some "Poll not found." |}
  else
  (* Validate option index is within valid range *)
  if negb (is_number optionIndex) || lt_zero optionIndex then
    ret {| ok := false; error := Some "Invalid option selected." |}
  else
  (* Require vote signature for deduplication (prevents multiple votes) *)
  match Js.truthy voteSignature with
  | None => ret {| ok := false; error := Some "Vote signature required." |}
  | Some voteSignature =>
  (* Insert vote with signature - relies on DB unique constraint for deduplication *)
  response <- from "votes" (insert [
    [ ("poll_id", JString pollId);
      ("user_id", match user with Some u => JString (id u) | None => JNull end);
      ("option_index", toJSON optionIndex);
      ("signature", JString voteSignature) ] ]) ;;
  match data_error response with
  | Some error =>
      (* Handle unique constraint violation (duplicate vote) *)
      if bool_decide (code error = Some "23505") then
        ret {| ok := false; error := Some "You have already voted on this poll." |}
      else
        friendly <- getFriendlyErrorMessage error ;;
        ret {| ok := false; error := Some friendly |}
  | None =>
  (* Revalidate poll page to show updated vote counts *)
  revalidatePath ("/poll/" +:+ pollId) ;;;
  ret {| ok := true; error := None |}
  end end.

Definition deletePoll (id_ : string) : M DB ActionResult :=
  (* Rate limiting: prevent abuse of delete operations *)
  rateLimitResult <- rateLimitCheck "deletePoll" ;;
  if negb (ok rateLimitResult) then ret rateLimitResult else
  (* Get authenticated user for ownership verification *)
  response <- auth_getUser ;;
  match user_error response with
  | Some userError =>
      friendly <- getFriendlyErrorMessage userError ;;
      ret {| ok := false; error := Some friendly |}
  | None =>
  match user response with
  | None => ret {| ok := false; error := Some "You must be logged in" |}
  | Some user =>
  (* Delete with ownership filter - only owner can delete *)
  response <- from "polls"
    (delete [eq_ "id" (JString id_); eq_ "user_id" (JString (id user))]) ;;
  match data_error response with
  | Some error =>
      friendly <- getFriendlyErrorMessage error ;;
      ret {| ok := false; error := Some friendly |}
  | None =>
  (* Verify deletion succeeded (prevents silent failures) *)
  if no_rows (data response) then
    ret {| ok := false;
           error := Some "Poll not found or you don't have permission to delete it." |}
  else
  (* Revalidate polls list to remove deleted poll *)
  revalidatePath "/dashboard/polls" ;;;
  ret {| ok := true; error := None |}
  end end end.

Definition updatePoll (pollId : string) (formData : FormData) : M DB ActionResult :=
  (* Rate limiting: prevent abuse of update operations *)
  rateLimitResult <- rateLimitCheck "updatePoll" ;;
  if negb (ok rateLimitResult) then ret rateLimitResult else
  (* Extract and sanitize input data to prevent XSS *)
  let question := sanitizeText (formData_get "question" formData) in
  let options := sanitizeText <$> filter (fun v => Boolean v) (formData_getAll "options" formData) in
  (* Validate input with Zod schema for data integrity *)
  match Zod.safeParse updatePollSchema question options with
  | Zod.failure firstError _ =>
      ret {| ok := false; error := Some (Zod.issue_message firstError) |}
  | Zod.success validatedQuestion validatedOptions =>
  (* Get authenticated user for ownership verification *)
  response <- auth_getUser ;;
  match user_error response with
  | Some userError =>
      friendly <- getFriendlyErrorMessage userError ;;
      ret {| ok := false; error := Some friendly |}
  | None =>
  match user response with
  | None => ret {| ok := false; error := Some "You must be logged in" |}
  | Some user =>
  (* Update with ownership filter - only owner can update *)
  response <- from "polls"
    (update [ ("question", JString validatedQuestion);
              ("options", JStrings validatedOptions) ]
            [eq_ "id" (JString pollId); eq_ "user_id" (JString (id user))]) ;;
  match data_error response with
  | Some error =>
      friendly <- getFriendlyErrorMessage error ;;
      ret {| ok := false; error := Some friendly |}
  | None =>
  (* Verify update succeeded (prevents silent failures) *)
  if no_rows (data response) then
    ret {| ok := false;
           error := Some "Poll not found or you don't have permission to update it." |}
  else
  (* Revalidate polls list to show updated poll *)
  revalidatePath "/dashboard/polls" ;;;
  ret {| ok := true; error := None |}
  end end end end.

End Actions.

(** ** A relational backend with the schema the repository ships

    The tables, defaults, unique index and row-level policies are those of
    the SQL in the README and the migrations: [polls(id, question, options,
    user_id, created_at, is_active)], [votes(id, poll_id, user_id,
    option_index, signature, created_at)], the unique index
    [idx_votes_poll_signature_unique] on [(poll_id, signature) WHERE signature
    IS NOT NULL], owner-only insert, update and delete on polls, and insert-only
    votes on active polls.  The owner column is [user_id], the name the
    application and the README use; a poll whose [is_active] is NULL counts as
    active, as in the migration.  Generated identifiers and timestamps are
    drawn from a counter. *)

Module Pg.

Record PollRow := {
  poll_id : string;
  poll_question : string;
  poll_options : list string;
  poll_user_id : string;
  poll_created_at : Z;
  poll_is_active : option bool
}.

Record VoteRow := {
  vote_id : string;
  vote_poll_id : string;
  vote_user_id : option string;
  vote_option_index : Z;
  vote_signature : option string;
  vote_created_at : Z
}.

Global Instance PollRow_eq_dec : EqDecision PollRow.
Proof. solve_decision. Defined.
Global Instance VoteRow_eq_dec : EqDecision VoteRow.
Proof. solve_decision. Defined.

Record State := {
  session : UserResponse;
  poll_table : list PollRow;
  vote_table : list VoteRow;
  serial : nat
}.

(** [auth.uid()] *)
Definition auth_uid (st : State) : option string := id <$> user (session st).

Definition pg_error (sqlstate msg : string) : ApiError :=
  {| message := Some msg; code := Some sqlstate;
     details := None; hint := None; stack := None |}.

Definition failed (sqlstate msg : string) : PostgrestResponse :=
  {| data := null; data_error := Some (pg_error sqlstate msg) |}.

Definition succeeded (d : Data) : PostgrestResponse :=
  {| data := d; data_error := None |}.

Definition json_opt_string (o : option string) : Json :=
  match o with Some s => JString s | None => JNull end.

Definition json_opt_bool (o : option bool) : Json :=
  match o with Some b => JBool b | None => JNull end.

Definition poll_json (p : PollRow) : Row :=
  [ ("id", JString (poll_id p));
    ("question", JString (poll_question p));
    ("options", JStrings (poll_options p));
    ("user_id", JString (poll_user_id p));
    ("created_at", JNumber (poll_created_at p));
    ("is_active", json_opt_bool (poll_is_active p)) ].

Definition vote_json (v : VoteRow) : Row :=
  [ ("id", JString (vote_id v));
    ("poll_id", JString (vote_poll_id v));
    ("user_id", json_opt_string (vote_user_id v));
    ("option_index", JNumber (vote_option_index v));
    ("signature", json_opt_string (vote_signature v));
    ("created_at", JNumber (vote_created_at v)) ].

Definition poll_columns : list string :=
  ["id"; "question"; "options"; "user_id"; "created_at"; "is_active"].
Definition vote_columns : list string :=
  ["id"; "poll_id"; "user_id"; "option_index"; "signature"; "created_at"].

(** [column = value]; a comparison with NULL selects nothing. *)
Definition satisfies (r : Row) (f : Filter) : bool :=
  match f with
  | eq_ column value =>
      bool_decide (row_get column r = Some value) && negb (bool_decide (value = JNull))
  end.

Definition matches (filters : list Filter) (r : Row) : bool :=
  forallb (satisfies r) filters.

Definition filter_column (f : Filter) : string :=
  match f with eq_ column _ => column end.

Definition known_columns (columns : list string) (filters : list Filter) : bool :=
  forallb (fun f => bool_decide (filter_column f ∈ columns)) filters.

(** The select list: every column, or a single named one. *)
Definition project (columns : list string) (selected : string) (r : Row) : option Row :=
  if bool_decide (selected = "*") then Some r
  else if bool_decide (selected ∈ columns)
       then (fun v => [(selected, v)]) <$> row_get selected r
       else None.

Definition json_le (a b : Json) : Prop :=
  match a, b with
  | JNumber x, JNumber y => x <= y
  | JString x, JString y => String.le x y
  | _, _ => True
  end.

Global Instance json_le_dec : RelDecision json_le.
Proof. intros [] []; simpl; apply _. Defined.

Definition row_le (column : string) (ascending : bool) (r1 r2 : Row) : Prop :=
  let k1 := default JNull (row_get column r1) in
  let k2 := default JNull (row_get column r2) in
  if ascending then json_le k1 k2 else json_le k2 k1.

Global Instance row_le_dec column ascending : RelDecision (row_le column ascending).
Proof. intros r1 r2; unfold row_le; destruct ascending; apply _. Defined.

Definition ordered (order : option (string * bool)) (rows : list Row) : list Row :=
  match order with
  | Some (column, ascending) => merge_sort (row_le column ascending) rows
  | None => rows
  end.

(** The answer to a read: the rows, or with [.single()] the one row, an
    error being reported unless exactly one row was found. *)
Definition answer (single : bool) (rows : list Row) : PostgrestResponse :=
  if single then
    match rows with
    | [r] => succeeded (object r)
    | _ => failed "PGRST116" "JSON object requested, multiple (or no) rows returned"
    end
  else succeeded (array rows).

Definition run_select (columns : list string) (visible : list Row)
    (selected : string) (filters : list Filter)
    (order : option (string * bool)) (single : bool) : PostgrestResponse :=
  if negb (known_columns columns filters) then failed "42703" "column does not exist"
  else
    match mapM (project columns selected) (ordered order (filter (fun r => matches filters r) visible)) with
    | Some rows => answer single rows
    | None => failed "42703" "column does not exist"
    end.

Definition fresh_id (st : State) : string := "id-" +:+ pretty (serial st).

(** The USING clause of the owner policies on polls. *)
Definition owned (st : State) (p : PollRow) : bool :=
  bool_decide (auth_uid st = Some (poll_user_id p)).

(** [INSERT INTO polls]: the new row is checked against the insert policy
    [auth.uid() = user_id] and the NOT NULL columns. *)
Definition insert_poll (r : Row) (st : State) : ApiError + State :=
  let optional (key : string) : option (option string) :=
    match row_get key r with
    | None | Some JNull => Some None
    | Some (JString s) => Some (Some s)
    | _ => None
    end in
  let texts : option (option (list string)) :=
    match row_get "options" r with
    | None | Some JNull => Some None
    | Some (JStrings l) => Some (Some l)
    | _ => None
    end in
  match optional "user_id", optional "question", texts with
  | Some userId, Some q, Some opts =>
      if negb (bool_decide (is_Some userId ∧ auth_uid st = userId)) then
        inl (pg_error "42501" "new row violates row-level security policy for table polls")
      else
        match userId, q, opts with
        | Some userId, Some q, Some opts =>
            inr {| session := session st;
                   poll_table := poll_table st ++
                     [ {| poll_id := fresh_id st; poll_question := q; poll_options := opts;
                          poll_user_id := userId; poll_created_at := Z.of_nat (serial st);
                          poll_is_active := Some true |} ];
                   vote_table := vote_table st;
                   serial := S (serial st) |}
        | _, _, _ => inl (pg_error "23502" "null value violates not-null constraint")
        end
  | _, _, _ => inl (pg_error "22P02" "invalid input syntax")
  end.

Definition int4 (n : Z) : bool := (- 2 ^ 31 <=? n) && (n <? 2 ^ 31).

(** The WITH CHECK clause of the insert policy on votes. *)
Definition votable (st : State) (pollId : string) : bool :=
  bool_decide (Exists (fun p => poll_id p = pollId ∧ poll_is_active p ≠ Some false)
                      (poll_table st)).

(** The unique index on [(poll_id, signature) WHERE signature IS NOT NULL]. *)
Definition duplicate_signature (st : State) (pollId : string) (sig : option string) : bool :=
  match sig with
  | Some s => bool_decide (Exists (fun v => vote_poll_id v = pollId ∧ vote_signature v = Some s)
                                  (vote_table st))
  | None => false
  end.

(** [INSERT INTO votes]: the values are coerced to the column types, then
    the policy, the NOT NULL columns and the unique index are checked. *)
Definition insert_vote (r : Row) (st : State) : ApiError + State :=
  let optional (key : string) : option (option string) :=
    match row_get key r with
    | None | Some JNull => Some None
    | Some (JString s) => Some (Some s)
    | _ => None
    end in
  let index : option (option Z) :=
    match row_get "option_index" r with
    | None | Some JNull => Some None
    | Some (JNumber n) => Some (Some n)
    | _ => None
    end in
  match optional "poll_id", optional "user_id", index, optional "signature" with
  | Some pollId, Some userId, Some optionIndex, Some sig =>
      if negb (from_option int4 true optionIndex) then
        inl (pg_error "22003" "integer out of range")
      else if from_option (fun s => Js.length s >? 255) false sig then
        inl (pg_error "22001" "value too long for type character varying(255)")
      else if negb (from_option (votable st) false pollId) then
        inl (pg_error "42501" "new row violates row-level security policy for table votes")
      else
        match pollId, optionIndex with
        | Some pollId, Some optionIndex =>
            if duplicate_signature st pollId sig then
              inl (pg_error "23505"
                "duplicate key value violates unique constraint idx_votes_poll_signature_unique")
            else
              inr {| session := session st;
                     poll_table := poll_table st;
                     vote_table := vote_table st ++
                       [ {| vote_id := fresh_id st; vote_poll_id := pollId;
                            vote_user_id := userId; vote_option_index := optionIndex;
                            vote_signature := sig;
                            vote_created_at := Z.of_nat (serial st) |} ];
                     serial := S (serial st) |}
        | _, _ => inl (pg_error "23502" "null value violates not-null constraint")
        end
  | _, _, _, _ => inl (pg_error "22P02" "invalid input syntax")
  end.

(** A multi-row insert is one statement: the first failing row aborts it. *)
Fixpoint insert_all (ins : Row -> State -> ApiError + State) (rows : list Row) (st : State)
  : ApiError + State :=
  match rows with
  | [] => inr st
  | r :: rows' =>
      match ins r st with
      | inl e => inl e
      | inr st' => insert_all ins rows' st'
      end
  end.

Definition run_insert (ins : Row -> State -> ApiError + State) (rows : list Row) (st : State)
  : PostgrestResponse * State :=
  match insert_all ins rows st with
  | inl e => ({| data := null; data_error := Some e |}, st)
  | inr st' => (succeeded null, st')
  end.

(** The rows of polls a DELETE or UPDATE with these filters acts on. *)
Definition targeted (st : State) (filters : list Filter) (p : PollRow) : bool :=
  owned st p && matches filters (poll_json p).

(** [DELETE FROM polls ... RETURNING *], with the cascade to votes. *)
Definition delete_polls (filters : list Filter) (st : State) : PostgrestResponse * State :=
  if negb (known_columns poll_columns filters) then (failed "42703" "column does not exist", st)
  else
    let gone := filter (fun p => targeted st filters p) (poll_table st) in
    (succeeded (array (poll_json <$> gone)),
     {| session := session st;
        poll_table := filter (fun p => negb (targeted st filters p)) (poll_table st);
        vote_table := filter (fun v => vote_poll_id v ∉ poll_id <$> gone) (vote_table st);
        serial := serial st |}).

(** The SET list of an update: the columns the application writes. *)
Definition patch (values : Row) (p : PollRow) : option PollRow :=
  foldl (fun acc kv =>
           p ← acc;
           match kv with
           | ("question", JString q) =>
               Some {| poll_id := poll_id p; poll_question := q;
                       poll_options := poll_options p; poll_user_id := poll_user_id p;
                       poll_created_at := poll_created_at p;
                       poll_is_active := poll_is_active p |}
           | ("options", JStrings opts) =>
               Some {| poll_id := poll_id p; poll_question := poll_question p;
                       poll_options := opts; poll_user_id := poll_user_id p;
                       poll_created_at := poll_created_at p;
                       poll_is_active := poll_is_active p |}
           | _ => None
           end)
        (Some p) values.

(** [UPDATE polls SET ... RETURNING *] *)
Definition update_polls (values : Row) (filters : list Filter) (st : State)
  : PostgrestResponse * State :=
  if negb (known_columns poll_columns filters) then (failed "42703" "column does not exist", st)
  else
    match mapM (fun p => if targeted st filters p then patch values p else Some p)
               (poll_table st) with
    | None => (failed "42703" "column does not exist", st)
    | Some table' =>
        (succeeded (array (poll_json <$>
           omap (fun p => if targeted st filters p then patch values p else None)
                (poll_table st))),
         {| session := session st; poll_table := table';
            vote_table := vote_table st; serial := serial st |})
    end.

Definition execute (table : string) (q : Query) (st : State) : PostgrestResponse * State :=
  if bool_decide (table = "polls") then
    match q with
    | select selected filters order single =>
        (* polls are publicly readable *)
        (run_select poll_columns (poll_json <$> poll_table st) selected filters order single, st)
    | insert rows => run_insert insert_poll rows st
    | update values filters => update_polls values filters st
    | delete filters => delete_polls filters st
    end
  else if bool_decide (table = "votes") then
    match q with
    | select selected filters order single =>
        (* no policy grants SELECT on votes *)
        (run_select vote_columns [] selected filters order single, st)
    | insert rows => run_insert insert_vote rows st
    | update _ filters | delete filters =>
        (* votes are append-only: the policies are USING (false) *)
        if negb (known_columns vote_columns filters)
        then (failed "42703" "column does not exist", st)
        else (succeeded (array []), st)
    end
  else (failed "42P01" "relation does not exist", st).

Global Instance supabase : Supabase State := {
  backend_getUser st := (session st, st);
  backend_execute := execute
}.

End Pg.

(** ** Vocabulary of the properties *)

(** The key under which [checkRateLimit] counts the requests of the client
    of [w] for [action]. *)
Definition rateLimitKey {DB} (w : World DB) (action : string) : string :=
  (getClientIP w).1 +:+ ":" +:+ action.

(** Serve a request at time [t]. *)
Definition at_time {DB A} (t : Z) (m : M DB A) : M DB A := fun w => m (set_clock t w).

(** The same client asks for [action] at each of [times]; the verdicts. *)
Fixpoint requests {DB} (action : string) (times : list Z) : M DB (list bool) :=
  match times with
  | [] => ret []
  | t :: times' =>
      r <- at_time t (checkRateLimit action defaultWindowMs defaultMaxRequests) ;;
      rs <- requests action times' ;;
      ret (allowed r :: rs)
  end.
Arguments requests : simpl never.

(** The code units of a string. *)
Fixpoint chars (s : string) : list ascii :=
  match s with
  | EmptyString => []
  | String c s' => c :: chars s'
  end.

(** The substring patterns of [getFriendlyErrorMessage] with their messages,
    in the order they are tried, and the message of last resort. *)
Definition ERROR_PATTERNS : list (string * string) :=
  [ ("duplicate key", "This item already exists.");
    ("foreign key", "Referenced item not found.");
    ("permission denied", "You do not have permission to perform this action.");
    ("not found", "Requested resource not found.");
    ("unauthorized", "Authentication required.");
    ("forbidden", "You do not have permission to perform this action.");
    ("rate limit", "Too many requests. Please try again later.");
    ("timeout", "Request timed out. Please try again.");
    ("network", "Network error. Please check your connection and try again.") ].

Definition FALLBACK_MESSAGE : string := "An unexpected error occurred. Please try again.".

(** Every text [getFriendlyErrorMessage] is written to produce. *)
Definition friendlyMessages : list string :=
  DB_ERROR_MESSAGES_props.*2 ++ SUPABASE_ERROR_MESSAGES_props.*2
  ++ ERROR_PATTERNS.*2 ++ [FALLBACK_MESSAGE].

(** The text of the first substring pattern that occurs in the message of
    the error, or the message of last resort. *)
Definition first_pattern (error : ApiError) : string :=
  default FALLBACK_MESSAGE
    (snd <$> (snd <$> list_find (λ pm, message_includes error pm.1 = true) ERROR_PATTERNS)).

(** The validation rules as the specification words them (section 4.3):
    question of 10 to 500 characters; 2 to 10 options, each of 2 to 200
    characters after trimming, pairwise distinct ignoring case. *)
Definition valid_poll (question : string) (options : list string) : Prop :=
  10 <= Js.length question <= 500
  ∧ (2 <= length options <= 10)%nat
  ∧ Forall (λ o, 2 <= Js.length (Js.trim o) <= 200) options
  ∧ NoDup (Js.toLowerCase <$> (Js.trim <$> options)).

(** The first rule an option breaks, with the message of that rule. *)
Definition option_rule (text : string) : option string :=
  let len := Js.length (Js.trim text) in
  if len <? 1 then Some "Option cannot be empty"
  else if len <? 2 then Some "Option must be at least 2 characters"
  else if len >? 200 then Some "Option must be less than 200 characters"
  else None.

Fixpoint first_option_rule (options : list string) : option string :=
  match options with
  | [] => None
  | o :: options' =>
      match option_rule o with
      | Some msg => Some msg
      | None => first_option_rule options'
      end
  end.

(** Fail-fast validation as the specification words it: the rules are tried
    in order and the message of the first one that fails is the result;
    [None] when every rule holds. *)
Definition validate_fail_fast (question : string) (options : list string) : option string :=
  let len := Js.length question in
  let n := Z.of_nat (length options) in
  if len <? 1 then Some "Question is required"
  else if len <? 10 then Some "Question must be at least 10 characters"
  else if len >? 500 then Some "Question must be less than 500 characters"
  else if n <? 2 then Some "At least 2 options are required"
  else if n >? 10 then Some "Maximum 10 options allowed"
  else
    match first_option_rule options with
    | Some msg => Some msg
    | None =>
        if bool_decide (NoDup (Js.toLowerCase <$> (Js.trim <$> options))) then None
        else Some "Options must be unique (case-insensitive)"
    end.

(** The messages of the issues a question and an option raise against the
    checks of their schemas, in the order of the checks. *)
Definition question_issues (q : string) : list string :=
  (if Js.length q <? 1 then ["Question is required"] else [])
  ++ (if Js.length q <? 10 then ["Question must be at least 10 characters"] else [])
  ++ (if Js.length q >? 500 then ["Question must be less than 500 characters"] else []).

Definition option_issues (o : string) : list string :=
  (if Js.length o <? 1 then ["Option cannot be empty"] else [])
  ++ (if Js.length o <? 2 then ["Option must be at least 2 characters"] else [])
  ++ (if Js.length o >? 200 then ["Option must be less than 200 characters"] else []).

(** The messages of all the issues [createPollSchema] raises, in order. *)
Definition all_messages (q : string) (os : list string) : list string :=
  question_issues q
  ++ (if Z.of_nat (length os) <? 2 then ["At least 2 options are required"] else [])
  ++ (if Z.of_nat (length os) >? 10 then ["Maximum 10 options allowed"] else [])
  ++ (os ≫= option_issues)
  ++ (if bool_decide (size (list_to_set (Js.toLowerCase <$> (Js.trim <$> os)) : gset string)
                      = length (Js.trim <$> os))
      then [] else ["Options must be unique (case-insensitive)"]).

(** The two answers of [rateLimitCheck]. *)
Definition granted : ActionResult := {| ok := true; error := None |}.
Definition rateLimited : ActionResult :=
  {| ok := false; error := Some "Too many requests. Please try again later." |}.

(** The mutations among the exchanges with the backend. *)
Definition mutations (exchanges : list Exchange) : list Exchange :=
  filter (λ x, is_mutation x) exchanges.

(** ** A small deployment to run the actions on *)

Definition alice : User := {| id := "user-alice" |}.
Definition bob : User := {| id := "user-bob" |}.

(** Answers of the authentication service: to a signed-in request, and an
    answer with neither a user nor an error. *)
Definition signedIn (u : User) : UserResponse := {| user := Some u; user_error := None |}.
Definition anonymous : UserResponse := {| user := None; user_error := None |}.

(** The answer of [supabase.auth.getUser()] to a request that carries no
    session: no user, and the client's AuthSessionMissingError, whose message
    is this text and which has no code. *)
Definition authSessionMissing : ApiError :=
  {| message := Some "Auth session missing!"; code := None; details := None;
     hint := None; stack := None |}.
Definition sessionMissing : UserResponse :=
  {| user := None; user_error := Some authSessionMissing |}.

(** The failure with the generic text. *)
Definition unexpectedError : ActionResult :=
  {| ok := false; error := Some "An unexpected error occurred. Please try again." |}.

(** Alice's poll with two options, as [createPoll] stores it in an empty
    database. *)
Definition colors : Pg.PollRow :=
  {| Pg.poll_id := "id-0";
     Pg.poll_question := "What is your favorite color?";
     Pg.poll_options := ["Red"; "Blue"];
     Pg.poll_user_id := "user-alice";
     Pg.poll_created_at := 0;
     Pg.poll_is_active := Some true |}.

Definition database (session : UserResponse) (polls : list Pg.PollRow)
    (votes : list Pg.VoteRow) (serial : nat) : Pg.State :=
  {| Pg.session := session; Pg.poll_table := polls; Pg.vote_table := votes;
     Pg.serial := serial |}.

(** A request arriving at time 1000 from one address, with nothing counted
    against it yet. *)
Definition request (st : Pg.State) : World Pg.State :=
  mkWorld ∅ {[ "x-forwarded-for" := "203.0.113.7" ]} 1000 st [] [] [].

(** The form a browser posts to [createPoll]. *)
Definition colorsForm : FormData :=
  [ ("question", JsStr "What is your favorite color?");
    ("options", JsStr "Red");
    ("options", JsStr "Blue") ].

Definition sig1 : string :=
  "3f6d1c0b8a7e5d4c2b1a09f8e7d6c5b4a3f2e1d0c9b8a7f6e5d4c3b2a1908f7e".
Definition sig2 : string :=
  "a1b2c3d4e5f60718293a4b5c6d7e8f90a1b2c3d4e5f60718293a4b5c6d7e8f90".

(** An action run from [w] failed without asking the backend to change
    anything: at most the identity was resolved. *)
Definition refused_unmutated `{Supabase DB} (w : World DB)
    (run : ActionResult * World DB) : Prop :=
  ok run.1 = false
  ∧ mutations (wire run.2) = mutations (wire w)
  ∧ (wire run.2 = wire w ∨ wire run.2 = wire w ++ [GetUser (backend_getUser (db w)).1]).

(** The error of [deletePoll] that merges "not found" and "forbidden". *)
Definition notFoundOrForbidden : ActionResult :=
  {| ok := false;
     error := Some "Poll not found or you don't have permission to delete it." |}.


(** The pair the unique index of [votes] is built on, for a vote that
    carries a signature. *)
Definition vote_key (v : Pg.VoteRow) : option (string * string) :=
  (λ s, (Pg.vote_poll_id v, s)) <$> Pg.vote_signature v.

(** At most one vote per poll and signature. *)
Definition unique_signatures (st : Pg.State) : Prop :=
  NoDup (omap vote_key (Pg.vote_table st)).

(** ** Vocabulary of the further properties *)

(** Every counter of the map lies between one and the maximum. *)
Definition bounded_counts (maxRequests : Z) (store : gmap string RateLimitEntry) : Prop :=
  ∀ key entry, store !! key = Some entry → 1 <= count entry <= maxRequests.

(** The exchanges with the backend that a run from [w] to [w'] added. *)
Definition exchanged {DB} (w w' : World DB) : list Exchange :=
  drop (length (wire w)) (wire w').

(** The digits of [digest('hex')]. *)
Definition isHexDigit (c : ascii) : bool :=
  let n := Js.code c in
  ((48 <=? n) && (n <=? 57)) || ((97 <=? n) && (n <=? 102)).

(** The limiter has no request left for the client of [w] and [action]. *)
Definition exhausted {DB} (w : World DB) (action : string) : Prop :=
  ∃ entry, rateLimitStore w !! rateLimitKey w action = Some entry
           ∧ clock w <= resetTime entry ∧ defaultMaxRequests <= count entry.

(** The two shapes of an answer of an action: success without a text, or
    failure with a text to show. *)
Definition envelope (r : ActionResult) : Prop :=
  match ok r, error r with
  | true, None => True
  | false, Some m => m ≠ ""
  | _, _ => False
  end.

(** The row [createPoll] inserts and the values [updatePoll] sets. *)
Definition pollRow (u : User) (q : string) (os : list string) : Row :=
  [ ("user_id", JString (id u)); ("question", JString q); ("options", JStrings os) ].
Definition pollValues (q : string) (os : list string) : Row :=
  [ ("question", JString q); ("options", JStrings os) ].

(** The filter by poll and owner of the owner's reads and writes. *)
Definition ownerFilter (pollId : string) (u : User) : list Filter :=
  [eq_ "id" (JString pollId); eq_ "user_id" (JString (id u))].

(** The text and the options an action reads from a posted form. *)
Definition postedQuestion (formData : FormData) : string :=
  sanitizeText (formData_get "question" formData).
Definition postedOptions (formData : FormData) : list string :=
  sanitizeText <$> filter (λ v, Boolean v) (formData_getAll "options" formData).

(** The row [submitVote] inserts into [votes]. *)
Definition voteRow (pollId : string) (voter : option User) (optionIndex : JsValue)
    (sig : string) : Row :=
  [ ("poll_id", JString pollId);
    ("user_id", match voter with Some u => JString (id u) | None => JNull end);
    ("option_index", toJSON optionIndex);
    ("signature", JString sig) ].

(** The vote a successful [submitVote] leaves in the table. *)
Definition storedVote (st : Pg.State) (pollId : string) (n : Z) (sig : string) : Pg.VoteRow :=
  {| Pg.vote_id := Pg.fresh_id st; Pg.vote_poll_id := pollId;
     Pg.vote_user_id := Pg.auth_uid st; Pg.vote_option_index := n;
     Pg.vote_signature := Some sig; Pg.vote_created_at := Z.of_nat (Pg.serial st) |}.

(** The poll a successful [createPoll] leaves in the table. *)
Definition storedPoll (st : Pg.State) (u : User) (q : string) (os : list string) : Pg.PollRow :=
  {| Pg.poll_id := Pg.fresh_id st; Pg.poll_question := q; Pg.poll_options := os;
     Pg.poll_user_id := id u; Pg.poll_created_at := Z.of_nat (Pg.serial st);
     Pg.poll_is_active := Some true |}.

(** A poll with its question and options replaced, as [updatePoll] leaves it. *)
Definition editedPoll (q : string) (os : list string) (p : Pg.PollRow) : Pg.PollRow :=
  {| Pg.poll_id := Pg.poll_id p; Pg.poll_question := q; Pg.poll_options := os;
     Pg.poll_user_id := Pg.poll_user_id p; Pg.poll_created_at := Pg.poll_created_at p;
     Pg.poll_is_active := Pg.poll_is_active p |}.

(** The poll [p] is the poll [pollId] of the user [u]. *)
Definition pollOf (pollId : string) (u : User) (p : Pg.PollRow) : Prop :=
  Pg.poll_id p = pollId ∧ Pg.poll_user_id p = id u.

Global Instance pollOf_dec pollId u p : Decision (pollOf pollId u p).
Proof. unfold pollOf. apply _. Defined.

(** ** src/app/poll/[id]/page.tsx and src/app/(dashboard)/polls/[id]/page.tsx:
       the results shown *)

(** [votes?.filter(vote => vote.option_index === index).length || 0], for
    [votes] null or an array of rows. *)
Definition countFor (votes : option (list Row)) (index : nat) : nat :=
  match votes with
  | Some votes =>
      length (filter (λ vote, row_get "option_index" vote = Some (JNumber (Z.of_nat index)))
                     votes)
  | None => 0%nat
  end.

(** [(poll.options as string[]).map((_, index) => ...)] *)
Definition voteCounts (options : list string) (votes : option (list Row)) : list nat :=
  imap (λ index _, countFor votes index) options.

(** [voteCounts.reduce((sum, count) => sum + count, 0)] *)
Definition totalVotes (voteCounts : list nat) : nat :=
  foldl (λ sum count, (sum + count)%nat) 0%nat voteCounts.

(** What a server component comes to: its element, [notFound()], a
    TypeError raised on the way, or the error of next/headers for a cookie
    written where cookies are read-only. *)
Inductive Render (A : Type) :=
| Page (props : A)
| NotFound
| TypeError
| ReadonlyRequestCookiesError.
Arguments Page {A}.
Arguments NotFound {A}.
Arguments TypeError {A}.
Arguments ReadonlyRequestCookiesError {A}.

(** Where a server function runs.  A page is rendered as a Server
    Component. *)
Inductive RequestScope := ServerComponent | ServerAction | RouteHandler.

Global Instance RequestScope_eq_dec : EqDecision RequestScope.
Proof. solve_decision. Defined.

(** [cookieStore.set(name, value, options)] *)
Record Cookie := {
  cookie_name : string;
  cookie_value : string;
  httpOnly : bool;
  secure : bool;
  sameSite : string;
  maxAge : Z;
  cookie_path : string
}.

(** [cookieStore.set(...)] on the store of [cookies()]: in a Server Action
    or a Route Handler the cookie joins those of the response; during the
    render of a Server Component the call throws, which is what the
    try/catch around [cookieStore.set] in src/lib/supabase/server.ts is there
    for ("The `setAll` method was called from a Server Component"). *)
Definition cookieStore_set (scope : RequestScope) (jar : list Cookie) (cookie : Cookie)
  : option (list Cookie) :=
  match scope with
  | ServerComponent => None
  | ServerAction | RouteHandler => Some (jar ++ [cookie])
  end.

(** The props of [PollVotingComponent]. *)
Record PollVotingProps := {
  props_poll : Row;
  props_voteCounts : list nat;
  props_pollId : string
}.

Section Pages.

Context `{Supabase DB}.

(** [PublicPollPage({ params })], run in [scope]; the cookies it sets are
    returned with what it renders.  The call of [cookieStore.set] stands in
    no try/catch: where it throws, the page ends there. *)
Definition PublicPollPage (scope : RequestScope) (VOTE_SIGNING_SECRET NODE_ENV : string)
    (params_id : string) : M DB (Render PollVotingProps * list Cookie) :=
  (* Get poll data (public access - no ownership filter) *)
  response <- from "polls" (select "*" [eq_ "id" (JString params_id)] None true) ;;
  let poll := data response in
  if bool_decide (is_Some (data_error response)) || bool_decide (poll = null) then
    ret (NotFound, [])
  else
  (* Generate HMAC-based vote signature for deduplication *)
  voteSignature <- PublicPollPage_voteSignature VOTE_SIGNING_SECRET params_id ;;
  (* Set httpOnly cookie with vote signature *)
  let cookie :=
    {| cookie_name := "vote_sig_" +:+ params_id;
       cookie_value := voteSignature;
       httpOnly := true;
       secure := bool_decide (NODE_ENV = "production");
       sameSite := "lax";
       maxAge := 30 * 24 * 60 * 60;
       cookie_path := "/poll/" +:+ params_id |} in
  match cookieStore_set scope [] cookie with
  | None => ret (ReadonlyRequestCookiesError, [])
  | Some jar =>
  (* Fetch and aggregate vote counts server-side *)
  response <- from "votes"
    (select "option_index" [eq_ "poll_id" (JString params_id)] None false) ;;
  let votes := data response in
  (* Compute vote counts per option (0-based index mapping) *)
  match poll with
  | object poll =>
      match row_get "options" poll with
      | Some (JStrings options) =>
          let rendered (votes : option (list Row)) :=
            Page {| props_poll := poll;
                    props_voteCounts := voteCounts options votes;
                    props_pollId := params_id |} in
          match votes, options with
          | null, _ => ret (rendered None, jar)
          | array rows, _ => ret (rendered (Some rows), jar)
          | object _, [] => ret (rendered None, jar)
          | object _, _ :: _ => ret (TypeError, jar)
          end
      | _ => ret (TypeError, jar)
      end
  | _ => ret (TypeError, jar)
  end
  end.

End Pages.

(** The vote names one of the first [n] options. *)
Definition inRange (n : nat) (vote : Row) : bool :=
  match row_get "option_index" vote with
  | Some (JNumber k) => (0 <=? k) && (k <? Z.of_nat n)
  | _ => false
  end.

(** The request [w] with one header as its sender chose it. *)
Definition with_header {DB} (name value : string) (w : World DB) : World DB :=
  mkWorld (rateLimitStore w) (<[name := value]> (requestHeaders w)) (clock w) (db w)
          (revalidated w) (console w) (wire w).

(** ** src/app/(dashboard)/polls/[id]/edit/page.tsx *)

Section EditPage.

Context `{Supabase DB}.

(** [EditPollPage({ params })]: the poll handed to the edit form, or
    [notFound()]. *)
Definition EditPollPage (params_id : string) : M DB (Render Data) :=
  (* Server-side data fetching with ownership enforcement *)
  result <- getPollById params_id ;;
  (* Return 404 for any error (not found, not owned, or DB error) *)
  if bool_decide (is_Some (truthyValue (poll_error result))) || bool_decide (poll result = null)
  then ret NotFound
  else ret (Page (poll result)).

End EditPage.

(** ** The modules and their import statements *)

(** The source files of the application; an import of the application's own
    code whose file is not among them is kept by its specifier.  Packages
    (next, react, zod, @supabase/ssr, crypto) are left out. *)
Inductive SourceModule :=
| app_admin_page                  (* src/app/(dashboard)/admin/page.tsx *)
| app_polls_PollActions           (* src/app/(dashboard)/polls/PollActions.tsx *)
| app_polls_id_edit_page          (* src/app/(dashboard)/polls/[id]/edit/page.tsx *)
| app_polls_id_page               (* src/app/(dashboard)/polls/[id]/page.tsx *)
| app_lib_actions_auth_actions    (* src/app/lib/actions/auth-actions.ts *)
| app_lib_actions_poll_actions    (* src/app/lib/actions/poll-actions.ts *)
| app_poll_id_PollVotingComponent (* src/app/poll/[id]/PollVotingComponent.tsx *)
| app_poll_id_page                (* src/app/poll/[id]/page.tsx *)
| lib_rate_limiter                (* src/lib/rate-limiter.ts *)
| lib_supabase_client             (* src/lib/supabase/client.ts *)
| lib_supabase_server             (* src/lib/supabase/server.ts *)
| lib_vote_signature              (* src/lib/vote-signature.ts *)
| lib_error_handling              (* src/lib/error-handling.ts *)
| lib_logger                      (* src/lib/logger.ts *)
| NotAtHand (specifier : string).

Global Instance SourceModule_eq_dec : EqDecision SourceModule.
Proof. solve_decision. Defined.

Definition atHand (m : SourceModule) : bool :=
  match m with NotAtHand _ => false | _ => true end.

(** The [import ... from] statements of each file, in their order. *)
Definition imports (m : SourceModule) : list SourceModule :=
  match m with
  | app_admin_page =>
      [ NotAtHand "@/components/ui/button"; NotAtHand "@/components/ui/card";
        app_lib_actions_poll_actions; lib_supabase_client ]
  | app_polls_PollActions =>
      [ NotAtHand "@/components/ui/button"; app_lib_actions_poll_actions ]
  | app_polls_id_edit_page =>
      [ app_lib_actions_poll_actions; NotAtHand "./EditPollForm" ]
  | app_polls_id_page =>
      [ NotAtHand "@/components/ui/button"; NotAtHand "@/components/ui/card";
        lib_supabase_server ]
  | app_lib_actions_auth_actions =>
      [ lib_supabase_server; NotAtHand "../types"; lib_error_handling ]
  | app_lib_actions_poll_actions =>
      [ lib_supabase_server; lib_error_handling; lib_rate_limiter ]
  | app_poll_id_PollVotingComponent =>
      [ NotAtHand "@/components/ui/button"; NotAtHand "@/components/ui/card";
        app_lib_actions_poll_actions ]
  | app_poll_id_page =>
      [ lib_supabase_server; lib_vote_signature; app_poll_id_PollVotingComponent ]
  | lib_error_handling => [ lib_logger ]
  | lib_rate_limiter | lib_supabase_client | lib_supabase_server
  | lib_vote_signature | lib_logger => []
  | NotAtHand _ => []
  end.

(** The modules evaluated when [m] is loaded: those it imports, and theirs,
    before [m] itself.  (A module is evaluated once; a repetition in this list
    stands for the one evaluation.) *)
Fixpoint evaluationOrder (depth : nat) (m : SourceModule) : list SourceModule :=
  match depth with
  | O => [m]
  | S depth => (imports m ≫= evaluationOrder depth) ++ [m]
  end.

(** The longest chain of imports among the files has four steps. *)
Definition dependencies (m : SourceModule) : list SourceModule :=
  evaluationOrder 4 m.

(** The top-level statements of a module.  Those of the signature module
    throw without the secret; the others declare functions, constants and
    (the rate limiter) a store and a timer. *)
Definition topLevel (process_env : gmap string string) (m : SourceModule) : Load unit :=
  match m with
  | lib_vote_signature =>
      match load_vote_signature process_env with
      | Loaded _ => Loaded tt
      | Thrown e => Thrown e
      end
  | _ => Loaded tt
  end.

(** Loading [m]: the first module in evaluation order that throws makes the
    load fail. *)
Definition load_module (process_env : gmap string string) (m : SourceModule) : Load unit :=
  foldr (λ d rest, match topLevel process_env d with
                   | Thrown e => Thrown e
                   | Loaded _ => rest
                   end)
        (Loaded tt) (dependencies m).
(* ===================================================================== *)
(** * Part II: properties                                                  *)
(* ===================================================================== *)

(** Turn boolean comparisons among the hypotheses into arithmetic ones. *)
Ltac arith_hyps :=
  repeat match goal with
         | H : (_ >? _) = _ |- _ => rewrite Z.gtb_ltb in H
         | H : (_ >=? _) = _ |- _ => rewrite Z.geb_leb in H
         | H : (_ <? _) = true |- _ => apply Z.ltb_lt in H
         | H : (_ <? _) = false |- _ => apply Z.ltb_ge in H
         | H : (_ <=? _) = true |- _ => apply Z.leb_le in H
         | H : (_ <=? _) = false |- _ => apply Z.leb_gt in H
         end.

(** ** Test vectors for the digest (FIPS 180-4, RFC 4231) *)

Example round_constants :
  NodeCrypto.K256 !! 0%nat = Some 0x428a2f98 ∧ NodeCrypto.K256 !! 63%nat = Some 0xc67178f2
  ∧ NodeCrypto.H256 !! 0%nat = Some 0x6a09e667 ∧ NodeCrypto.H256 !! 7%nat = Some 0x5be0cd19.
Proof. vm_compute. repeat split; reflexivity. Qed.

Example sha256_abc :
  NodeCrypto.hex (NodeCrypto.sha256 (NodeCrypto.utf8 "abc"))
  = "ba7816bf8f01cfea414140de5dae2223b00361a396177a9cb410ff61f20015ad".
Proof. vm_compute. reflexivity. Qed.

Example hmac_rfc4231_case2 :
  NodeCrypto.createHmac_sha256_hex "Jefe" "what do ya want for nothing?"
  = "5bdcc146bf60754e6a042426089575c75a003f089d2739839dec58b964ec3843".
Proof. vm_compute. reflexivity. Qed.

Example sha256_two_blocks :
  NodeCrypto.hex (NodeCrypto.sha256
    (NodeCrypto.utf8 "abcdbcdecdefdefgefghfghighijhijkijkljklmklmnlmnomnopnopq"))
  = "248d6a61d20638b8e5c026930c3e6039a33ce45964ff2167f6ecedd419db06c1".
Proof. vm_compute. reflexivity. Qed.

Example hmac_rfc4231_case6 :
  NodeCrypto.hex (NodeCrypto.hmac_sha256 (replicate 131 0xaa)
    (NodeCrypto.utf8 "Test Using Larger Than Block-Size Key - Hash Key First"))
  = "60e431591ee0b67f0d8a26aacbf5b77f8e0bc6213728c5140546040f0ee37f54".
Proof. vm_compute. reflexivity. Qed.

(** ** The rate limiter *)

Section RateLimiter.

Context {DB : Type}.
Implicit Types (w : World DB) (action : string).

Lemma getClientIP_pure w : getClientIP w = ((getClientIP w).1, w).
Proof.
  unfold getClientIP, bind, headers, ret.
  repeat (case_match; simpl; try reflexivity).
Qed.

Lemma getClientIP_headers w w' :
  requestHeaders w = requestHeaders w' → (getClientIP w).1 = (getClientIP w').1.
Proof.
  intros E. unfold getClientIP, bind, headers, ret. rewrite E.
  repeat (case_match; simpl; try reflexivity).
Qed.

Lemma rateLimitKey_headers w w' action :
  requestHeaders w = requestHeaders w' → rateLimitKey w action = rateLimitKey w' action.
Proof. intros E. unfold rateLimitKey. by rewrite (getClientIP_headers w w' E). Qed.

(** [checkRateLimit] as a function of the entry found under the key. *)
Lemma checkRateLimit_eq w action windowMs maxRequests :
  checkRateLimit action windowMs maxRequests w =
  let key := rateLimitKey w action in
  let now := clock w in
  let fresh := {| count := 1; resetTime := now + windowMs |} in
  match rateLimitStore w !! key with
  | Some e =>
      if now >? resetTime e then
        ({| allowed := true; remaining := maxRequests - 1; result_resetTime := now + windowMs |},
         set_rateLimitStore (<[key := fresh]> (rateLimitStore w)) w)
      else if count e >=? maxRequests then
        ({| allowed := false; remaining := 0; result_resetTime := resetTime e |}, w)
      else
        ({| allowed := true; remaining := maxRequests - (count e + 1);
            result_resetTime := resetTime e |},
         set_rateLimitStore
           (<[key := {| count := count e + 1; resetTime := resetTime e |}]> (rateLimitStore w)) w)
  | None =>
      ({| allowed := true; remaining := maxRequests - 1; result_resetTime := now + windowMs |},
       set_rateLimitStore (<[key := fresh]> (rateLimitStore w)) w)
  end.
Proof.
  unfold checkRateLimit, bind at 1. rewrite getClientIP_pure.
  unfold bind, Date_now, rateLimitKey. simpl.
  destruct (rateLimitStore w !! _) as [e|]; [|reflexivity].
  destruct (clock w >? resetTime e); [reflexivity|].
  destruct (count e >=? maxRequests); reflexivity.
Qed.

Lemma checkRateLimit_reset w action windowMs maxRequests :
  (rateLimitStore w !! rateLimitKey w action = None
   ∨ ∃ e, rateLimitStore w !! rateLimitKey w action = Some e ∧ clock w > resetTime e) →
  checkRateLimit action windowMs maxRequests w =
    ({| allowed := true; remaining := maxRequests - 1;
        result_resetTime := clock w + windowMs |},
     set_rateLimitStore
       (<[rateLimitKey w action := {| count := 1; resetTime := clock w + windowMs |}]>
          (rateLimitStore w)) w).
Proof.
  intros Hk. rewrite checkRateLimit_eq. simpl.
  destruct Hk as [-> | (e & -> & Hlt)]; [reflexivity|].
  rewrite (proj2 (Z.gtb_gt _ _)); [reflexivity | lia].
Qed.

Lemma checkRateLimit_increment w action windowMs maxRequests e :
  rateLimitStore w !! rateLimitKey w action = Some e →
  clock w <= resetTime e → count e < maxRequests →
  checkRateLimit action windowMs maxRequests w =
    ({| allowed := true; remaining := maxRequests - (count e + 1);
        result_resetTime := resetTime e |},
     set_rateLimitStore
       (<[rateLimitKey w action := {| count := count e + 1; resetTime := resetTime e |}]>
          (rateLimitStore w)) w).
Proof.
  intros Hk Hnow Hc. rewrite checkRateLimit_eq. simpl. rewrite Hk.
  rewrite Z.gtb_ltb, (proj2 (Z.ltb_ge _ _)) by lia.
  rewrite Z.geb_leb, (proj2 (Z.leb_gt _ _)) by lia. reflexivity.
Qed.

Lemma checkRateLimit_reject w action windowMs maxRequests e :
  rateLimitStore w !! rateLimitKey w action = Some e →
  clock w <= resetTime e → count e >= maxRequests →
  checkRateLimit action windowMs maxRequests w =
    ({| allowed := false; remaining := 0; result_resetTime := resetTime e |}, w).
Proof.
  intros Hk Hnow Hc. rewrite checkRateLimit_eq. simpl. rewrite Hk.
  rewrite Z.gtb_ltb, (proj2 (Z.ltb_ge _ _)) by lia.
  rewrite Z.geb_leb, (proj2 (Z.leb_le _ _)) by lia. reflexivity.
Qed.

(** The rate limiter touches nothing but its own map. *)
Lemma checkRateLimit_frame w action windowMs maxRequests :
  let w' := (checkRateLimit action windowMs maxRequests w).2 in
  requestHeaders w' = requestHeaders w ∧ clock w' = clock w ∧ db w' = db w
  ∧ revalidated w' = revalidated w ∧ console w' = console w ∧ wire w' = wire w.
Proof.
  rewrite checkRateLimit_eq. simpl.
  repeat case_match; simpl; repeat split; reflexivity.
Qed.

Lemma rateLimitKey_set_clock w action t :
  rateLimitKey (set_clock t w) action = rateLimitKey w action.
Proof. by apply rateLimitKey_headers. Qed.

Lemma requests_cons action t ts w :
  requests action (t :: ts) w =
  let (r, w1) := checkRateLimit action defaultWindowMs defaultMaxRequests (set_clock t w) in
  let (rs, w2) := requests action ts w1 in
  (allowed r :: rs, w2).
Proof.
  unfold requests at 1; fold (@requests DB). unfold bind, at_time, ret.
  destruct (checkRateLimit _ _ _ _) as [r w1].
  destruct (requests action ts w1) as [rs w2]. reflexivity.
Qed.

Lemma requests_app action ts1 ts2 w :
  requests action (ts1 ++ ts2) w =
  let (r1, w1) := requests action ts1 w in
  let (r2, w2) := requests action ts2 w1 in
  (r1 ++ r2, w2).
Proof.
  revert w. induction ts1 as [|t ts1 IH]; intros w.
  - unfold requests at 2, ret. simpl. by destruct (requests action ts2 w).
  - rewrite <- app_comm_cons, !requests_cons.
    destruct (checkRateLimit _ _ _ _) as [r w1]. rewrite IH.
    destruct (requests action ts1 w1) as [r1 w2].
    by destruct (requests action ts2 w2).
Qed.

(** While the window is open and the count is below the maximum, every
    request is granted and counted. *)
Lemma requests_granted action ts : ∀ w e,
  rateLimitStore w !! rateLimitKey w action = Some e →
  count e + Z.of_nat (length ts) <= defaultMaxRequests →
  Forall (λ t, t <= resetTime e) ts →
  ∃ w', requests action ts w = (replicate (length ts) true, w')
        ∧ requestHeaders w' = requestHeaders w
        ∧ rateLimitStore w' !! rateLimitKey w action
          = Some {| count := count e + Z.of_nat (length ts); resetTime := resetTime e |}.
Proof.
  induction ts as [|t ts IH]; intros w e Hk Hc Hts.
  - exists w. simpl. rewrite Z.add_0_r. by destruct e.
  - apply Forall_cons in Hts as [Ht Hts]. simpl length in *.
    rewrite requests_cons.
    rewrite (checkRateLimit_increment _ _ _ _ e); simpl;
      rewrite ?rateLimitKey_set_clock; try done; try lia.
    set (w1 := set_rateLimitStore _ _).
    destruct (IH w1 {| count := count e + 1; resetTime := resetTime e |})
      as (w' & -> & Hh & Hs); simpl.
    + rewrite (rateLimitKey_headers w1 w) by done. subst w1. simpl.
      apply lookup_insert_eq.
    + lia.
    + done.
    + exists w'. split; [done|]. split; [by rewrite Hh|].
      rewrite (rateLimitKey_headers w1 w) in Hs by done. rewrite Hs.
      simpl. do 2 f_equal. lia.
Qed.

(** Once the count has reached the maximum, requests inside the window are
    refused and leave the world as it is, the clock apart. *)
Lemma requests_refused action ts : ∀ w e,
  rateLimitStore w !! rateLimitKey w action = Some e →
  count e >= defaultMaxRequests →
  Forall (λ t, t <= resetTime e) ts →
  ∃ w', requests action ts w = (replicate (length ts) false, w')
        ∧ requestHeaders w' = requestHeaders w
        ∧ rateLimitStore w' = rateLimitStore w.
Proof.
  induction ts as [|t ts IH]; intros w e Hk Hc Hts.
  - by exists w.
  - apply Forall_cons in Hts as [Ht Hts]. rewrite requests_cons.
    rewrite (checkRateLimit_reject _ _ _ _ e); simpl;
      rewrite ?rateLimitKey_set_clock; try done.
    destruct (IH (set_clock t w) e) as (w' & -> & Hh & Hs);
      rewrite ?rateLimitKey_set_clock; try done.
    by exists w'.
Qed.

(** The periodic sweep is invisible to the limiter: entries it drops are
    entries the next request would have restarted anyway. *)
Lemma cleanupExpired_transparent w action windowMs maxRequests swept :
  swept <= clock w →
  (checkRateLimit action windowMs maxRequests
     (set_rateLimitStore (cleanupExpired swept (rateLimitStore w)) w)).1
  = (checkRateLimit action windowMs maxRequests w).1.
Proof.
  intros Ht. rewrite !checkRateLimit_eq. cbn zeta.
  rewrite (rateLimitKey_headers (set_rateLimitStore _ w) w) by done.
  cbn [rateLimitStore clock set_rateLimitStore].
  unfold cleanupExpired. rewrite map_lookup_filter.
  destruct (rateLimitStore w !! rateLimitKey w action) as [e|]; [|done].
  cbn. case_guard as Hkeep; cbn.
  - destruct (clock w >? resetTime e); [done|].
    by destruct (count e >=? maxRequests).
  - apply not_false_is_true in Hkeep. arith_hyps.
    rewrite Z.gtb_ltb, (proj2 (Z.ltb_lt _ _)) by lia. done.
Qed.

End RateLimiter.

(** C3.  Fixed-window rate limiting with the default window of 60000 ms and
    maximum of 20, for the key of a client and an action: a first request, or
    one that arrives after the reset time, restarts the window with count 1
    and is granted with 19 remaining; inside the window a count below 20 is
    incremented and the request granted; a count of 20 or more refuses the
    request and leaves the map untouched; hence 20 requests inside a window
    are granted, any further ones inside it are refused, and a request after
    the window is granted again. *)
Theorem rate_limit_fixed_window {DB} (w : World DB) (action : string) :
  let key := rateLimitKey w action in
  let now := clock w in
  ((rateLimitStore w !! key = None
    ∨ ∃ e, rateLimitStore w !! key = Some e ∧ now > resetTime e) →
   checkRateLimit action 60000 20 w =
     ({| allowed := true; remaining := 19; result_resetTime := now + 60000 |},
      set_rateLimitStore
        (<[key := {| count := 1; resetTime := now + 60000 |}]> (rateLimitStore w)) w))
  ∧ (∀ e, rateLimitStore w !! key = Some e → now <= resetTime e → count e < 20 →
     checkRateLimit action 60000 20 w =
       ({| allowed := true; remaining := 20 - (count e + 1);
           result_resetTime := resetTime e |},
        set_rateLimitStore
          (<[key := {| count := count e + 1; resetTime := resetTime e |}]>
             (rateLimitStore w)) w))
  ∧ (∀ e, rateLimitStore w !! key = Some e → now <= resetTime e → count e >= 20 →
     checkRateLimit action 60000 20 w =
       ({| allowed := false; remaining := 0; result_resetTime := resetTime e |}, w))
  ∧ (∀ t0 inside beyond later,
       (rateLimitStore w !! key = None
        ∨ ∃ e, rateLimitStore w !! key = Some e ∧ t0 > resetTime e) →
       length inside = 19%nat →
       Forall (λ t, t <= t0 + 60000) (inside ++ beyond) →
       later > t0 + 60000 →
       (requests action (t0 :: inside ++ beyond ++ [later]) w).1
       = replicate 20 true ++ replicate (length beyond) false ++ [true]).
Proof.
  intros key now. subst key now. split; [|split; [|split]].
  - apply (checkRateLimit_reset w action 60000 20).
  - intros e. apply (checkRateLimit_increment w action 60000 20 e).
  - intros e. apply (checkRateLimit_reject w action 60000 20 e).
  - intros t0 inside beyond later Hfresh Hlen Hts Hlater.
    apply Forall_app in Hts as [Hin Hbeyond].
    rewrite requests_cons.
    rewrite checkRateLimit_reset; simpl; rewrite ?rateLimitKey_set_clock; [|done].
    set (w1 := set_rateLimitStore _ _).
    assert (Hkey1 : rateLimitKey w1 action = rateLimitKey w action)
      by by apply rateLimitKey_headers.
    rewrite requests_app.
    destruct (requests_granted action inside w1
                {| count := 1; resetTime := t0 + defaultWindowMs |})
      as (w2 & -> & Hh2 & Hs2); simpl.
    { rewrite Hkey1. subst w1. simpl. apply lookup_insert_eq. }
    { rewrite Hlen. unfold defaultMaxRequests. lia. }
    { done. }
    assert (Hkey2 : rateLimitKey w2 action = rateLimitKey w action)
      by (rewrite <- Hkey1; by apply rateLimitKey_headers).
    rewrite requests_app.
    destruct (requests_refused action beyond w2
                {| count := 1 + Z.of_nat (length inside); resetTime := t0 + defaultWindowMs |})
      as (w3 & -> & Hh3 & Hs3); simpl.
    { rewrite Hkey2, <- Hkey1. done. }
    { rewrite Hlen. unfold defaultMaxRequests. lia. }
    { done. }
    rewrite requests_cons.
    rewrite checkRateLimit_reset; simpl.
    + rewrite Hlen. reflexivity.
    + right. eexists. rewrite rateLimitKey_set_clock.
      rewrite (rateLimitKey_headers w3 w2 action Hh3), Hkey2, Hs3, <- Hkey1.
      split; [exact Hs2|]. simpl. unfold defaultWindowMs. lia.
Qed.

(** The scenario of C3 on a client that has never been seen: twenty requests
    in the first minute pass, the next two are refused, and a request in the
    second minute passes. *)
Lemma rate_limit_fixed_window_witness :
  let w : World unit := mkWorld ∅ {[ "x-real-ip" := "203.0.113.7" ]} 0 tt [] [] [] in
  (requests "submitVote"
     (1000 :: replicate 19 2000 ++ [3000; 61000] ++ [61001]) w).1
  = replicate 20 true ++ replicate 2 false ++ [true].
Proof.
  intros w.
  apply (proj2 (proj2 (proj2 (rate_limit_fixed_window w "submitVote")))
           1000 (replicate 19 2000) [3000; 61000] 61001).
  - left. reflexivity.
  - reflexivity.
  - repeat constructor; lia.
  - lia.
Defined.

(** ** Strings *)

Section Strings.

Lemma chars_inj s1 s2 : chars s1 = chars s2 → s1 = s2.
Proof.
  revert s2. induction s1 as [|c s1 IH]; intros [|c2 s2] E; simplify_eq/=; auto.
  f_equal. auto.
Qed.

Lemma chars_app s1 s2 : chars (s1 +:+ s2) = chars s1 ++ chars s2.
Proof. induction s1 as [|c s1 IH]; simpl; [done|]. by rewrite <- IH. Qed.



Lemma append_assoc s1 s2 s3 : (s1 +:+ s2) +:+ s3 = s1 +:+ (s2 +:+ s3).
Proof. apply chars_inj. by rewrite !chars_app, app_assoc. Qed.

End Strings.

(** ** Vote signatures *)

Section VoteSignature.

Implicit Types (secret pollId userAgent : string) (ip : option string).

Lemma verify_iff secret pollId userAgent signature ip :
  verifyVoteSignature secret pollId userAgent signature ip = true
  ↔ signature = generateVoteSignature secret pollId userAgent ip.
Proof.
  unfold verifyVoteSignature. rewrite bool_decide_eq_true. split; congruence.
Qed.




End VoteSignature.



(** Outside those inputs: an ip that is the empty text (what
    [split(',')[0].trim()] yields for a forwarding header that starts with a
    comma) is signed like no ip. *)
Example vote_signature_ip_change_unnoticed :
  (None : option string) ≠ Some ""
  ∧ generateVoteSignature "s3cret" "poll-1" "Mozilla/5.0" None
    = generateVoteSignature "s3cret" "poll-1" "Mozilla/5.0" (Some "").
Proof.
  split; [discriminate|]. unfold generateVoteSignature. f_equal.
Qed.

(** The same on the page that issues the signatures: a visitor whose
    forwarding header starts with a comma is given the signature of a visitor
    without forwarding header. *)
Example page_signature_empty_ip :
  let direct : World unit :=
    mkWorld ∅ {[ "user-agent" := "Mozilla/5.0" ]} 0 tt [] [] [] in
  let forwarded : World unit :=
    mkWorld ∅ (<[ "x-forwarded-for" := ", 198.51.100.2" ]> {[ "user-agent" := "Mozilla/5.0" ]})
            0 tt [] [] [] in
  (PublicPollPage_voteSignature "s3cret" "poll-1" direct).1
  = (PublicPollPage_voteSignature "s3cret" "poll-1" forwarded).1.
Proof.
  unfold PublicPollPage_voteSignature, bind, headers, ret, generateVoteSignature.
  cbn [fst]. f_equal.
Qed.

(** The length of a signature, the digest computed. *)
Example vote_signature_spot_check :
  String.length (generateVoteSignature "s3cret" "poll-1" "Mozilla/5.0" None) = 64%nat.
Proof. vm_compute. reflexivity. Qed.

(** The list of dependencies is closed under the import statements. *)
Lemma dependencies_closed m d i :
  d ∈ dependencies m → i ∈ imports d → i ∈ dependencies m.
Proof.
  intros Hd Hi.
  assert (Hall : forallb (λ d, forallb (λ i, bool_decide (i ∈ dependencies m)) (imports d))
                         (dependencies m) = true)
    by (destruct m; vm_compute; reflexivity).
  apply Is_true_true, forallb_True in Hall.
  rewrite Forall_forall in Hall. specialize (Hall d Hd).
  apply forallb_True in Hall. rewrite Forall_forall in Hall.
  exact (bool_decide_unpack _ (Hall i Hi)).
Qed.

Lemma dependencies_self m : m ∈ dependencies m.
Proof.
  unfold dependencies. cbn [evaluationOrder]. apply elem_of_app. right.
  apply elem_of_cons. by left.
Qed.

(** A load fails only at the top level of the signature module. *)
Lemma load_module_spec process_env m :
  load_module process_env m
  = if bool_decide (lib_vote_signature ∈ dependencies m)
    then topLevel process_env lib_vote_signature
    else Loaded tt.
Proof.
  unfold load_module. induction (dependencies m) as [|d ds IH]; [done|].
  cbn [foldr]. rewrite IH. clear IH.
  destruct (decide (d = lib_vote_signature)) as [->|Hne].
  - rewrite (bool_decide_eq_true_2 (lib_vote_signature ∈ lib_vote_signature :: ds))
      by (apply elem_of_cons; by left).
    destruct (topLevel process_env lib_vote_signature) as [[]|e]; [|done].
    by case_bool_decide.
  - assert (topLevel process_env d = Loaded tt) as -> by (by destruct d).
    rewrite (bool_decide_ext (lib_vote_signature ∈ d :: ds) (lib_vote_signature ∈ ds));
      [done|]. rewrite elem_of_cons.
    split; [intros [E | Hin]; [congruence | done] | by right].
Qed.

(** C8, as the code has it.  Loading the signature module throws when the
    secret is missing from the environment or is the empty string; when it is
    set to a non-empty text the module loads with that secret, signatures
    generated with it verify, and every module loads.  The refusal is that
    of one module, not of the process: among the files only the public poll
    page imports the signature module, every module that loading the server
    actions evaluates is at hand and none is the signature module, so the
    actions load whatever the environment. *)
Theorem signing_secret_required (process_env : gmap string string) :
  (process_env !! "VOTE_SIGNING_SECRET" = None
   ∨ process_env !! "VOTE_SIGNING_SECRET" = Some "" →
   load_vote_signature process_env
   = Thrown "VOTE_SIGNING_SECRET environment variable is required"
   ∧ load_module process_env lib_vote_signature
     = Thrown "VOTE_SIGNING_SECRET environment variable is required"
   ∧ load_module process_env app_poll_id_page
     = Thrown "VOTE_SIGNING_SECRET environment variable is required")
  ∧ (∀ secret,
       process_env !! "VOTE_SIGNING_SECRET" = Some secret → secret ≠ "" →
       load_vote_signature process_env = Loaded secret
       ∧ (∀ m, load_module process_env m = Loaded tt)
       ∧ ∀ pollId userAgent ip,
           verifyVoteSignature secret pollId userAgent
             (generateVoteSignature secret pollId userAgent ip) ip = true)
  ∧ (∀ m, lib_vote_signature ∈ imports m ↔ m = app_poll_id_page)
  ∧ Forall (λ d, atHand d = true ∧ d ≠ lib_vote_signature)
           (dependencies app_lib_actions_poll_actions)
  ∧ load_module process_env app_lib_actions_poll_actions = Loaded tt
  ∧ load_module process_env app_lib_actions_auth_actions = Loaded tt.
Proof.
  split; [|split; [|split; [|split; [|split]]]].
  - intros Hmissing.
    assert (Hl : load_vote_signature process_env
                 = Thrown "VOTE_SIGNING_SECRET environment variable is required").
    { unfold load_vote_signature. by destruct Hmissing as [-> | ->]. }
    split; [done|]. rewrite !load_module_spec. unfold topLevel. rewrite Hl.
    split; reflexivity.
  - intros secret Hs Hne.
    assert (Hl : load_vote_signature process_env = Loaded secret).
    { unfold load_vote_signature. rewrite Hs. by destruct secret. }
    split; [done|]. split.
    + intros m. rewrite load_module_spec. unfold topLevel. rewrite Hl.
      by case_bool_decide.
    + intros. by apply verify_iff.
  - intros m. split.
    + destruct m; cbn [imports]; intros Hin; try reflexivity; exfalso;
        repeat (apply elem_of_cons in Hin as [Hin | Hin]; [discriminate|]);
        by apply elem_of_nil in Hin.
    + intros ->. cbn [imports]. apply elem_of_cons. right. apply elem_of_cons. by left.
  - unfold dependencies. cbn.
    repeat (apply Forall_cons_2; [by split|]). apply Forall_nil_2.
  - rewrite load_module_spec. reflexivity.
  - rewrite load_module_spec. reflexivity.
Qed.

Lemma signing_secret_required_witness :
  load_vote_signature ∅ = Thrown "VOTE_SIGNING_SECRET environment variable is required"
  ∧ load_vote_signature {[ "VOTE_SIGNING_SECRET" := "s3cret" ]} = Loaded "s3cret"
  ∧ load_module ∅ app_lib_actions_poll_actions = Loaded tt.
Proof.
  split; [|split].
  - apply (proj1 (signing_secret_required ∅)). left. reflexivity.
  - apply (proj1 (proj2 (signing_secret_required {[ "VOTE_SIGNING_SECRET" := "s3cret" ]}))
             "s3cret"); [reflexivity | discriminate].
  - apply (proj2 (proj2 (signing_secret_required ∅))).
Defined.

(** With no secret in the environment the signature module refuses to load,
    and the application takes votes all the same: the module of the server
    actions loads, and [submitVote] stores the vote a visitor sends under a
    signature of their own making. *)
Lemma votes_accepted_without_secret :
  let process_env : gmap string string := ∅ in
  let w := request (database sessionMissing [colors] [] 1) in
  let run := submitVote "id-0" (JsNum 1) (Some sig1) w in
  process_env !! "VOTE_SIGNING_SECRET" = None
  ∧ load_vote_signature process_env
    = Thrown "VOTE_SIGNING_SECRET environment variable is required"
  ∧ load_module process_env app_lib_actions_poll_actions = Loaded tt
  ∧ run.1 = {| ok := true; error := None |}
  ∧ Pg.vote_table (db run.2)
    = [ {| Pg.vote_id := "id-1"; Pg.vote_poll_id := "id-0"; Pg.vote_user_id := None;
           Pg.vote_option_index := 1; Pg.vote_signature := Some sig1;
           Pg.vote_created_at := 1 |} ].
Proof. vm_compute. repeat split; reflexivity. Qed.

(** A variable that is set to the empty string counts as no secret. *)
Example empty_secret_refused :
  let process_env : gmap string string := {[ "VOTE_SIGNING_SECRET" := "" ]} in
  is_Some (process_env !! "VOTE_SIGNING_SECRET")
  ∧ load_vote_signature process_env
    = Thrown "VOTE_SIGNING_SECRET environment variable is required".
Proof. split; [by eexists | reflexivity]. Qed.

(** ** Friendly error messages *)

Section ErrorHandling.

Lemma objectLiteral_lookup props k v :
  objectLiteral props !! k = Some v → v ∈ props.*2.
Proof.
  unfold objectLiteral.
  assert (G : ∀ m0 : gmap string string, foldl (λ m kv, <[kv.1:=kv.2]> m) m0 props !! k = Some v →
                    v ∈ props.*2 ∨ m0 !! k = Some v).
  { induction props as [|[k' v'] props IH]; intros m0 Hl; simpl in *; [by right|].
    destruct (IH _ Hl) as [Hin | Hl'].
    - left. by right.
    - destruct (decide (k' = k)) as [->|Hne].
      + rewrite lookup_insert_eq in Hl'. simplify_eq. left. by left.
      + rewrite lookup_insert_ne in Hl' by done. by right. }
  intros Hl. destruct (G ∅ Hl) as [?|Hl']; [done|].
  by rewrite lookup_empty in Hl'.
Qed.

Lemma truthy_Some v s : Js.truthy v = Some s → v = Some s ∧ s ≠ "".
Proof. destruct v as [[|c t]|]; simpl; intros E; simplify_eq. done. Qed.

Lemma truthy_of_nonempty s : s ≠ "" → Js.truthy (Some s) = Some s.
Proof. by destruct s. Qed.

Lemma truthyValue_Some v x : truthyValue v = Some x → v = Some x ∧ x ≠ Text "".
Proof. destruct v as [[[|c t]|k]|]; simpl; intros E; simplify_eq; done. Qed.

(** What a truthy lookup found: a non-empty text of the table itself, or,
    the table having no such property, the member inherited under the key. *)
Lemma lookup_truthy_Some table key v :
  lookup_truthy table key = Some v →
  ∃ k, key = Some k ∧ k ≠ ""
       ∧ ((∃ text, table !! k = Some text ∧ text ≠ "" ∧ v = Text text)
          ∨ (table !! k = None ∧ k ∈ Object_prototype ∧ v = Inherited k)).
Proof.
  unfold lookup_truthy. destruct (Js.truthy key) as [k|] eqn:Ek; [|done].
  apply truthy_Some in Ek as [-> Hk]. intros [E Hv]%truthyValue_Some.
  exists k. split; [done|]. split; [done|]. unfold getProperty in E.
  destruct (table !! k) as [text|].
  - left. exists text. simplify_eq. split; [done|]. split; [|done]. by intros ->.
  - right. case_bool_decide; by simplify_eq.
Qed.

Lemma friendly_nonempty : Forall (λ m, m ≠ "") friendlyMessages.
Proof. by apply (bool_decide_unpack _). Qed.

(** A table lookup under a found key yields the entry: keys and entries of
    the two tables are non-empty texts. *)
Lemma lookup_truthy_found props k m :
  Forall (λ m, m ≠ "") props.*2 → objectLiteral props !! "" = None →
  objectLiteral props !! k = Some m →
  lookup_truthy (objectLiteral props) (Some k) = Some (Text m).
Proof.
  intros Hne Hempty Hl. unfold lookup_truthy, getProperty.
  assert (k ≠ "") by (intros ->; congruence).
  rewrite truthy_of_nonempty by done. rewrite Hl.
  apply objectLiteral_lookup in Hl. eapply Forall_forall in Hne; [|done].
  by destruct m.
Qed.

(** A key that is neither a property of the table nor a name every object
    inherits finds nothing. *)
Lemma lookup_truthy_None table key :
  (∀ k, key = Some k → table !! k = None ∧ k ∉ Object_prototype) →
  lookup_truthy table key = None.
Proof.
  intros Hk. unfold lookup_truthy, getProperty.
  destruct (Js.truthy key) as [k|] eqn:Ek; [|done].
  apply truthy_Some in Ek as [-> _]. destruct (Hk k eq_refl) as [-> Hno].
  by rewrite bool_decide_eq_false_2.
Qed.

Lemma startsWith_spec p s : Js.startsWith p s = true ↔ ∃ post, s = p +:+ post.
Proof.
  revert s. induction p as [|a p IH]; intros s; cbn.
  - split; [by exists s | done].
  - destruct s as [|b s]; [split; [done | by intros [post ?]]|].
    rewrite andb_true_iff, bool_decide_eq_true, IH. split.
    + intros [-> [post ->]]. by exists post.
    + intros [post [= -> ->]]. split; [done|]. by exists post.
Qed.

(** [includes] is occurrence as a substring. *)
Lemma includes_spec s p : Js.includes s p = true ↔ ∃ pre post, s = pre +:+ p +:+ post.
Proof.
  induction s as [|c s IH].
  - cbn [Js.includes]. rewrite orb_false_r, startsWith_spec. split.
    + intros [post ->]. by exists "", post.
    + intros (pre & post & E). destruct pre; [by exists post|done].
  - cbn [Js.includes]. rewrite orb_true_iff, startsWith_spec, IH. split.
    + intros [[post ->] | (pre & post & ->)]; [by exists "", post|].
      by exists (String c pre), post.
    + intros ([|c' pre] & post & E); [left; by exists post|].
      right. injection E as -> ->. by exists pre, post.
Qed.

Context {DB : Type}.

Lemma getFriendlyErrorMessage_eq (error : ApiError) (w : World DB) :
  getFriendlyErrorMessage error w =
  (match lookup_truthy DB_ERROR_MESSAGES (code error) with
   | Some friendly => friendly
   | None =>
       match lookup_truthy SUPABASE_ERROR_MESSAGES (message error) with
       | Some friendly => friendly
       | None => Text (first_pattern error)
       end
   end,
   mkWorld (rateLimitStore w) (requestHeaders w) (clock w) (db w) (revalidated w)
           (console w ++ [("[ERROR] Database/API Error:", error)]) (wire w)).
Proof.
  unfold getFriendlyErrorMessage, bind, logger_error, console_error, ret. simpl.
  f_equal.
  destruct (lookup_truthy DB_ERROR_MESSAGES _); [done|].
  destruct (lookup_truthy SUPABASE_ERROR_MESSAGES _); [done|].
  unfold first_pattern, ERROR_PATTERNS.
  generalize (message_includes error). intros occurs. simpl.
  repeat (match goal with
          | |- context [if occurs ?p then _ else _] =>
              destruct (occurs p); [reflexivity|]
          end).
  reflexivity.
Qed.

Lemma first_pattern_friendly error : first_pattern error ∈ friendlyMessages.
Proof.
  unfold first_pattern.
  destruct (list_find _ _) as [[i [p m]]|] eqn:E.
  - apply list_find_Some in E as (Hi & _ & _).
    apply list_elem_of_lookup_2 in Hi.
    change (m ∈ friendlyMessages). unfold friendlyMessages.
    rewrite !elem_of_app. right. right. left.
    apply list_elem_of_fmap. by exists (p, m).
  - change (FALLBACK_MESSAGE ∈ friendlyMessages). unfold friendlyMessages.
    rewrite !elem_of_app. right. right. right. by left.
Qed.

(** What [getFriendlyErrorMessage] returns is one of the friendly texts, or
    a member of [Object.prototype] named by the code or by the message. *)
Lemma getFriendlyErrorMessage_friendly (error : ApiError) (w : World DB) :
  (∃ m, (getFriendlyErrorMessage error w).1 = Text m ∧ m ∈ friendlyMessages)
  ∨ (∃ k, (getFriendlyErrorMessage error w).1 = Inherited k ∧ k ∈ Object_prototype
          ∧ (code error = Some k ∨ message error = Some k)).
Proof.
  rewrite getFriendlyErrorMessage_eq. cbn [fst].
  destruct (lookup_truthy DB_ERROR_MESSAGES _) as [v|] eqn:E1.
  { apply lookup_truthy_Some in E1 as (k & Hk & _ & [(m & Hl & _ & ->) | (_ & Hin & ->)]).
    - left. exists m. split; [done|].
      apply objectLiteral_lookup in Hl. unfold friendlyMessages.
      rewrite !elem_of_app. by left.
    - right. exists k. auto. }
  destruct (lookup_truthy SUPABASE_ERROR_MESSAGES _) as [v|] eqn:E2.
  { apply lookup_truthy_Some in E2 as (k & Hk & _ & [(m & Hl & _ & ->) | (_ & Hin & ->)]).
    - left. exists m. split; [done|].
      apply objectLiteral_lookup in Hl. unfold friendlyMessages.
      rewrite !elem_of_app. right. by left.
    - right. exists k. auto. }
  left. eexists. split; [done|]. apply first_pattern_friendly.
Qed.

(** The texts the actions write themselves are not among them. *)
Lemma invalid_option_not_friendly : "Invalid option selected." ∉ friendlyMessages.
Proof. apply (bool_decide_unpack _). vm_compute. reflexivity. Qed.

(** The first pattern of the list that occurs in the message decides. *)
Lemma first_pattern_spec (error : ApiError) :
  (∀ i p m, ERROR_PATTERNS !! i = Some (p, m) →
     (∃ raw pre post, message error = Some raw ∧ raw = pre +:+ p +:+ post) →
     (∀ j q n, (j < i)%nat → ERROR_PATTERNS !! j = Some (q, n) →
        ∀ raw pre post, message error = Some raw → raw ≠ pre +:+ q +:+ post) →
     first_pattern error = m)
  ∧ ((∀ j q n, ERROR_PATTERNS !! j = Some (q, n) →
        ∀ raw pre post, message error = Some raw → raw ≠ pre +:+ q +:+ post) →
     first_pattern error = FALLBACK_MESSAGE).
Proof.
  assert (Hocc : ∀ p, message_includes error p = true
                      ↔ ∃ raw pre post, message error = Some raw ∧ raw = pre +:+ p +:+ post).
  { intros p. unfold message_includes. destruct (message error) as [raw|].
    - rewrite includes_spec. split.
      + intros (pre & post & ->). by exists (pre +:+ p +:+ post), pre, post.
      + intros (raw' & pre & post & [= <-] & ->). by exists pre, post.
    - split; [done|]. by intros (? & ? & ? & ? & _). }
  unfold first_pattern. split.
  - intros i p m Hi Hp Hearlier.
    assert (Hf : list_find (λ pm, message_includes error pm.1 = true) ERROR_PATTERNS
                 = Some (i, (p, m))).
    { apply list_find_Some. split; [done|]. split; [by apply Hocc|].
      intros j [q n] Hj Hlt Hq. apply Hocc in Hq as (raw & pre & post & Hr & ->).
      by eapply (Hearlier j q n Hlt Hj _ pre post Hr). }
    by rewrite Hf.
  - intros Hnone.
    destruct (list_find _ ERROR_PATTERNS) as [[j [q n]]|] eqn:E; [|done].
    apply list_find_Some in E as (Hj & Hq & _).
    apply Hocc in Hq as (raw & pre & post & Hr & ->).
    by destruct (Hnone j q n Hj _ pre post Hr).
Qed.

End ErrorHandling.

(** Apart from the inherited names, [getFriendlyErrorMessage] is the chain
    of the specification.  For an error whose code and message name no member
    of [Object.prototype] the answer is one of the fixed friendly texts: the
    entry of the code table when the code is a key of it; otherwise the entry
    of the message table when the message is a key of it; otherwise the text
    of the first pattern, in the order of the source, that occurs in the
    message as a substring; otherwise the generic text. *)
Lemma friendly_message_from_tables {DB} (error : ApiError) (w : World DB) :
  (∀ k, code error = Some k ∨ message error = Some k → k ∉ Object_prototype) →
  let friendly := (getFriendlyErrorMessage error w).1 in
  (∃ m, friendly = Text m ∧ m ∈ friendlyMessages)
  ∧ (∀ c m, code error = Some c → DB_ERROR_MESSAGES !! c = Some m → friendly = Text m)
  ∧ ((∀ c, code error = Some c → DB_ERROR_MESSAGES !! c = None) →
     ∀ k m, message error = Some k → SUPABASE_ERROR_MESSAGES !! k = Some m →
            friendly = Text m)
  ∧ ((∀ c, code error = Some c → DB_ERROR_MESSAGES !! c = None) →
     (∀ k, message error = Some k → SUPABASE_ERROR_MESSAGES !! k = None) →
     friendly = Text (first_pattern error)).
Proof.
  intros Hown friendly.
  pose proof friendly_nonempty as Hne. unfold friendlyMessages in Hne.
  rewrite !Forall_app in Hne. destruct Hne as (Hdb & Hsb & _).
  assert (Hcode : (∀ c, code error = Some c → DB_ERROR_MESSAGES !! c = None) →
                  lookup_truthy DB_ERROR_MESSAGES (code error) = None).
  { intros Hno. apply lookup_truthy_None. intros k Hk. split; [by apply Hno|].
    apply Hown. by left. }
  assert (Hmsg : (∀ k, message error = Some k → SUPABASE_ERROR_MESSAGES !! k = None) →
                 lookup_truthy SUPABASE_ERROR_MESSAGES (message error) = None).
  { intros Hno. apply lookup_truthy_None. intros k Hk. split; [by apply Hno|].
    apply Hown. by right. }
  split.
  - destruct (getFriendlyErrorMessage_friendly error w) as [?|(k & _ & Hin & Hk)]; [done|].
    by destruct (Hown k Hk).
  - subst friendly. rewrite getFriendlyErrorMessage_eq. cbn [fst].
    split; [|split].
    + intros c m -> Hl. unfold DB_ERROR_MESSAGES in *.
      by rewrite (lookup_truthy_found DB_ERROR_MESSAGES_props c m).
    + intros Hno k m -> Hl. rewrite (Hcode Hno). unfold SUPABASE_ERROR_MESSAGES in *.
      by rewrite (lookup_truthy_found SUPABASE_ERROR_MESSAGES_props k m).
    + intros Hno1 Hno2. by rewrite (Hcode Hno1), (Hmsg Hno2).
Qed.


(** An error of the database with a code of the table, as the unique index
    of the votes raises it. *)
Example friendly_message_unique_violation :
  let error := {| message := Some "duplicate key value violates unique constraint";
                  code := Some "23505"; details := None; hint := None; stack := None |} in
  let w : World unit := mkWorld ∅ ∅ 0 tt [] [] [] in
  (getFriendlyErrorMessage error w).1 = "This action has already been completed.".
Proof. vm_compute. reflexivity. Qed.

(** ** Sanitization and validation *)

Section Validation.

Lemma trimEnd_cons c s :
  Js.isWhiteSpace c = false → Js.trimEnd (String c s) = String c (Js.trimEnd s).
Proof. intros Hc. simpl. rewrite Hc. by destruct (Js.trimEnd s). Qed.

Lemma trimEnd_step c s :
  Js.trimEnd (String c s) =
  match Js.trimEnd s with
  | EmptyString => if Js.isWhiteSpace c then EmptyString else String c EmptyString
  | t => String c t
  end.
Proof. reflexivity. Qed.

Lemma trimEnd_idem s : Js.trimEnd (Js.trimEnd s) = Js.trimEnd s.
Proof.
  induction s as [|c s IH]; [done|]. rewrite trimEnd_step.
  destruct (Js.trimEnd s) as [|c' t] eqn:E.
  - destruct (Js.isWhiteSpace c) eqn:Hc; [done|].
    rewrite trimEnd_step. simpl. by rewrite Hc.
  - rewrite trimEnd_step, IH. reflexivity.
Qed.

Lemma trimStart_head s :
  Js.trimStart s = "" ∨ ∃ c t, Js.trimStart s = String c t ∧ Js.isWhiteSpace c = false.
Proof.
  induction s as [|c s IH]; [by left|]. simpl.
  destruct (Js.isWhiteSpace c) eqn:Hc; [done|]. right. eauto.
Qed.

Lemma trim_idem s : Js.trim (Js.trim s) = Js.trim s.
Proof.
  unfold Js.trim. destruct (trimStart_head s) as [-> | (c & t & -> & Hc)]; [done|].
  rewrite (trimEnd_cons c t Hc). simpl Js.trimStart. rewrite Hc.
  rewrite <- (trimEnd_cons c t Hc). apply trimEnd_idem.
Qed.

Lemma sanitizeText_trimmed v : Js.trim (sanitizeText v) = sanitizeText v.
Proof. destruct v; try done. apply trim_idem. Qed.

(** The size of the set of a list tells whether the list repeats itself. *)
Lemma size_list_to_set_le (l : list string) :
  (size (list_to_set l : gset string) ≤ length l)%nat.
Proof.
  induction l as [|x l IH]; [done|].
  rewrite list_to_set_cons, size_union_alt, size_singleton. simpl.
  assert (size (list_to_set l ∖ {[x]} : gset string) ≤ size (list_to_set l : gset string))%nat
    by (apply subseteq_size, subseteq_difference_l; reflexivity).
  lia.
Qed.

Lemma size_list_to_set_NoDup (l : list string) :
  size (list_to_set l : gset string) = length l ↔ NoDup l.
Proof.
  split; [|apply size_list_to_set].
  induction l as [|x l IH]; intros Hs; [constructor|].
  assert (Hx : x ∉ l).
  { intros Hx. pose proof (size_list_to_set_le l).
    assert (E : list_to_set (x :: l) = (list_to_set l : gset string)).
    { rewrite list_to_set_cons. apply subseteq_union_1_L, singleton_subseteq_l.
      by apply elem_of_list_to_set. }
    rewrite E in Hs. simpl in Hs. lia. }
  constructor; [done|]. apply IH.
  rewrite list_to_set_cons, size_union, size_singleton in Hs
    by (apply disjoint_singleton_l; by rewrite elem_of_list_to_set).
  simpl in Hs. lia.
Qed.

Lemma parse_question p q :
  Zod.parseString pollQuestionSchema p q
  = ((λ m, {| Zod.path := p; Zod.issue_message := m |}) <$> question_issues q, Js.trim q).
Proof.
  unfold pollQuestionSchema, question_issues. simpl.
  repeat case_match; reflexivity.
Qed.

Lemma parse_option p o :
  Zod.parseString (Zod.element pollOptionsSchema) p o
  = ((λ m, {| Zod.path := p; Zod.issue_message := m |}) <$> option_issues o, Js.trim o).
Proof.
  unfold pollOptionsSchema, option_issues. simpl.
  repeat case_match; reflexivity.
Qed.

Lemma parse_options p i os :
  ∃ issues, Zod.parseElements (Zod.element pollOptionsSchema) p i os = (issues, Js.trim <$> os)
            ∧ Zod.issue_message <$> issues = os ≫= option_issues.
Proof.
  revert i. induction os as [|o os IH]; intros i.
  - by exists [].
  - destruct (IH (S i)) as (issues & E & Hm).
    change (Zod.parseElements (Zod.element pollOptionsSchema) p i (o :: os))
      with (let (issues, out) :=
              Zod.parseString (Zod.element pollOptionsSchema) (p ++ [Zod.Index i]) o in
            let (issues', outs) :=
              Zod.parseElements (Zod.element pollOptionsSchema) p (S i) os in
            (issues ++ issues', out :: outs)).
    rewrite parse_option, E. eexists. split; [reflexivity|].
    rewrite fmap_app, Hm, <- list_fmap_compose.
    change (os ≫= option_issues) with (mbind option_issues os).
    change ((o :: os) ≫= option_issues) with (option_issues o ++ mbind option_issues os).
    f_equal. by rewrite <- (list_fmap_id (option_issues o)) at 2.
Qed.

Lemma safeParse_messages q os :
  match Zod.safeParse createPollSchema q os with
  | Zod.success q' os' => all_messages q os = [] ∧ q' = Js.trim q ∧ os' = Js.trim <$> os
  | Zod.failure e es => Zod.issue_message e :: (Zod.issue_message <$> es) = all_messages q os
  end.
Proof.
  unfold Zod.safeParse, createPollSchema. simpl Zod.question. simpl Zod.options.
  rewrite parse_question.
  unfold Zod.parseRefined, Zod.parseArray.
  destruct (parse_options [Zod.Key "options"] 0 os) as (issues & -> & Hm).
  simpl Zod.minLength. simpl Zod.maxLength. simpl Zod.refinement.
  simpl Zod.refinement_message. cbn [fst snd].
  set (iq := question_issues q).
  set (small := if Z.of_nat (length os) <? 2 then _ else _).
  set (big := if Z.of_nat (length os) >? 10 then _ else _).
  set (uniq := if bool_decide _ then _ else _).
  set (f := λ p m, {| Zod.path := p; Zod.issue_message := m |}).
  assert (Hall : Zod.issue_message <$>
            ((f [Zod.Key "question"] <$> iq) ++ (small ++ big ++ issues) ++ uniq)
          = iq ++ (Zod.issue_message <$> small) ++ (Zod.issue_message <$> big)
               ++ (Zod.issue_message <$> issues) ++ (Zod.issue_message <$> uniq)).
  { rewrite !fmap_app, <- list_fmap_compose. simpl.
    rewrite list_fmap_id, <- !app_assoc. reflexivity. }
  assert (Hsmall : Zod.issue_message <$> small
            = if Z.of_nat (length os) <? 2 then ["At least 2 options are required"] else [])
    by (subst small; by destruct (_ <? _)).
  assert (Hbig : Zod.issue_message <$> big
            = if Z.of_nat (length os) >? 10 then ["Maximum 10 options allowed"] else [])
    by (subst big; by destruct (_ >? _)).
  assert (Huniq : Zod.issue_message <$> uniq
            = if bool_decide (size (list_to_set (Js.toLowerCase <$> (Js.trim <$> os)) : gset string)
                              = length (Js.trim <$> os))
              then [] else ["Options must be unique (case-insensitive)"])
    by (subst uniq; by destruct (bool_decide _)).
  rewrite Hsmall, Hbig, Huniq, Hm in Hall. clear Hsmall Hbig Huniq.
  match goal with
  | |- match (match ?l with _ => _ end) with _ => _ end =>
      change (Zod.issue_message <$> l = all_messages q os) in Hall; destruct l
  end.
  - by rewrite <- Hall.
  - exact Hall.
Qed.

Lemma head_app_l {A} (l1 l2 : list A) x : head l1 = Some x → head (l1 ++ l2) = Some x.
Proof. by destruct l1. Qed.

Lemma option_issues_rule o :
  Js.trim o = o →
  head (option_issues o) = option_rule o.
Proof.
  intros Ht. unfold option_issues, option_rule. rewrite Ht.
  destruct (_ <? 1) eqn:E1; [done|].
  destruct (_ <? 2) eqn:E2; [done|].
  by destruct (_ >? 200) eqn:E3.
Qed.

Lemma option_issues_nil o : head (option_issues o) = None → option_issues o = [].
Proof. by destruct (option_issues o). Qed.

Lemma options_issues_rule os :
  Forall (λ o, Js.trim o = o) os →
  head (os ≫= option_issues) = first_option_rule os.
Proof.
  induction 1 as [|o os Ho _ IH]; [done|]. simpl.
  rewrite <- (option_issues_rule o Ho).
  destruct (head (option_issues o)) eqn:E.
  - by apply head_app_l.
  - apply option_issues_nil in E. by rewrite E.
Qed.

Lemma first_option_rule_None os :
  first_option_rule os = None ↔ Forall (λ o, 2 <= Js.length (Js.trim o) <= 200) os.
Proof.
  induction os as [|o os IH]; simpl; [by split; [constructor|]|].
  rewrite Forall_cons, <- IH. unfold option_rule.
  destruct (_ <? 1) eqn:E1; [arith_hyps; split; [done | intros [? _]; lia]|].
  destruct (_ <? 2) eqn:E2; [arith_hyps; split; [done | intros [? _]; lia]|].
  destruct (_ >? 200) eqn:E3; [arith_hyps; split; [done | intros [? _]; lia]|].
  arith_hyps. split; [intros ?; split; [lia | done] | by intros [_ ?]].
Qed.

(** The first message raised by the schema is the one the rules of the
    specification give when tried in order, on trimmed input. *)
Lemma all_messages_fail_fast q os :
  Forall (λ o, Js.trim o = o) os →
  head (all_messages q os) = validate_fail_fast q os.
Proof.
  intros Hos. unfold all_messages, validate_fail_fast, question_issues.
  destruct (Js.length q <? 1) eqn:E1; [done|].
  destruct (Js.length q <? 10) eqn:E2; [done|].
  destruct (Js.length q >? 500) eqn:E3; [done|].
  destruct (Z.of_nat (length os) <? 2) eqn:E4; [done|].
  destruct (Z.of_nat (length os) >? 10) eqn:E5; [done|].
  simpl. rewrite <- (options_issues_rule os Hos).
  destruct (head (os ≫= option_issues)) eqn:E6.
  - by apply head_app_l.
  - assert (os ≫= option_issues = []) as -> by by destruct (os ≫= option_issues).
    rewrite app_nil_l.
    destruct (bool_decide (NoDup _)) eqn:Hd.
    + apply bool_decide_eq_true in Hd.
      rewrite bool_decide_eq_true_2; [done|].
      rewrite <- (length_fmap Js.toLowerCase (Js.trim <$> os)).
      by apply size_list_to_set.
    + apply bool_decide_eq_false in Hd.
      rewrite bool_decide_eq_false_2; [done|].
      intros Hs. apply Hd. apply size_list_to_set_NoDup.
      by rewrite Hs, !length_fmap.
Qed.

Lemma validate_fail_fast_None q os :
  validate_fail_fast q os = None ↔ valid_poll q os.
Proof.
  unfold validate_fail_fast, valid_poll.
  destruct (Js.length q <? 1) eqn:E1; [arith_hyps; split; [done | lia]|].
  destruct (Js.length q <? 10) eqn:E2; [arith_hyps; split; [done | lia]|].
  destruct (Js.length q >? 500) eqn:E3; [arith_hyps; split; [done | lia]|].
  destruct (Z.of_nat (length os) <? 2) eqn:E4; [arith_hyps; split; [done | lia]|].
  destruct (Z.of_nat (length os) >? 10) eqn:E5; [arith_hyps; split; [done | lia]|].
  arith_hyps.
  pose proof (first_option_rule_None os) as Hr.
  destruct (first_option_rule os) as [m|].
  { split; [done|]. intros (_ & _ & HF & _). by apply Hr in HF. }
  case_bool_decide as Hd.
  - split; [|done]. intros _. repeat split; try lia; [by apply Hr | done].
  - split; [done|]. by intros (_ & _ & _ & ?).
Qed.

End Validation.

(** C5.  On sanitized input the schema accepts exactly the polls whose
    question has 10 to 500 characters and whose options are 2 to 10 texts of
    2 to 200 characters each after trimming, pairwise distinct ignoring case,
    and hands them on unchanged; a list with a case-insensitive duplicate is
    rejected; a rejection carries the message of the first failing rule, and
    that message alone is what [createPoll] and [updatePoll] return. *)
Theorem poll_validation (q0 : JsValue) (os0 : list JsValue) :
  let question := sanitizeText q0 in
  let options := sanitizeText <$> os0 in
  let result := Zod.safeParse createPollSchema question options in
  (result = Zod.success question options ↔ valid_poll question options)
  ∧ (¬ valid_poll question options → ∃ e es, result = Zod.failure e es)
  ∧ (¬ NoDup (Js.toLowerCase <$> (Js.trim <$> options)) → ∃ e es, result = Zod.failure e es)
  ∧ (∀ e es, result = Zod.failure e es →
       validate_fail_fast question options = Some (Zod.issue_message e))
  ∧ (∀ DB (backend : Supabase DB) (w : World DB) formData pollId e es,
       q0 = formData_get "question" formData →
       os0 = filter (λ v, Boolean v) (formData_getAll "options" formData) →
       result = Zod.failure e es →
       (ok (rateLimitCheck "createPoll" w).1 = true →
        (createPoll formData w).1 = {| ok := false; error := Some (Zod.issue_message e) |})
       ∧ (ok (rateLimitCheck "updatePoll" w).1 = true →
          (updatePoll pollId formData w).1
          = {| ok := false; error := Some (Zod.issue_message e) |})).
Proof.
  intros question options result.
  assert (Hq : Js.trim question = question) by apply sanitizeText_trimmed.
  assert (Hos : Forall (λ o, Js.trim o = o) options).
  { subst options. apply Forall_fmap, Forall_forall. intros v _. apply sanitizeText_trimmed. }
  assert (Hos' : Js.trim <$> options = options).
  { clear -Hos. induction Hos as [|o os Ho _ IH]; [done|].
    rewrite fmap_cons. by rewrite Ho, IH. }
  pose proof (safeParse_messages question options) as Hm. fold result in Hm.
  pose proof (all_messages_fail_fast question options Hos) as Hff.
  pose proof (validate_fail_fast_None question options) as Hv.
  assert (Hfail : ∀ e es, result = Zod.failure e es →
            validate_fail_fast question options = Some (Zod.issue_message e)).
  { intros e es E. rewrite E in Hm. by rewrite <- Hff, <- Hm. }
  assert (Hacc : result = Zod.success question options ↔ valid_poll question options).
  { rewrite <- Hv. destruct result as [q' os'|e es] eqn:E.
    - destruct Hm as (Hnil & -> & ->). rewrite Hq, Hos'. rewrite <- Hff, Hnil. done.
    - rewrite (Hfail e es eq_refl). done. }
  assert (Hrej : ¬ valid_poll question options → ∃ e es, result = Zod.failure e es).
  { intros Hn. destruct result as [q' os'|e es] eqn:E; [|eauto].
    destruct Hm as (Hnil & -> & ->). rewrite Hq, Hos' in Hacc.
    exfalso. by apply Hn, Hacc. }
  split; [exact Hacc|]. split; [exact Hrej|]. split; [|split; [exact Hfail|]].
  - intros Hdup. apply Hrej. by intros (_ & _ & _ & ?).
  - intros DB backend w formData pollId e es -> -> E. split; intros Hok.
    + unfold createPoll, bind.
      destruct (rateLimitCheck "createPoll" w) as [r w1]. simpl in Hok. rewrite Hok. simpl.
      fold question options result. by rewrite E.
    + unfold updatePoll, bind.
      destruct (rateLimitCheck "updatePoll" w) as [r w1]. simpl in Hok. rewrite Hok. simpl.
      change updatePollSchema with createPollSchema.
      fold question options result. by rewrite E.
Qed.

Lemma poll_validation_witness :
  Zod.safeParse createPollSchema
    (sanitizeText (JsStr "What is your favorite color?"))
    (sanitizeText <$> [JsStr "Red"; JsStr "Blue"])
  = Zod.success "What is your favorite color?" ["Red"; "Blue"]
  ∧ ∃ e es, Zod.safeParse createPollSchema
              (sanitizeText (JsStr "What is your favorite color?"))
              (sanitizeText <$> [JsStr "Red"; JsStr " red"; JsStr "Blue"])
            = Zod.failure e es.
Proof.
  split.
  - apply (proj1 (poll_validation (JsStr "What is your favorite color?")
                    [JsStr "Red"; JsStr "Blue"])).
    unfold valid_poll. apply (bool_decide_unpack _). vm_compute. reflexivity.
  - apply (proj1 (proj2 (proj2 (poll_validation (JsStr "What is your favorite color?")
                                  [JsStr "Red"; JsStr " red"; JsStr "Blue"])))).
    apply (bool_decide_unpack _). vm_compute. reflexivity.
Defined.

(** ** The server actions *)

Section ActionLemmas.

Context `{Supabase DB}.
Implicit Types (w : World DB).

Lemma rateLimitCheck_spec action w :
  ∃ store r,
    rateLimitCheck action w = (r, set_rateLimitStore store w)
    ∧ (r = granted ∨ r = rateLimited).
Proof.
  unfold rateLimitCheck, bind. rewrite checkRateLimit_eq. cbn zeta.
  assert (Hw : w = set_rateLimitStore (rateLimitStore w) w) by by destruct w.
  destruct (rateLimitStore w !! _) as [e|]; [|eexists _, _; split; [reflexivity | by left]].
  destruct (clock w >? resetTime e); [eexists _, _; split; [reflexivity | by left]|].
  destruct (count e >=? defaultMaxRequests).
  - exists (rateLimitStore w), rateLimited. split; [|by right].
    unfold ret. simpl. by rewrite <- Hw.
  - eexists _, _; split; [reflexivity | by left].
Qed.

(** The friendly message costs one line on the console and nothing else. *)
Lemma getFriendlyErrorMessage_world (error : ApiError) w :
  let w' := (getFriendlyErrorMessage error w).2 in
  db w' = db w ∧ wire w' = wire w ∧ revalidated w' = revalidated w.
Proof. by rewrite getFriendlyErrorMessage_eq. Qed.

End ActionLemmas.

(** Take the next step of an action: name what the rate limiter or the
    backend answers and go on with the continuation. *)
Ltac action_step :=
  unfold bind, auth_getUser, from, revalidatePath, ret; cbn [db wire fst snd set_rateLimitStore];
  match goal with
  | |- context [rateLimitCheck ?a ?w] =>
      let s := fresh "store" in let r := fresh "rl" in
      let E := fresh "Erl" in let Hr := fresh "Hrl" in
      destruct (rateLimitCheck_spec a w) as (s & r & E & Hr); rewrite E;
      cbn [db wire fst snd set_rateLimitStore]
  | |- context [backend_getUser ?d] =>
      let r := fresh "ur" in let d' := fresh "d" in let E := fresh "Eu" in
      destruct (backend_getUser d) as [r d'] eqn:E
  | |- context [backend_execute ?t ?q ?d] =>
      let r := fresh "pr" in let d' := fresh "d" in let E := fresh "Eq" in
      destruct (backend_execute t q d) as [r d'] eqn:E
  | |- context [getFriendlyErrorMessage ?e ?w] =>
      rewrite (getFriendlyErrorMessage_eq e w)
  end;
  cbn [db wire fst snd set_rateLimitStore].

Lemma wire_last (l earlier ys : list Exchange) (x : Exchange) :
  l ++ ys = l ++ earlier ++ [x] → last ys = Some x.
Proof. intros ->%app_inv_head. apply last_snoc. Qed.

Lemma wire_last_nil (l earlier : list Exchange) (x : Exchange) :
  l = l ++ earlier ++ [x] → False.
Proof.
  intros E. rewrite <- (app_nil_r l) in E at 1.
  apply wire_last in E. discriminate.
Qed.

(** The exchange the hypothesis [E] names as the last one of the call. *)
Ltac last_exchange E :=
  cbn; rewrite <- ?app_assoc; intros E; apply wire_last in E; cbn in E; simplify_eq.

(** C2.  Whenever [submitVote] gets as far as the insert into [votes], the
    answer of the store decides the result: a unique-violation (code 23505)
    becomes "You have already voted on this poll.", any other error is a
    failure, and success of the insert is success of the vote. *)
Theorem submitVote_insert_outcome `{Supabase DB} (w : World DB)
    (pollId : string) (optionIndex : JsValue) (voteSignature : option string) :
  let result := (submitVote pollId optionIndex voteSignature w).1 in
  let w' := (submitVote pollId optionIndex voteSignature w).2 in
  ∀ earlier rows response,
    wire w' = wire w ++ earlier ++ [From "votes" (insert rows) response] →
    (∀ e, data_error response = Some e → code e = Some "23505" →
       result = {| ok := false; error := Some "You have already voted on this poll." |})
    ∧ (∀ e, data_error response = Some e → ok result = false)
    ∧ (data_error response = None → result = {| ok := true; error := None |}).
Proof.
  intros result w' earlier rows response. subst result w'.
  unfold submitVote.
  action_step. destruct Hrl as [-> | ->]; cbn [ok negb granted rateLimited].
  2: { intros E. by apply wire_last_nil in E. }
  action_step. action_step.
  destruct (bool_decide (is_Some (data_error pr)) || bool_decide (data pr = null)).
  { by last_exchange E. }
  destruct (negb (is_number optionIndex) || lt_zero optionIndex).
  { by last_exchange E. }
  destruct (Js.truthy voteSignature) as [sig|].
  2: { by last_exchange E. }
  action_step.
  destruct (data_error pr0) as [e|] eqn:Ee.
  - case_bool_decide as Hc.
    + last_exchange E. repeat split; intros; try done; congruence.
    + rewrite getFriendlyErrorMessage_eq. last_exchange E.
      repeat split; intros; try done; congruence.
  - last_exchange E. repeat split; intros; try done; congruence.
Qed.

(** The second vote of the end-to-end run: the store holds a vote with
    [sig1] on the poll, the same signature votes again and is told so. *)
Lemma submitVote_insert_outcome_witness :
  let voted := database anonymous [colors]
    [ {| Pg.vote_id := "id-1"; Pg.vote_poll_id := "id-0"; Pg.vote_user_id := None;
         Pg.vote_option_index := 0; Pg.vote_signature := Some sig1;
         Pg.vote_created_at := 1 |} ] 2 in
  (submitVote "id-0" (JsNum 1) (Some sig1) (request voted)).1
  = {| ok := false; error := Some "You have already voted on this poll." |}.
Proof.
  intros voted.
  refine (proj1 (submitVote_insert_outcome (request voted) "id-0" (JsNum 1) (Some sig1)
                   [_; _] _ _ _) (Pg.pg_error "23505" _) _ _).
  - vm_compute. reflexivity.
  - reflexivity.
  - reflexivity.
Defined.

(** ** The relational backend *)

Section Relational.

Lemma filter_none {A} (P : A → Prop) `{∀ x, Decision (P x)} (l : list A) :
  Forall (λ x, ¬ P x) l → filter P l = [].
Proof.
  induction 1 as [|x l Hx _ IH]; [done|]. by rewrite filter_cons_False.
Qed.

Lemma filter_all {A} (P : A → Prop) `{∀ x, Decision (P x)} (l : list A) :
  Forall P l → filter P l = l.
Proof.
  induction 1 as [|x l Hx _ IH]; [done|]. rewrite filter_cons_True by done. by f_equal.
Qed.

(** The double filter of the owner-scoped queries selects the polls with
    that id and that owner. *)
Lemma matches_id_owner (p : Pg.PollRow) (id_ uid : string) :
  Pg.matches [eq_ "id" (JString id_); eq_ "user_id" (JString uid)] (Pg.poll_json p) = true
  ↔ Pg.poll_id p = id_ ∧ Pg.poll_user_id p = uid.
Proof.
  unfold Pg.matches. cbn [forallb Pg.satisfies].
  change (row_get "id" (Pg.poll_json p)) with (Some (JString (Pg.poll_id p))).
  change (row_get "user_id" (Pg.poll_json p)) with (Some (JString (Pg.poll_user_id p))).
  rewrite !andb_true_iff, !bool_decide_eq_true, !negb_true_iff, !bool_decide_eq_false.
  split.
  - intros [[? _] [[? _] _]]. by simplify_eq.
  - intros [-> ->]. repeat split; done.
Qed.

Lemma no_poll_targeted (st : Pg.State) (id_ uid : string) :
  (∀ p, p ∈ Pg.poll_table st → Pg.poll_id p = id_ → Pg.poll_user_id p ≠ uid) →
  Forall (λ p, ¬ Pg.targeted st
                   [eq_ "id" (JString id_); eq_ "user_id" (JString uid)] p)
         (Pg.poll_table st).
Proof.
  intros Hno. apply Forall_forall. intros p Hp Ht.
  apply Is_true_true, andb_true_iff in Ht as [_ Hm].
  apply matches_id_owner in Hm as [Hid Hu]. by eapply Hno.
Qed.

(** Deleting by id and owner where no such poll exists removes nothing and
    returns no rows. *)
Lemma delete_polls_none (st : Pg.State) (id_ uid : string) :
  (∀ p, p ∈ Pg.poll_table st → Pg.poll_id p = id_ → Pg.poll_user_id p ≠ uid) →
  Pg.execute "polls" (delete [eq_ "id" (JString id_); eq_ "user_id" (JString uid)]) st
  = (Pg.succeeded (array []), st).
Proof.
  intros Hno. apply no_poll_targeted in Hno.
  unfold Pg.execute. cbn. unfold Pg.delete_polls. cbn.
  rewrite (filter_none _ _ Hno). cbn.
  rewrite filter_all.
  2: { apply Forall_forall. intros p Hp.
       eapply Forall_forall in Hno; [|done].
       destruct (Pg.targeted _ _ p); [by destruct Hno | done]. }
  rewrite filter_all.
  2: { apply Forall_forall. intros v _. apply not_elem_of_nil. }
  by destruct st.
Qed.

(** Reading one poll by id and owner where no such poll exists is the
    "no rows" error of [.single()]. *)
Lemma select_single_none (st : Pg.State) (id_ uid : string) :
  (∀ p, p ∈ Pg.poll_table st → Pg.poll_id p = id_ → Pg.poll_user_id p ≠ uid) →
  Pg.execute "polls"
    (select "*" [eq_ "id" (JString id_); eq_ "user_id" (JString uid)] None true) st
  = (Pg.failed "PGRST116" "JSON object requested, multiple (or no) rows returned", st).
Proof.
  intros Hno. unfold Pg.execute. cbn. unfold Pg.run_select. cbn.
  rewrite filter_none; [done|].
  apply Forall_fmap, Forall_forall. intros p Hp Hm.
  apply Is_true_true, matches_id_owner in Hm as [Hid Hu]. by eapply Hno.
Qed.

Lemma duplicate_signature_spec (st : Pg.State) (pollId s : string) :
  Pg.duplicate_signature st pollId (Some s) = true
  ↔ (pollId, s) ∈ omap vote_key (Pg.vote_table st).
Proof.
  cbn. rewrite bool_decide_eq_true, Exists_exists, list_elem_of_omap.
  unfold vote_key. split.
  - intros (v & Hv & Hp & Hs). exists v. split; [done|]. by rewrite Hs, <- Hp.
  - intros (v & Hv & E). exists v. split; [done|].
    destruct (Pg.vote_signature v); simplify_eq/=. done.
Qed.

Lemma omap_filter_sublist {A B} (f : A → option B) (P : A → Prop)
    `{∀ x, Decision (P x)} (l : list A) :
  omap f (filter P l) `sublist_of` omap f l.
Proof.
  induction l as [|x l IH]; [done|].
  rewrite filter_cons. destruct (decide (P x)); cbn.
  - destruct (f x); [by constructor | done].
  - destruct (f x); [by constructor | done].
Qed.

Lemma insert_vote_unique (r : Row) (st st' : Pg.State) :
  unique_signatures st → Pg.insert_vote r st = inr st' → unique_signatures st'.
Proof.
  unfold unique_signatures, Pg.insert_vote. intros Hu.
  repeat (case_match; try discriminate).
  all: intros [= <-]; cbn [Pg.vote_table]; rewrite omap_app; cbn.
  all: match goal with
       | Hd : Pg.duplicate_signature _ ?p ?sg = false |- _ =>
           destruct sg as [sg'|]; cbn; [|by rewrite app_nil_r];
           apply NoDup_app; split; [done|]; split; [|apply NoDup_singleton];
           intros k Hk ->%list_elem_of_singleton;
           apply duplicate_signature_spec in Hk; congruence
       end.
Qed.

Lemma insert_poll_votes (r : Row) (st st' : Pg.State) :
  Pg.insert_poll r st = inr st' → Pg.vote_table st' = Pg.vote_table st.
Proof.
  unfold Pg.insert_poll. repeat (case_match; try discriminate). by intros [= <-].
Qed.

Lemma insert_all_unique (ins : Row → Pg.State → ApiError + Pg.State) (rows : list Row) :
  (∀ r st st', unique_signatures st → ins r st = inr st' → unique_signatures st') →
  ∀ st st', unique_signatures st → Pg.insert_all ins rows st = inr st' →
            unique_signatures st'.
Proof.
  intros Hins. induction rows as [|r rows IH]; intros st st' Hu; cbn.
  - by intros [= <-].
  - destruct (ins r st) as [e|st1] eqn:E; [done|]. apply IH. by eapply Hins.
Qed.

(** Whatever is asked of the relational backend, it never comes to hold two
    votes with the same signature on the same poll. *)
Lemma execute_unique (table : string) (q : Query) (st : Pg.State) :
  unique_signatures st → unique_signatures (Pg.execute table q st).2.
Proof.
  intros Hu. unfold Pg.execute.
  case_bool_decide; [|case_bool_decide]; [| |done].
  - destruct q as [sel fs ord sg | rows | vals fs | fs]; cbn [snd]; [done| | |].
    + unfold Pg.run_insert.
      destruct (Pg.insert_all Pg.insert_poll rows st) as [e|st'] eqn:E; [done|]. cbn.
      eapply (insert_all_unique Pg.insert_poll rows); [|exact Hu|exact E].
      intros r s s' Hs Hi. unfold unique_signatures.
      by rewrite (insert_poll_votes r s s' Hi).
    + unfold Pg.update_polls. repeat case_match; done.
    + unfold Pg.delete_polls. case_match; [done|]. cbn.
      unfold unique_signatures. cbn [Pg.vote_table].
      refine (sublist_NoDup _ _ Hu _). apply omap_filter_sublist.
  - destruct q as [sel fs ord sg | rows | vals fs | fs]; cbn [snd]; [done| | |].
    + unfold Pg.run_insert.
      destruct (Pg.insert_all Pg.insert_vote rows st) as [e|st'] eqn:E; [done|]. cbn.
      eapply (insert_all_unique Pg.insert_vote rows); [|exact Hu|exact E].
      apply insert_vote_unique.
    + by case_match.
    + by case_match.
Qed.

End Relational.

(** ** Deleting a poll *)

(** [deletePoll] by a signed-in caller who owns no poll of that id: the
    rate limiter decides between its own refusal and the merged error, and
    the database is left as it was. *)
Lemma deletePoll_none (w : World Pg.State) (u : User) (id_ : string) :
  Pg.session (db w) = signedIn u →
  (∀ p, p ∈ Pg.poll_table (db w) → Pg.poll_id p = id_ → Pg.poll_user_id p ≠ id u) →
  (deletePoll id_ w).1
  = (if ok (rateLimitCheck "deletePoll" w).1 then notFoundOrForbidden else rateLimited)
  ∧ db (deletePoll id_ w).2 = db w.
Proof.
  intros Hs Hno.
  cut (∃ w', deletePoll id_ w
             = (if ok (rateLimitCheck "deletePoll" w).1
                then notFoundOrForbidden else rateLimited, w') ∧ db w' = db w).
  { by intros (w' & -> & ?). }
  unfold deletePoll, bind at 1.
  destruct (rateLimitCheck_spec "deletePoll" w) as (store & rl & Erl & Hrl). rewrite Erl.
  destruct Hrl as [-> | ->]; cbn [ok negb granted rateLimited fst]; [|by eexists].
  unfold bind, auth_getUser, from, ret. cbn [db set_rateLimitStore backend_getUser Pg.supabase].
  rewrite Hs. cbn [user user_error signedIn backend_execute Pg.supabase db].
  rewrite (delete_polls_none (db w) id_ (id u) Hno). by eexists.
Qed.

(** C6.  Zero affected rows is answered with the one merged error, whatever
    the backend; and on the relational backend a signed-in caller deleting a
    poll that exists but belongs to someone else gets exactly the result of
    deleting an id that does not exist, the database being untouched in both
    runs. *)
Theorem deletePoll_indistinguishable :
  (∀ DB (backend : Supabase DB) (w : World DB) id_ earlier filters response,
     wire (deletePoll id_ w).2 = wire w ++ earlier ++ [From "polls" (delete filters) response] →
     data_error response = None → no_rows (data response) = true →
     (deletePoll id_ w).1 = notFoundOrForbidden)
  ∧ (∀ (w : World Pg.State) (u : User) (id_other id_missing : string),
       Pg.session (db w) = signedIn u →
       (∃ p, p ∈ Pg.poll_table (db w) ∧ Pg.poll_id p = id_other) →
       (∀ p, p ∈ Pg.poll_table (db w) → Pg.poll_id p = id_other → Pg.poll_user_id p ≠ id u) →
       (∀ p, p ∈ Pg.poll_table (db w) → Pg.poll_id p ≠ id_missing) →
       (deletePoll id_other w).1 = (deletePoll id_missing w).1
       ∧ db (deletePoll id_other w).2 = db w
       ∧ db (deletePoll id_missing w).2 = db w
       ∧ (ok (rateLimitCheck "deletePoll" w).1 = true →
          (deletePoll id_other w).1 = notFoundOrForbidden
          ∧ (deletePoll id_missing w).1 = notFoundOrForbidden)).
Proof.
  split.
  - intros DB backend w id_ earlier filters response.
    unfold deletePoll.
    action_step. destruct Hrl as [-> | ->]; cbn [ok negb granted rateLimited].
    2: { intros E. by apply wire_last_nil in E. }
    action_step.
    destruct (user_error ur) as [e|].
    { action_step. by last_exchange E. }
    destruct (user ur) as [u|]; [|by last_exchange E].
    action_step.
    destruct (data_error pr) as [e|] eqn:Ee.
    { action_step. last_exchange E. congruence. }
    destruct (no_rows (data pr)) eqn:En.
    + by last_exchange E.
    + last_exchange E. congruence.
  - intros w u id_other id_missing Hs _ Hother Hmissing.
    destruct (deletePoll_none w u id_other Hs Hother) as [E1 D1].
    destruct (deletePoll_none w u id_missing Hs) as [E2 D2].
    { intros p Hp Hid. by apply Hmissing in Hp. }
    rewrite E1, E2. split; [done|]. split; [done|]. split; [done|].
    by intros ->.
Qed.

(** Bob asks to delete Alice's poll, and to delete a poll that was never
    created: the answers are the same merged error. *)
Lemma deletePoll_indistinguishable_witness :
  let w := request (database (signedIn bob) [colors] [] 1) in
  (deletePoll "id-0" w).1 = (deletePoll "id-7" w).1
  ∧ (deletePoll "id-0" w).1 = notFoundOrForbidden.
Proof.
  intros w.
  pose proof (proj2 deletePoll_indistinguishable w bob "id-0" "id-7") as Hd.
  destruct Hd as (Hsame & _ & _ & Hmerged).
  - reflexivity.
  - exists colors. split; [apply list_elem_of_singleton|]; reflexivity.
  - intros p ->%list_elem_of_singleton _. discriminate.
  - intros p ->%list_elem_of_singleton. discriminate.
  - split; [exact Hsame|]. apply Hmerged. vm_compute. reflexivity.
Defined.

(** ** Identity *)

Section Identity.

Context `{Supabase DB}.
Implicit Types (w : World DB).

Lemma mutations_app (l1 l2 : list Exchange) :
  mutations (l1 ++ l2) = mutations l1 ++ mutations l2.
Proof. apply filter_app. Qed.

Lemma refused_early w (r : ActionResult) w' :
  ok r = false → wire w' = wire w → refused_unmutated w (r, w').
Proof. intros Hr Hw. unfold refused_unmutated. cbn. rewrite Hw. auto. Qed.

Lemma refused_after_getUser w (r : ActionResult) w' :
  ok r = false → wire w' = wire w ++ [GetUser (backend_getUser (db w)).1] →
  refused_unmutated w (r, w').
Proof.
  intros Hr Hw. unfold refused_unmutated. cbn. rewrite Hw, mutations_app.
  split; [done|]. split; [|by right]. cbn. by rewrite app_nil_r.
Qed.

Lemma createPoll_no_user w formData :
  user (backend_getUser (db w)).1 = None →
  refused_unmutated w (createPoll formData w).
Proof.
  intros Hu. unfold createPoll.
  action_step. destruct Hrl as [-> | ->]; cbn [ok negb granted rateLimited].
  2: { by apply refused_early. }
  destruct (Zod.safeParse _ _ _); [|by apply refused_early].
  action_step. cbn in Hu.
  destruct (user_error ur).
  { action_step. apply refused_after_getUser; [done|]. by rewrite Eu. }
  rewrite Hu. apply refused_after_getUser; [done|]. by rewrite Eu.
Qed.

Lemma updatePoll_no_user w pollId formData :
  user (backend_getUser (db w)).1 = None →
  refused_unmutated w (updatePoll pollId formData w).
Proof.
  intros Hu. unfold updatePoll.
  action_step. destruct Hrl as [-> | ->]; cbn [ok negb granted rateLimited].
  2: { by apply refused_early. }
  destruct (Zod.safeParse _ _ _); [|by apply refused_early].
  action_step. cbn in Hu.
  destruct (user_error ur).
  { action_step. apply refused_after_getUser; [done|]. by rewrite Eu. }
  rewrite Hu. apply refused_after_getUser; [done|]. by rewrite Eu.
Qed.

Lemma deletePoll_no_user w pollId :
  user (backend_getUser (db w)).1 = None →
  refused_unmutated w (deletePoll pollId w).
Proof.
  intros Hu. unfold deletePoll.
  action_step. destruct Hrl as [-> | ->]; cbn [ok negb granted rateLimited].
  2: { by apply refused_early. }
  action_step. cbn in Hu.
  destruct (user_error ur).
  { action_step. apply refused_after_getUser; [done|]. by rewrite Eu. }
  rewrite Hu. apply refused_after_getUser; [done|]. by rewrite Eu.
Qed.

(** With the rate limiter passed (and the input valid, where there is
    input), a missing identity reported without error is answered with the
    authentication-required error. *)
Lemma createPoll_must_be_logged_in w formData q os :
  (backend_getUser (db w)).1 = anonymous →
  ok (rateLimitCheck "createPoll" w).1 = true →
  Zod.safeParse createPollSchema
    (sanitizeText (formData_get "question" formData))
    (sanitizeText <$> filter (λ v, Boolean v) (formData_getAll "options" formData))
  = Zod.success q os →
  (createPoll formData w).1 = {| ok := false; error := Some "You must be logged in" |}.
Proof.
  intros Hu Hok Hv. unfold createPoll. revert Hok.
  action_step. destruct Hrl as [-> | ->]; cbn [ok negb granted rateLimited]; [|done].
  intros _. rewrite Hv. action_step. cbn in Hu. by subst ur.
Qed.

Lemma updatePoll_must_be_logged_in w pollId formData q os :
  (backend_getUser (db w)).1 = anonymous →
  ok (rateLimitCheck "updatePoll" w).1 = true →
  Zod.safeParse updatePollSchema
    (sanitizeText (formData_get "question" formData))
    (sanitizeText <$> filter (λ v, Boolean v) (formData_getAll "options" formData))
  = Zod.success q os →
  (updatePoll pollId formData w).1 = {| ok := false; error := Some "You must be logged in" |}.
Proof.
  intros Hu Hok Hv. unfold updatePoll. revert Hok.
  action_step. destruct Hrl as [-> | ->]; cbn [ok negb granted rateLimited]; [|done].
  intros _. rewrite Hv. action_step. cbn in Hu. by subst ur.
Qed.

Lemma deletePoll_must_be_logged_in w pollId :
  (backend_getUser (db w)).1 = anonymous →
  ok (rateLimitCheck "deletePoll" w).1 = true →
  (deletePoll pollId w).1 = {| ok := false; error := Some "You must be logged in" |}.
Proof.
  intros Hu Hok. unfold deletePoll. revert Hok.
  action_step. destruct Hrl as [-> | ->]; cbn [ok negb granted rateLimited]; [|done].
  intros _. action_step. cbn in Hu. by subst ur.
Qed.

(** The friendly text of the error of a request without session is the
    generic one: the error has no code, its message is no key of the table
    and contains none of the patterns. *)
Lemma getFriendlyErrorMessage_session_missing w :
  (getFriendlyErrorMessage authSessionMissing w).1
  = Text "An unexpected error occurred. Please try again.".
Proof. rewrite getFriendlyErrorMessage_eq. vm_compute. reflexivity. Qed.

Lemma createPoll_session_missing w formData q os :
  (backend_getUser (db w)).1 = sessionMissing →
  ok (rateLimitCheck "createPoll" w).1 = true →
  Zod.safeParse createPollSchema
    (sanitizeText (formData_get "question" formData))
    (sanitizeText <$> filter (λ v, Boolean v) (formData_getAll "options" formData))
  = Zod.success q os →
  (createPoll formData w).1 = unexpectedError.
Proof.
  intros Hu Hok Hv. unfold createPoll. revert Hok.
  action_step. destruct Hrl as [-> | ->]; cbn [ok negb granted rateLimited]; [|done].
  intros _. rewrite Hv. action_step. cbn in Hu. subst ur.
  cbn [user_error sessionMissing].
  match goal with
  | |- context [getFriendlyErrorMessage authSessionMissing ?w0] =>
      pose proof (getFriendlyErrorMessage_session_missing w0) as Hf;
      destruct (getFriendlyErrorMessage authSessionMissing w0) as [m w1]
  end.
  cbn in Hf |- *. by subst m.
Qed.

Lemma updatePoll_session_missing w pollId formData q os :
  (backend_getUser (db w)).1 = sessionMissing →
  ok (rateLimitCheck "updatePoll" w).1 = true →
  Zod.safeParse updatePollSchema
    (sanitizeText (formData_get "question" formData))
    (sanitizeText <$> filter (λ v, Boolean v) (formData_getAll "options" formData))
  = Zod.success q os →
  (updatePoll pollId formData w).1 = unexpectedError.
Proof.
  intros Hu Hok Hv. unfold updatePoll. revert Hok.
  action_step. destruct Hrl as [-> | ->]; cbn [ok negb granted rateLimited]; [|done].
  intros _. rewrite Hv. action_step. cbn in Hu. subst ur.
  cbn [user_error sessionMissing].
  match goal with
  | |- context [getFriendlyErrorMessage authSessionMissing ?w0] =>
      pose proof (getFriendlyErrorMessage_session_missing w0) as Hf;
      destruct (getFriendlyErrorMessage authSessionMissing w0) as [m w1]
  end.
  cbn in Hf |- *. by subst m.
Qed.

Lemma deletePoll_session_missing w pollId :
  (backend_getUser (db w)).1 = sessionMissing →
  ok (rateLimitCheck "deletePoll" w).1 = true →
  (deletePoll pollId w).1 = unexpectedError.
Proof.
  intros Hu Hok. unfold deletePoll. revert Hok.
  action_step. destruct Hrl as [-> | ->]; cbn [ok negb granted rateLimited]; [|done].
  intros _. action_step. cbn in Hu. subst ur.
  cbn [user_error sessionMissing].
  match goal with
  | |- context [getFriendlyErrorMessage authSessionMissing ?w0] =>
      pose proof (getFriendlyErrorMessage_session_missing w0) as Hf;
      destruct (getFriendlyErrorMessage authSessionMissing w0) as [m w1]
  end.
  cbn in Hf |- *. by subst m.
Qed.

Lemma getPollById_session_missing w id_ :
  (backend_getUser (db w)).1 = sessionMissing →
  (getPollById id_ w).1
  = {| poll := null; poll_error := Some "Authentication required" |}.
Proof.
  intros Hu. unfold getPollById. action_step. cbn in Hu. by subst ur.
Qed.

(** A vote needs no identity: with no user, a granted request for an
    existing poll with a non-negative index and a signature goes on to
    insert a vote whose account reference is null. *)
Lemma submitVote_anonymous w pollId optionIndex voteSignature sig :
  user (backend_getUser (db w)).1 = None →
  ok (rateLimitCheck "submitVote" w).1 = true →
  (let found := (backend_execute "polls"
                   (select "id" [eq_ "id" (JString pollId)] None true)
                   (backend_getUser (db w)).2).1 in
   data_error found = None ∧ data found ≠ null) →
  is_number optionIndex = true → lt_zero optionIndex = false →
  Js.truthy voteSignature = Some sig →
  ∃ response,
    last (wire (submitVote pollId optionIndex voteSignature w).2)
    = Some (From "votes"
              (insert [ [ ("poll_id", JString pollId); ("user_id", JNull);
                          ("option_index", toJSON optionIndex);
                          ("signature", JString sig) ] ])
              response).
Proof.
  intros Hu Hok Hfound Hnum Hlt Hsig. unfold submitVote. revert Hok.
  action_step. destruct Hrl as [-> | ->]; cbn [ok negb granted rateLimited]; [|done].
  intros _. action_step. cbn in Hu, Hfound.
  action_step. cbn in Hfound. destruct Hfound as [He Hd].
  rewrite He, Hu, Hnum, Hlt, Hsig. cbn [negb orb].
  rewrite bool_decide_eq_false_2 by (by intros [? ?]).
  rewrite bool_decide_eq_false_2 by done. cbn [orb].
  action_step.
  destruct (data_error pr0) as [e|].
  - case_bool_decide.
    + eexists. cbn. by rewrite last_snoc.
    + action_step. eexists. cbn. by rewrite last_snoc.
  - eexists. cbn. by rewrite last_snoc.
Qed.

End Identity.

(** When the authentication service reports neither a user nor an error,
    [createPoll], [updatePoll] and [deletePoll] fail and send no mutation to
    the backend; the failure is "You must be logged in" when the request was
    granted by the rate limiter and its input (where there is one) passed
    validation. *)
Lemma owner_actions_no_user_no_error `{Supabase DB} (w : World DB)
    (pollId : string) (formData : FormData) :
  (backend_getUser (db w)).1 = anonymous →
  (refused_unmutated w (createPoll formData w)
   ∧ refused_unmutated w (updatePoll pollId formData w)
   ∧ refused_unmutated w (deletePoll pollId w))
  ∧ (∀ q os,
       ok (rateLimitCheck "createPoll" w).1 = true →
       Zod.safeParse createPollSchema
         (sanitizeText (formData_get "question" formData))
         (sanitizeText <$> filter (λ v, Boolean v) (formData_getAll "options" formData))
       = Zod.success q os →
       (createPoll formData w).1 = {| ok := false; error := Some "You must be logged in" |})
  ∧ (∀ q os,
       ok (rateLimitCheck "updatePoll" w).1 = true →
       Zod.safeParse updatePollSchema
         (sanitizeText (formData_get "question" formData))
         (sanitizeText <$> filter (λ v, Boolean v) (formData_getAll "options" formData))
       = Zod.success q os →
       (updatePoll pollId formData w).1
       = {| ok := false; error := Some "You must be logged in" |})
  ∧ (ok (rateLimitCheck "deletePoll" w).1 = true →
     (deletePoll pollId w).1 = {| ok := false; error := Some "You must be logged in" |}).
Proof.
  intros Ha.
  assert (Hu : user (backend_getUser (db w)).1 = None) by by rewrite Ha.
  split; [|split; [|split]].
  - split; [|split].
    + by apply createPoll_no_user.
    + by apply updatePoll_no_user.
    + by apply deletePoll_no_user.
  - intros q os. by apply createPoll_must_be_logged_in.
  - intros q os. by apply updatePoll_must_be_logged_in.
  - by apply deletePoll_must_be_logged_in.
Qed.

(** C7 fails on the code.  A request without session is answered by the
    authentication service with no user and the error "Auth session
    missing!".  [createPoll], [updatePoll] and [deletePoll] then fail and
    send no mutation to the backend, but not with an authentication-required
    error: granted by the rate limiter and the input (where there is one)
    valid, each returns the generic "An unexpected error occurred. Please try
    again.", where [getPollById] on the same request returns "Authentication
    required".  [submitVote] asks for no identity: on the same request it
    goes on to insert a vote whose account reference is null. *)
Theorem owner_actions_session_missing `{Supabase DB} (w : World DB)
    (pollId : string) (formData : FormData) :
  (backend_getUser (db w)).1 = sessionMissing →
  (refused_unmutated w (createPoll formData w)
   ∧ refused_unmutated w (updatePoll pollId formData w)
   ∧ refused_unmutated w (deletePoll pollId w))
  ∧ (∀ q os,
       ok (rateLimitCheck "createPoll" w).1 = true →
       Zod.safeParse createPollSchema
         (sanitizeText (formData_get "question" formData))
         (sanitizeText <$> filter (λ v, Boolean v) (formData_getAll "options" formData))
       = Zod.success q os →
       (createPoll formData w).1 = unexpectedError)
  ∧ (∀ q os,
       ok (rateLimitCheck "updatePoll" w).1 = true →
       Zod.safeParse updatePollSchema
         (sanitizeText (formData_get "question" formData))
         (sanitizeText <$> filter (λ v, Boolean v) (formData_getAll "options" formData))
       = Zod.success q os →
       (updatePoll pollId formData w).1 = unexpectedError)
  ∧ (ok (rateLimitCheck "deletePoll" w).1 = true →
     (deletePoll pollId w).1 = unexpectedError)
  ∧ error unexpectedError ≠ Some (Text "You must be logged in")
  ∧ (getPollById pollId w).1
    = {| poll := null; poll_error := Some "Authentication required" |}
  ∧ (∀ optionIndex voteSignature sig,
       ok (rateLimitCheck "submitVote" w).1 = true →
       (let found := (backend_execute "polls"
                        (select "id" [eq_ "id" (JString pollId)] None true)
                        (backend_getUser (db w)).2).1 in
        data_error found = None ∧ data found ≠ null) →
       is_number optionIndex = true → lt_zero optionIndex = false →
       Js.truthy voteSignature = Some sig →
       ∃ response,
         last (wire (submitVote pollId optionIndex voteSignature w).2)
         = Some (From "votes"
                   (insert [ [ ("poll_id", JString pollId); ("user_id", JNull);
                               ("option_index", toJSON optionIndex);
                               ("signature", JString sig) ] ])
                   response)).
Proof.
  intros Hs.
  assert (Hu : user (backend_getUser (db w)).1 = None) by by rewrite Hs.
  split; [|split; [|split; [|split; [|split; [|split]]]]].
  - split; [|split].
    + by apply createPoll_no_user.
    + by apply updatePoll_no_user.
    + by apply deletePoll_no_user.
  - intros q os. by apply createPoll_session_missing.
  - intros q os. by apply updatePoll_session_missing.
  - by apply deletePoll_session_missing.
  - discriminate.
  - by apply getPollById_session_missing.
  - intros optionIndex voteSignature sig. by apply submitVote_anonymous.
Qed.

(** A visitor without session posts a valid poll, asks to change one and to
    delete one: each time the answer is the generic error and nothing is
    sent to change the database; asked for the poll, the application answers
    "Authentication required". *)
Lemma owner_actions_session_missing_witness :
  let w := request (database sessionMissing [colors] [] 1) in
  (createPoll colorsForm w).1 = unexpectedError
  ∧ (updatePoll "id-0" colorsForm w).1 = unexpectedError
  ∧ (deletePoll "id-0" w).1 = unexpectedError
  ∧ mutations (wire (deletePoll "id-0" w).2) = []
  ∧ (getPollById "id-0" w).1
    = {| poll := null; poll_error := Some "Authentication required" |}.
Proof.
  intros w.
  assert (Hs : (backend_getUser (db w)).1 = sessionMissing) by reflexivity.
  destruct (owner_actions_session_missing w "id-0" colorsForm Hs)
    as ((_ & _ & (_ & Hm & _)) & Hc & Hup & Hd & _ & Hg & _).
  split; [|split; [|split; [|split]]].
  - apply (Hc "What is your favorite color?" ["Red"; "Blue"]); vm_compute; reflexivity.
  - apply (Hup "What is your favorite color?" ["Red"; "Blue"]); vm_compute; reflexivity.
  - apply Hd. vm_compute. reflexivity.
  - exact Hm.
  - exact Hg.
Defined.

(** Validation comes before identity: a visitor who posts an empty form is
    told about the question, whoever they are. *)
Example createPoll_validation_before_identity :
  let w := request (database sessionMissing [] [] 0) in
  user (backend_getUser (db w)).1 = None
  ∧ (createPoll [] w).1 = {| ok := false; error := Some "Question is required" |}.
Proof. split; vm_compute; reflexivity. Qed.

(** ** Reading a poll *)

(** C10.  [getPollById] is owner-scoped.  Without an identity (no user, or
    an error from identity resolution) it answers [{poll: null, error:
    "Authentication required"}] and asks the backend for no poll.  With an
    identity the one query it issues filters by the poll id and by the
    caller's id, an error of that query giving a null poll with an error
    text.  On the relational backend a caller who does not own the poll gets
    a null poll with "Requested resource not found.", also when the poll
    exists. *)
Theorem getPollById_owner_scoped :
  (∀ DB (backend : Supabase DB) (w : World DB) (id_ : string),
     let response := (backend_getUser (db w)).1 in
     (user response = None ∨ is_Some (user_error response) →
      (getPollById id_ w).1 = {| poll := null; poll_error := Some "Authentication required" |}
      ∧ wire (getPollById id_ w).2 = wire w ++ [GetUser response])
     ∧ (∀ u, user response = Some u → user_error response = None →
        ∃ answer,
          wire (getPollById id_ w).2
          = wire w ++ [ GetUser response;
                        From "polls"
                          (select "*" [eq_ "id" (JString id_); eq_ "user_id" (JString (id u))]
                                  None true)
                          answer ]
          ∧ (is_Some (data_error answer) →
             poll (getPollById id_ w).1 = null ∧ is_Some (poll_error (getPollById id_ w).1))
          ∧ (data_error answer = None →
             (getPollById id_ w).1 = {| poll := data answer; poll_error := None |})))
  ∧ (∀ (w : World Pg.State) (u : User) (id_ : string),
       Pg.session (db w) = signedIn u →
       (∀ p, p ∈ Pg.poll_table (db w) → Pg.poll_id p = id_ → Pg.poll_user_id p ≠ id u) →
       (getPollById id_ w).1
       = {| poll := null; poll_error := Some "Requested resource not found." |}).
Proof.
  split.
  - intros DB backend w id_ response. subst response. unfold getPollById.
    split.
    + action_step. intros Hno.
      destruct (user_error ur) as [e|]; [done|].
      destruct (user ur) as [u|]; [|done].
      destruct Hno as [? | [? ?]]; done.
    + action_step. intros u -> ->. action_step.
      exists pr. destruct (data_error pr) as [e|].
      * action_step. cbn. split; [by rewrite <- app_assoc|]. split; [by eauto|done].
      * cbn. split; [by rewrite <- app_assoc|]. split; [by intros [? ?]|done].
  - intros w u id_ Hs Hno. unfold getPollById, bind, auth_getUser, from, ret.
    cbn [db backend_getUser backend_execute Pg.supabase].
    rewrite Hs. cbn [user user_error signedIn db].
    rewrite (select_single_none (db w) id_ (id u) Hno).
    cbn [data_error Pg.failed]. rewrite getFriendlyErrorMessage_eq. reflexivity.
Qed.

(** Bob asks for Alice's poll; an anonymous visitor asks for it. *)
Lemma getPollById_owner_scoped_witness :
  (getPollById "id-0" (request (database (signedIn bob) [colors] [] 1))).1
  = {| poll := null; poll_error := Some "Requested resource not found." |}
  ∧ (getPollById "id-0" (request (database anonymous [colors] [] 1))).1
    = {| poll := null; poll_error := Some "Authentication required" |}.
Proof.
  split.
  - apply (proj2 getPollById_owner_scoped _ bob); [reflexivity|].
    intros p ->%list_elem_of_singleton _. discriminate.
  - apply (proj1 (proj1 getPollById_owner_scoped _ _
                    (request (database anonymous [colors] [] 1)) "id-0")).
    left. reflexivity.
Defined.

(** The owner reads her poll. *)
Example getPollById_owner :
  (getPollById "id-0" (request (database (signedIn alice) [colors] [] 1))).1
  = {| poll := object (Pg.poll_json colors); poll_error := None |}.
Proof. vm_compute. reflexivity. Qed.

(** ** Voting *)

Section Voting.

Context `{Supabase DB}.

(** The check on the option index looks at the sign only: for a granted
    request on a poll that was found, the vote is refused as an invalid
    option exactly when the index is not a number or is negative. *)
Lemma submitVote_index_check (w : World DB) pollId optionIndex voteSignature :
  ok (rateLimitCheck "submitVote" w).1 = true →
  (let found := (backend_execute "polls"
                   (select "id" [eq_ "id" (JString pollId)] None true)
                   (backend_getUser (db w)).2).1 in
   data_error found = None ∧ data found ≠ null) →
  is_Some (Js.truthy voteSignature) →
  (submitVote pollId optionIndex voteSignature w).1
  = {| ok := false; error := Some "Invalid option selected." |}
  ↔ (is_number optionIndex = false ∨ lt_zero optionIndex = true).
Proof.
  intros Hok Hfound [sig Hsig]. unfold submitVote. revert Hok.
  action_step. destruct Hrl as [-> | ->]; cbn [ok negb granted rateLimited]; [|done].
  intros _. action_step. cbn in Hfound.
  action_step. cbn in Hfound. destruct Hfound as [He Hd].
  rewrite He, Hsig.
  rewrite bool_decide_eq_false_2 by (by intros [? ?]).
  rewrite bool_decide_eq_false_2 by done. cbn [orb].
  destruct (is_number optionIndex), (lt_zero optionIndex); cbn [negb orb];
    try (split; [intros _; auto | done]).
  action_step.
  destruct (data_error pr0) as [e|].
  - case_bool_decide.
    + cbn. split; [done | by intros [?|?]].
    + match goal with
      | |- context [getFriendlyErrorMessage e ?w0] =>
          pose proof (getFriendlyErrorMessage_friendly e w0) as Hin;
          destruct (getFriendlyErrorMessage e w0) as [friendly w']
      end.
      cbn [fst] in Hin. split; [|by intros [?|?]].
      intros E. apply (f_equal error) in E. cbn [error] in E. apply (inj Some) in E.
      exfalso. destruct Hin as [(m & -> & Hin) | (k & -> & _)]; [|done].
      injection E as ->. by apply invalid_option_not_friendly.
  - cbn. split; [done | by intros [?|?]].
Qed.

End Voting.

(** C1 fails on the code.  The end-to-end run of the specification: on
    Alice's poll with the two options Red and Blue, on which one vote has
    been cast, a vote for option 5 under a fresh signature is accepted and
    stored, although the poll has no option 5. *)
Theorem submitVote_out_of_range_accepted :
  let voted := database anonymous [colors]
    [ {| Pg.vote_id := "id-1"; Pg.vote_poll_id := "id-0"; Pg.vote_user_id := None;
         Pg.vote_option_index := 0; Pg.vote_signature := Some sig1;
         Pg.vote_created_at := 1 |} ] 2 in
  let run := submitVote "id-0" (JsNum 5) (Some sig2) (request voted) in
  length (Pg.poll_options colors) = 2%nat
  ∧ run.1 = {| ok := true; error := None |}
  ∧ Pg.vote_table (db run.2)
    = Pg.vote_table voted ++
      [ {| Pg.vote_id := "id-2"; Pg.vote_poll_id := "id-0"; Pg.vote_user_id := None;
           Pg.vote_option_index := 5; Pg.vote_signature := Some sig2;
           Pg.vote_created_at := 2 |} ].
Proof. vm_compute. repeat split; reflexivity. Qed.

(** ** The end-to-end run of the specification *)

(** Alice creates the poll; a visitor votes for option 0; the same signature
    votes again and is refused as a duplicate; a vote for option 5 under
    another signature is accepted. *)
Example end_to_end :
  let visitor (st : Pg.State) :=
    request (database anonymous (Pg.poll_table st) (Pg.vote_table st) (Pg.serial st)) in
  let created := createPoll colorsForm (request (database (signedIn alice) [] [] 0)) in
  let first := submitVote "id-0" (JsNum 0) (Some sig1) (visitor (db created.2)) in
  let second := submitVote "id-0" (JsNum 1) (Some sig1) (visitor (db first.2)) in
  let third := submitVote "id-0" (JsNum 5) (Some sig2) (visitor (db second.2)) in
  created.1 = {| ok := true; error := None |}
  ∧ Pg.poll_table (db created.2) = [colors]
  ∧ first.1 = {| ok := true; error := None |}
  ∧ second.1 = {| ok := false; error := Some "You have already voted on this poll." |}
  ∧ third.1 = {| ok := true; error := None |}
  ∧ Pg.vote_option_index <$> Pg.vote_table (db third.2) = [0; 5]
  ∧ unique_signatures (db third.2).
Proof.
  vm_compute. repeat split; try reflexivity.
  apply (bool_decide_unpack _). vm_compute. reflexivity.
Qed.

(* ===================================================================== *)
(** * Part III: further properties of the code                             *)
(* ===================================================================== *)

(** ** The rate limiter, continued *)

Section RateLimiterMore.

Context {DB : Type}.
Implicit Types (w : World DB) (action : string).

(** The store after a call: the entry under the key is replaced or kept,
    every other entry is kept. *)
Lemma checkRateLimit_store w action windowMs maxRequests :
  ∃ e', rateLimitStore (checkRateLimit action windowMs maxRequests w).2 !! rateLimitKey w action
        = Some e'
        ∧ resetTime e' = result_resetTime (checkRateLimit action windowMs maxRequests w).1
        ∧ (allowed (checkRateLimit action windowMs maxRequests w).1 = true →
           remaining (checkRateLimit action windowMs maxRequests w).1 = maxRequests - count e')
        ∧ (count e' = 1
           ∨ ∃ e, rateLimitStore w !! rateLimitKey w action = Some e
                  ∧ clock w <= resetTime e ∧ resetTime e' = resetTime e
                  ∧ (count e' = count e ∧ count e >= maxRequests
                     ∨ count e' = count e + 1 ∧ count e < maxRequests)).
Proof.
  rewrite checkRateLimit_eq. cbn zeta.
  destruct (rateLimitStore w !! rateLimitKey w action) as [e|] eqn:Ek.
  - destruct (clock w >? resetTime e) eqn:E1.
    + eexists. cbn. rewrite lookup_insert_eq. split; [done|]. cbn. auto.
    + destruct (count e >=? maxRequests) eqn:E2; arith_hyps.
      * exists e. cbn. rewrite Ek. split; [done|]. split; [done|]. split; [done|].
        right. exists e. split; [done|]. split; [lia|]. split; [done|].
        left. split; [done | lia].
      * eexists. cbn. rewrite lookup_insert_eq. split; [done|]. cbn.
        split; [done|]. split; [done|]. right. exists e.
        split; [done|]. split; [lia|]. split; [done|]. right. split; [done | lia].
  - eexists. cbn. rewrite lookup_insert_eq. split; [done|]. cbn. auto.
Qed.

Lemma checkRateLimit_elsewhere w action windowMs maxRequests key :
  key ≠ rateLimitKey w action →
  rateLimitStore (checkRateLimit action windowMs maxRequests w).2 !! key
  = rateLimitStore w !! key.
Proof.
  intros Hne. pose proof (checkRateLimit_eq w action windowMs maxRequests) as E.
  cbv zeta in E. rewrite E.
  destruct (rateLimitStore w !! rateLimitKey w action) as [e|]; cbn.
  - destruct (clock w >? resetTime e); cbn; [by rewrite lookup_insert_ne|].
    destruct (count e >=? maxRequests); cbn; [done|]. by rewrite lookup_insert_ne.
  - by rewrite lookup_insert_ne.
Qed.

End RateLimiterMore.

(** X1.  A request counted under one key leaves the entry of every other key
    of the rate-limit map as it was. *)
Theorem checkRateLimit_other_keys {DB} (w : World DB) (action : string)
    (windowMs maxRequests : Z) (key : string) :
  key ≠ rateLimitKey w action →
  rateLimitStore (checkRateLimit action windowMs maxRequests w).2 !! key
  = rateLimitStore w !! key.
Proof.
  intros Hne. rewrite checkRateLimit_eq. cbn zeta.
  repeat case_match; cbn; rewrite ?lookup_insert_ne; done.
Qed.

Lemma checkRateLimit_other_keys_witness :
  let w : World unit :=
    mkWorld {[ "203.0.113.7:createPoll" := {| count := 20; resetTime := 5000 |} ]}
            {[ "x-real-ip" := "203.0.113.7" ]} 1000 tt [] [] [] in
  rateLimitStore (checkRateLimit "submitVote" 60000 20 w).2 !! "203.0.113.7:createPoll"
  = Some {| count := 20; resetTime := 5000 |}.
Proof.
  intros w.
  rewrite (checkRateLimit_other_keys w "submitVote" 60000 20 "203.0.113.7:createPoll").
  - reflexivity.
  - vm_compute. discriminate.
Defined.

Lemma split_at_first {A} (x : A) (a1 a2 b1 b2 : list A) :
  x ∉ a1 → x ∉ a2 → a1 ++ x :: b1 = a2 ++ x :: b2 → a1 = a2 ∧ b1 = b2.
Proof.
  revert a2. induction a1 as [|y a1 IH]; intros [|z a2] H1 H2 E; cbn in E.
  - by simplify_eq.
  - injection E as -> _. by apply not_elem_of_cons in H2 as [? _].
  - injection E as -> _. by apply not_elem_of_cons in H1 as [? _].
  - injection E as -> E.
    apply not_elem_of_cons in H1 as [_ H1]. apply not_elem_of_cons in H2 as [_ H2].
    destruct (IH a2 H1 H2 E) as [-> ->]. done.
Qed.

Lemma split_at_last {A} (x : A) (a1 a2 b1 b2 : list A) :
  x ∉ b1 → x ∉ b2 → a1 ++ x :: b1 = a2 ++ x :: b2 → a1 = a2 ∧ b1 = b2.
Proof.
  intros H1 H2 E. apply (f_equal reverse) in E.
  rewrite !reverse_app, !reverse_cons, <- !app_assoc in E. cbn in E.
  apply split_at_first in E as [E1 E2]; rewrite ?elem_of_reverse; try done.
  apply (inj reverse) in E1, E2. done.
Qed.

(** X2.  The key separates clients and actions whenever the action names
    hold no colon, as the names of the four limited actions do: equal keys
    mean the same client address and the same action, also for addresses
    that hold colons themselves. *)
Theorem rateLimitKey_injective {DB} (w1 w2 : World DB) (action1 action2 : string) :
  ":"%char ∉ chars action1 → ":"%char ∉ chars action2 →
  rateLimitKey w1 action1 = rateLimitKey w2 action2 →
  (getClientIP w1).1 = (getClientIP w2).1 ∧ action1 = action2.
Proof.
  intros H1 H2 E. unfold rateLimitKey in E.
  apply (f_equal chars) in E. rewrite !chars_app in E. cbn in E.
  apply split_at_last in E as [E1 E2]; [|done..].
  by apply chars_inj in E1, E2.
Qed.

(** A client with an IPv6 address: voting and creating are counted apart. *)
Lemma rateLimitKey_injective_witness :
  let w : World unit := mkWorld ∅ {[ "x-real-ip" := "2001:db8::7" ]} 0 tt [] [] [] in
  rateLimitKey w "submitVote" ≠ rateLimitKey w "createPoll".
Proof.
  intros w E.
  apply (rateLimitKey_injective w w "submitVote" "createPoll") in E as [_ E].
  - discriminate.
  - apply (bool_decide_unpack _). vm_compute. reflexivity.
  - apply (bool_decide_unpack _). vm_compute. reflexivity.
Defined.

(** X3.  With a maximum of at least one, a map whose counters lie between
    one and the maximum stays such a map, and the number of remaining
    requests told to the caller is never negative and below the maximum. *)
Theorem checkRateLimit_bounded {DB} (w : World DB) (action : string)
    (windowMs maxRequests : Z) :
  1 <= maxRequests →
  bounded_counts maxRequests (rateLimitStore w) →
  bounded_counts maxRequests (rateLimitStore (checkRateLimit action windowMs maxRequests w).2)
  ∧ 0 <= remaining (checkRateLimit action windowMs maxRequests w).1 < maxRequests.
Proof.
  intros Hmax Hb.
  destruct (checkRateLimit_store w action windowMs maxRequests)
    as (e' & Hk & _ & Hrem & Hcount).
  assert (He' : 1 <= count e' <= maxRequests).
  { destruct Hcount as [-> | (e & He & _ & _ & [[-> ?] | [-> ?]])]; [lia| |].
    - by apply (Hb _ _ He).
    - pose proof (Hb _ _ He). lia. }
  split.
  - intros key entry Hl. destruct (decide (key = rateLimitKey w action)) as [->|Hne].
    + rewrite Hk in Hl. by simplify_eq.
    + rewrite checkRateLimit_elsewhere in Hl by done. by apply (Hb _ _ Hl).
  - destruct (allowed (checkRateLimit action windowMs maxRequests w).1) eqn:Ha.
    + rewrite (Hrem eq_refl). lia.
    + revert Ha. rewrite checkRateLimit_eq. cbn zeta.
      repeat case_match; cbn; intros; try discriminate; lia.
Qed.

Lemma checkRateLimit_bounded_witness :
  let w : World unit :=
    mkWorld {[ "203.0.113.7:submitVote" := {| count := 20; resetTime := 5000 |} ]}
            {[ "x-real-ip" := "203.0.113.7" ]} 1000 tt [] [] [] in
  bounded_counts 20 (rateLimitStore (checkRateLimit "submitVote" 60000 20 w).2)
  ∧ 0 <= remaining (checkRateLimit "submitVote" 60000 20 w).1 < 20.
Proof.
  intros w. apply (checkRateLimit_bounded w "submitVote" 60000 20); [lia|].
  subst w. cbn [rateLimitStore].
  intros key entry [<- <-]%lookup_singleton_Some. cbn. lia.
Defined.

(** X4.  With a window that is not negative, the reset time told to the
    caller is never in the past, and it is the reset time the map holds for
    the key once the call is over, whether the request was let through or
    not. *)
Theorem checkRateLimit_resetTime {DB} (w : World DB) (action : string)
    (windowMs maxRequests : Z) :
  0 <= windowMs →
  clock w <= result_resetTime (checkRateLimit action windowMs maxRequests w).1
  ∧ resetTime <$> rateLimitStore (checkRateLimit action windowMs maxRequests w).2
                   !! rateLimitKey w action
    = Some (result_resetTime (checkRateLimit action windowMs maxRequests w).1).
Proof.
  intros Hw.
  destruct (checkRateLimit_store w action windowMs maxRequests)
    as (e' & Hk & Hr & _ & Hcount).
  rewrite Hk. cbn. rewrite Hr. split; [|done].
  rewrite checkRateLimit_eq. cbn zeta.
  destruct (rateLimitStore w !! rateLimitKey w action) as [e|]; cbn; [|lia].
  destruct (clock w >? resetTime e) eqn:E1; cbn; [lia|].
  destruct (count e >=? maxRequests); cbn; arith_hyps; lia.
Qed.

Lemma checkRateLimit_resetTime_witness :
  let w : World unit := mkWorld ∅ {[ "x-real-ip" := "203.0.113.7" ]} 1000 tt [] [] [] in
  1000 <= result_resetTime (checkRateLimit "submitVote" 60000 20 w).1.
Proof.
  intros w. apply (checkRateLimit_resetTime w "submitVote" 60000 20). lia.
Defined.

(** X5.  The periodic sweep cannot be noticed through the limiter: after a
    sweep at some earlier time, a request gets the answer it would have got
    without the sweep. *)
Theorem sweep_unnoticed {DB} (w : World DB) (action : string)
    (windowMs maxRequests swept : Z) :
  swept <= clock w →
  (checkRateLimit action windowMs maxRequests
     (set_rateLimitStore (cleanupExpired swept (rateLimitStore w)) w)).1
  = (checkRateLimit action windowMs maxRequests w).1.
Proof. apply cleanupExpired_transparent. Qed.

Lemma sweep_unnoticed_witness :
  let w : World unit :=
    mkWorld {[ "203.0.113.7:submitVote" := {| count := 20; resetTime := 5000 |} ]}
            {[ "x-real-ip" := "203.0.113.7" ]} 9000 tt [] [] [] in
  (checkRateLimit "submitVote" 60000 20
     (set_rateLimitStore (cleanupExpired 6000 (rateLimitStore w)) w)).1
  = (checkRateLimit "submitVote" 60000 20 w).1.
Proof. intros w. apply (sweep_unnoticed w "submitVote" 60000 20 6000). cbn. lia. Defined.

(** ** Vote signatures, continued *)

Section Digest.

Lemma round_length (st : list Z) (kw : Z * Z) :
  length st = 8%nat → length (NodeCrypto.round st kw) = 8%nat.
Proof.
  intros Hl. do 9 (destruct st as [|? st]; try discriminate). reflexivity.
Qed.

Lemma rounds_length (kws : list (Z * Z)) : ∀ st,
  length st = 8%nat → length (fold_left NodeCrypto.round kws st) = 8%nat.
Proof.
  induction kws as [|kw kws IH]; intros st Hl; [done|]. cbn. by apply IH, round_length.
Qed.

Lemma compress_length (H block : list Z) :
  length H = 8%nat → length (NodeCrypto.compress H block) = 8%nat.
Proof.
  intros Hl. unfold NodeCrypto.compress. rewrite length_zip_with, rounds_length by done. lia.
Qed.

Lemma compress_all_length (blocks : list (list Z)) : ∀ H,
  length H = 8%nat → length (fold_left NodeCrypto.compress blocks H) = 8%nat.
Proof.
  induction blocks as [|b blocks IH]; intros H Hl; [done|]. cbn. by apply IH, compress_length.
Qed.

Lemma be_bytes_length (n : nat) (x : Z) : length (NodeCrypto.be_bytes n x) = n.
Proof. induction n as [|n IH]; cbn; [done|]. by rewrite IH. Qed.

Lemma be_bytes_range (n : nat) (x : Z) :
  Forall (λ b, 0 <= b < 256) (NodeCrypto.be_bytes n x).
Proof.
  induction n as [|n IH]; cbn; constructor; [|done].
  change 255 with (Z.ones 8). rewrite Z.land_ones by lia.
  apply Z.mod_pos_bound. lia.
Qed.

Lemma words_bytes (ws : list Z) :
  length (ws ≫= NodeCrypto.be_bytes 4) = (4 * length ws)%nat
  ∧ Forall (λ b, 0 <= b < 256) (ws ≫= NodeCrypto.be_bytes 4).
Proof.
  induction ws as [|x ws [IHl IHr]]; [by split|].
  change ((x :: ws) ≫= NodeCrypto.be_bytes 4)
    with (NodeCrypto.be_bytes 4 x ++ (ws ≫= NodeCrypto.be_bytes 4)).
  split.
  - rewrite length_app, be_bytes_length, IHl. cbn. lia.
  - apply Forall_app. split; [apply be_bytes_range | done].
Qed.

(** A digest is thirty-two bytes. *)
Lemma sha256_bytes (msg : list Z) :
  length (NodeCrypto.sha256 msg) = 32%nat
  ∧ Forall (λ b, 0 <= b < 256) (NodeCrypto.sha256 msg).
Proof.
  unfold NodeCrypto.sha256. cbn zeta.
  destruct (words_bytes (fold_left NodeCrypto.compress
              (NodeCrypto.chunks (length (NodeCrypto.pad msg)) 64 (NodeCrypto.pad msg))
              NodeCrypto.H256)) as [Hl Hr].
  split; [|done]. rewrite Hl, compress_all_length; done.
Qed.

Lemma hexDigit_hex (n : Z) : 0 <= n < 16 → isHexDigit (NodeCrypto.hexDigit n) = true.
Proof.
  intros Hn. rewrite <- (Z2Nat.id n) by lia.
  assert (Hk : (Z.to_nat n < 16)%nat) by lia. revert Hk.
  generalize (Z.to_nat n). intros k Hk.
  do 16 (destruct k as [|k]; [reflexivity|]). lia.
Qed.

Lemma hex_shape (bs : list Z) :
  Forall (λ b, 0 <= b < 256) bs →
  String.length (NodeCrypto.hex bs) = (2 * length bs)%nat
  ∧ Forall (λ c, isHexDigit c = true) (chars (NodeCrypto.hex bs)).
Proof.
  induction 1 as [|b bs Hb _ [IHl IHr]]; [by split|]. cbn. split.
  - rewrite IHl. lia.
  - constructor; [|constructor; [|done]]; apply hexDigit_hex.
    + rewrite Z.shiftr_div_pow2 by lia. change (2 ^ 4) with 16.
      split; [apply Z.div_pos; lia | apply Z.div_lt_upper_bound; lia].
    + change 15 with (Z.ones 4). rewrite Z.land_ones by lia.
      apply Z.mod_pos_bound. lia.
Qed.

End Digest.

(** X6.  A vote signature is always sixty-four characters, each a digit or
    a letter from a to f, whatever the secret, the poll, the user agent and
    the address: it fits the 255-character signature column and holds none of
    the characters that structure a cookie. *)
Theorem generateVoteSignature_shape (secret pollId userAgent : string) (ip : option string) :
  String.length (generateVoteSignature secret pollId userAgent ip) = 64%nat
  ∧ Forall (λ c, isHexDigit c = true)
           (chars (generateVoteSignature secret pollId userAgent ip)).
Proof.
  unfold generateVoteSignature, NodeCrypto.createHmac_sha256_hex, NodeCrypto.hmac_sha256.
  cbn zeta.
  match goal with
  | |- context [NodeCrypto.hex (NodeCrypto.sha256 ?m)] =>
      destruct (sha256_bytes m) as [Hl Hr];
      destruct (hex_shape (NodeCrypto.sha256 m) Hr) as [Hl' Hr']
  end.
  split; [|exact Hr']. rewrite Hl', Hl. reflexivity.
Qed.

(** X7.  The signed text does not tell a colon of the user agent from the
    separator before the address: a user agent ending in [:x] with no
    address is signed as the rest of the user agent with address [x]. *)
Theorem generateVoteSignature_ambiguous (secret pollId userAgent x : string) :
  x ≠ "" →
  generateVoteSignature secret pollId (userAgent +:+ ":" +:+ x) None
  = generateVoteSignature secret pollId userAgent (Some x).
Proof.
  intros Hx. unfold generateVoteSignature. f_equal. unfold signedData.
  destruct x as [|c x]; [done|]. cbn [Js.truthy].
  apply chars_inj. rewrite !chars_app. cbn. by rewrite <- !app_assoc, app_nil_r.
Qed.

Lemma generateVoteSignature_ambiguous_witness :
  generateVoteSignature "s3cret" "poll-1" ("Mozilla/5.0" +:+ ":" +:+ "203.0.113.7") None
  = generateVoteSignature "s3cret" "poll-1" "Mozilla/5.0" (Some "203.0.113.7").
Proof. apply generateVoteSignature_ambiguous. discriminate. Defined.

(** ** Sanitization, continued *)

Section Sanitize.

Lemma chars_length (s : string) : length (chars s) = String.length s.
Proof. induction s as [|c s IH]; cbn; [done|]. by rewrite IH. Qed.

Lemma removeAll_sublist (matchAt : string → option nat) (s : string) :
  ∀ skip, chars (Regex.removeAll matchAt skip s) `sublist_of` chars s.
Proof.
  induction s as [|c s IH]; intros skip; cbn; [constructor|].
  destruct skip as [|k]; [|by constructor].
  destruct (matchAt (String c s)) as [[|k]|]; cbn; by constructor.
Qed.

Lemma trimStart_sublist (s : string) : chars (Js.trimStart s) `sublist_of` chars s.
Proof.
  induction s as [|c s IH]; cbn; [constructor|].
  destruct (Js.isWhiteSpace c); [by constructor | reflexivity].
Qed.

Lemma trimEnd_sublist (s : string) : chars (Js.trimEnd s) `sublist_of` chars s.
Proof.
  induction s as [|c s IH]; [constructor|]. rewrite trimEnd_step.
  destruct (Js.trimEnd s) as [|c' t].
  - destruct (Js.isWhiteSpace c); cbn; [apply sublist_nil_l|].
    constructor. apply sublist_nil_l.
  - cbn in *. by constructor.
Qed.

Lemma trim_sublist (s : string) : chars (Js.trim s) `sublist_of` chars s.
Proof. unfold Js.trim. etrans; [apply trimEnd_sublist | apply trimStart_sublist]. Qed.

Lemma sanitizeText_sublist (text : string) :
  chars (sanitizeText (JsStr text))
  `sublist_of` chars (Regex.removeAll Regex.angleBracket O text).
Proof.
  cbn. etrans; [apply trim_sublist|]. etrans; apply removeAll_sublist.
Qed.

Lemma no_angle_brackets (s : string) :
  Forall (λ c, c ≠ "<"%char ∧ c ≠ ">"%char) (chars (Regex.removeAll Regex.angleBracket O s)).
Proof.
  induction s as [|c s IH]; cbn; [constructor|].
  destruct (bool_decide (c = "<"%char)) eqn:E1; cbn; [done|].
  destruct (bool_decide (c = ">"%char)) eqn:E2; cbn; [done|].
  apply bool_decide_eq_false in E1, E2. by constructor.
Qed.

Lemma upperAscii_fixes (c : ascii) :
  (Regex.upperAscii c = ":"%char → c = ":"%char)
  ∧ (Regex.upperAscii c = "="%char → c = "="%char).
Proof. destruct c as [[] [] [] [] [] [] [] []]; vm_compute; split; congruence. Qed.

Lemma startsWith_ci_elem (p s : string) (c : ascii) :
  Regex.startsWith_ci p s = true → c ∈ chars p →
  ∃ c', c' ∈ chars s ∧ Regex.upperAscii c = Regex.upperAscii c'.
Proof.
  revert s. induction p as [|a p IH]; intros s Hst Hc; [by apply elem_of_nil in Hc|].
  destruct s as [|b s]; [done|]. cbn in Hst, Hc.
  apply andb_true_iff in Hst as [Hab Hps]. apply elem_of_cons in Hc as [->|Hc].
  - exists b. split; [by left|]. by apply bool_decide_eq_true in Hab.
  - destruct (IH s Hps Hc) as (c' & ? & ?). exists c'. split; [by right | done].
Qed.

Lemma dropChars_elem (n : nat) (s : string) (c : ascii) (t : string) :
  Regex.dropChars n s = String c t → c ∈ chars s.
Proof.
  revert s. induction n as [|n IH]; intros [|b s] E; cbn in E; try done.
  - injection E as -> _. by left.
  - right. by apply IH.
Qed.

Lemma dropChars_suffix (n : nat) (s : string) (c : ascii) :
  c ∈ chars (Regex.dropChars n s) → c ∈ chars s.
Proof.
  revert s. induction n as [|n IH]; intros [|b s] E; cbn in E; try done.
  right. by apply IH.
Qed.

Lemma javascriptScheme_none (s : string) :
  ":"%char ∉ chars s → Regex.javascriptScheme s = None.
Proof.
  intros Hs. unfold Regex.javascriptScheme.
  destruct (Regex.startsWith_ci "javascript:" s) eqn:E; [|done].
  destruct (startsWith_ci_elem _ _ ":"%char E) as (c' & Hc' & Hu).
  { apply (bool_decide_unpack _). vm_compute. reflexivity. }
  symmetry in Hu. apply upperAscii_fixes in Hu. by subst.
Qed.

Lemma eventHandler_none (s : string) :
  "="%char ∉ chars s → Regex.eventHandler s = None.
Proof.
  intros Hs. unfold Regex.eventHandler.
  destruct (Regex.startsWith_ci "on" s); [|done]. cbn zeta.
  destruct (Regex.wordRun (Regex.dropChars 2 s)) as [|n]; [done|].
  destruct (Regex.dropChars (S n) (Regex.dropChars 2 s)) as [|c t] eqn:E; [done|].
  case_bool_decide as Hc; [|done]. subst c.
  by apply dropChars_elem, dropChars_suffix in E.
Qed.

Lemma removeAll_nothing (matchAt : string → option nat) (Q : ascii → Prop) :
  (∀ s, Forall Q (chars s) → matchAt s = None) →
  ∀ s, Forall Q (chars s) → Regex.removeAll matchAt O s = s.
Proof.
  intros Hm. induction s as [|c s IH]; intros HQ; [done|]. cbn.
  rewrite (Hm _ HQ). f_equal. apply IH. by apply Forall_cons in HQ as [_ ?].
Qed.

End Sanitize.

(** X8.  Whatever it is given, [sanitizeText] returns a text without angle
    brackets and without white space at either end, no longer than the text
    it was given; what is not a text becomes the empty text. *)
Theorem sanitizeText_output (v : JsValue) :
  ("<"%char ∉ chars (sanitizeText v))
  ∧ (">"%char ∉ chars (sanitizeText v))
  ∧ Js.trim (sanitizeText v) = sanitizeText v
  ∧ (∀ text, (String.length (sanitizeText (JsStr text)) ≤ String.length text)%nat)
  ∧ sanitizeText JsUndefined = "" ∧ sanitizeText JsNull = ""
  ∧ sanitizeText JsObject = "" ∧ (∀ n, sanitizeText (JsNum n) = "").
Proof.
  assert (Hno : ∀ c, (c = "<" ∨ c = ">")%char → c ∉ chars (sanitizeText v)).
  { intros c Hc Hin. destruct v as [| |text| | |]; try by apply elem_of_nil in Hin.
    eapply elem_of_sublist in Hin; [|apply sanitizeText_sublist].
    pose proof (no_angle_brackets text) as Hf.
    eapply Forall_forall in Hf as [? ?]; [|exact Hin]. by destruct Hc. }
  split; [by apply Hno; left|]. split; [by apply Hno; right|].
  split; [apply sanitizeText_trimmed|]. split; [|done].
  intros text. rewrite <- !chars_length. apply sublist_length.
  etrans; [apply sanitizeText_sublist | apply removeAll_sublist].
Qed.

(** X9.  A text that holds no angle bracket, no colon and no equals sign is
    left as it is, its outer white space apart. *)
Theorem sanitizeText_clean (text : string) :
  Forall (λ c, c ∉ ["<"; ">"; ":"; "="]%char) (chars text) →
  sanitizeText (JsStr text) = Js.trim text.
Proof.
  intros Hc. cbn.
  set (Q := λ c : ascii, c ∉ ["<"; ">"; ":"; "="]%char) in *.
  rewrite (removeAll_nothing Regex.angleBracket Q); [| |exact Hc].
  2: { intros [|c s]; [done|]. intros [Hh _]%Forall_cons. cbn.
       rewrite !bool_decide_eq_false_2; [done| |]; intros ->; apply Hh;
         repeat constructor. }
  rewrite (removeAll_nothing Regex.javascriptScheme Q); [| |exact Hc].
  2: { intros s Hs. apply javascriptScheme_none. intros Hin.
       eapply Forall_forall in Hs; [|exact Hin]. apply Hs. repeat constructor. }
  rewrite (removeAll_nothing Regex.eventHandler Q); [done| |exact Hc].
  intros s Hs. apply eventHandler_none. intros Hin.
  eapply Forall_forall in Hs; [|exact Hin]. apply Hs. repeat constructor.
Qed.

Lemma sanitizeText_clean_witness :
  Forall (λ c, c ∉ ["<"; ">"; ":"; "="]%char) (chars "  What is your favorite color? ")
  ∧ sanitizeText (JsStr "  What is your favorite color? ") = "What is your favorite color?".
Proof.
  assert (H : Forall (λ c, c ∉ ["<"; ">"; ":"; "="]%char)
                (chars "  What is your favorite color? ")).
  { apply (bool_decide_unpack _). vm_compute. reflexivity. }
  split; [exact H|]. exact (sanitizeText_clean _ H).
Defined.

(** ** The server actions, continued *)

Section ActionsMore.

Context `{Supabase DB}.
Implicit Types (w : World DB).

Lemma rateLimitCheck_exhausted w action :
  exhausted w action → rateLimitCheck action w = (rateLimited, w).
Proof.
  intros (e & Hk & Hnow & Hc). unfold rateLimitCheck, bind.
  rewrite (checkRateLimit_reject w action _ _ e Hk Hnow) by lia. reflexivity.
Qed.

Lemma exchanged_app w w' (l : list Exchange) :
  wire w' = wire w ++ l → exchanged w w' = l.
Proof. intros E. unfold exchanged. rewrite E. apply drop_app_length. Qed.

Lemma exchanged_nil w w' : wire w' = wire w → exchanged w w' = [].
Proof. intros E. apply exchanged_app. by rewrite app_nil_r. Qed.

Lemma all_messages_nonempty q os : Forall (λ m, m ≠ "") (all_messages q os).
Proof.
  assert (Hif : ∀ (b : bool) (m : string), m ≠ "" →
            Forall (λ m, m ≠ "") (if b then [m] else [])).
  { intros [] m Hm; by repeat constructor. }
  assert (Hnot : ∀ (b : bool) (m : string), m ≠ "" →
            Forall (λ m, m ≠ "") (if b then [] else [m])).
  { intros [] m Hm; by repeat constructor. }
  unfold all_messages, question_issues.
  repeat (apply Forall_app; split); try by apply Hif.
  - apply Forall_bind, Forall_forall. intros o _. unfold option_issues.
    repeat (apply Forall_app; split); by apply Hif.
  - by apply Hnot.
Qed.

Lemma safeParse_failure_message q os e es :
  Zod.safeParse createPollSchema q os = Zod.failure e es → Zod.issue_message e ≠ "".
Proof.
  intros E. pose proof (safeParse_messages q os) as Hm. rewrite E in Hm.
  pose proof (all_messages_nonempty q os) as Hne. rewrite <- Hm in Hne.
  by apply Forall_cons in Hne as [? _].
Qed.

(** What the schema accepts from a posted form is the sanitized text itself,
    and it keeps the rules. *)
Lemma safeParse_posted formData q os :
  Zod.safeParse createPollSchema (postedQuestion formData) (postedOptions formData)
  = Zod.success q os →
  q = postedQuestion formData ∧ os = postedOptions formData ∧ valid_poll q os.
Proof.
  intros E.
  assert (Hos : Forall (λ o, Js.trim o = o) (postedOptions formData)).
  { apply Forall_fmap, Forall_forall. intros v _. apply sanitizeText_trimmed. }
  assert (Hos' : Js.trim <$> postedOptions formData = postedOptions formData).
  { revert Hos. generalize (postedOptions formData).
    induction 1 as [|o l Ho _ IH]; [done|]. rewrite fmap_cons. by rewrite Ho, IH. }
  pose proof (safeParse_messages (postedQuestion formData) (postedOptions formData)) as Hm.
  rewrite E in Hm. destruct Hm as (Hnil & Hq & Ho).
  assert (Hq' : q = postedQuestion formData).
  { rewrite Hq. apply sanitizeText_trimmed. }
  rewrite Hos' in Ho. clear Hq. subst q os.
  split; [done|]. split; [done|].
  apply validate_fail_fast_None. rewrite <- all_messages_fail_fast by done.
  by rewrite Hnil.
Qed.

Lemma friendly_text (error : ApiError) w : (getFriendlyErrorMessage error w).1 ≠ Text "".
Proof.
  destruct (getFriendlyErrorMessage_friendly error w) as [(m & -> & Hin) | (k & -> & _)];
    [|done].
  intros [= ->]. pose proof friendly_nonempty as Hne.
  eapply Forall_forall in Hne; [|exact Hin]. done.
Qed.

End ActionsMore.

(** Name the answer of the rate limiter, of the schema and of each test of
    an action, one after the other. *)
Ltac limiter_step :=
  action_step;
  match goal with
  | Hrl : _ = granted ∨ _ = rateLimited |- _ =>
      destruct Hrl as [-> | ->]; cbn [ok negb granted rateLimited]
  end.

Ltac friendly_step :=
  match goal with
  | |- context [getFriendlyErrorMessage ?e ?w0] =>
      let Hne := fresh "Hfriendly" in
      pose proof (friendly_text e w0) as Hne;
      rewrite (getFriendlyErrorMessage_eq e w0) in Hne |- *;
      cbn [fst snd db wire revalidated rateLimitStore] in Hne |- *
  end.

(** X10.  Once the limiter has no request left for a client and an action,
    the action answers "Too many requests" and does nothing else: no
    exchange with the backend, no validation, no change of the world. *)
Theorem limited_actions_refuse `{Supabase DB} (w : World DB) (pollId : string)
    (formData : FormData) (optionIndex : JsValue) (voteSignature : option string) :
  (exhausted w "createPoll" → createPoll formData w = (rateLimited, w))
  ∧ (exhausted w "updatePoll" → updatePoll pollId formData w = (rateLimited, w))
  ∧ (exhausted w "deletePoll" → deletePoll pollId w = (rateLimited, w))
  ∧ (exhausted w "submitVote" →
     submitVote pollId optionIndex voteSignature w = (rateLimited, w)).
Proof.
  repeat split; intros Hx; apply rateLimitCheck_exhausted in Hx.
  - unfold createPoll, bind. by rewrite Hx.
  - unfold updatePoll, bind. by rewrite Hx.
  - unfold deletePoll, bind. by rewrite Hx.
  - unfold submitVote, bind. by rewrite Hx.
Qed.

(** Alice has used her twenty deletions of this minute: the next one is
    refused and her poll stays. *)
Lemma limited_actions_refuse_witness :
  let st := database (signedIn alice) [colors] [] 1 in
  let w := mkWorld {[ "203.0.113.7:deletePoll" := {| count := 20; resetTime := 60500 |} ]}
             {[ "x-forwarded-for" := "203.0.113.7" ]} 1000 st [] [] [] in
  exhausted w "deletePoll" ∧ deletePoll "id-0" w = (rateLimited, w).
Proof.
  intros st w.
  assert (Hx : exhausted w "deletePoll").
  { exists {| count := 20; resetTime := 60500 |}.
    split; [reflexivity|]. split; vm_compute; discriminate. }
  split; [exact Hx|].
  exact (proj1 (proj2 (proj2 (limited_actions_refuse w "id-0" [] JsNull None))) Hx).
Defined.

Ltac action_case :=
  first
    [ friendly_step
    | limiter_step
    | action_step
    | match goal with
      | |- context [match Zod.safeParse ?s ?q ?o with _ => _ end] =>
          let E := fresh "Eparse" in destruct (Zod.safeParse s q o) eqn:E
      | |- context [match user_error ?r with _ => _ end] =>
          let E := fresh "Euser_error" in destruct (user_error r) eqn:E
      | |- context [match user ?r with _ => _ end] =>
          let E := fresh "Euser" in destruct (user r) eqn:E
      | |- context [match data_error ?r with _ => _ end] =>
          let E := fresh "Edata_error" in destruct (data_error r) eqn:E
      | |- context [if no_rows ?d then _ else _] =>
          let E := fresh "Erows" in destruct (no_rows d) eqn:E
      | |- context [bool_decide (is_Some ?o)] =>
          let E := fresh "Esome" in destruct (bool_decide (is_Some o)) eqn:E; cbn [orb]
      | |- context [bool_decide (data ?r = null)] =>
          let E := fresh "Enull" in destruct (bool_decide (data r = null)) eqn:E; cbn [orb]
      | |- context [negb (is_number ?v) || lt_zero ?v] =>
          let E := fresh "Eindex" in destruct (negb (is_number v) || lt_zero v) eqn:E
      | |- context [match Js.truthy ?s with _ => _ end] =>
          let E := fresh "Esig" in destruct (Js.truthy s) eqn:E
      | |- context [bool_decide (code ?e = Some ?c)] =>
          let E := fresh "Ecode" in destruct (bool_decide (code e = Some c)) eqn:E
      end ];
  cbn [fst snd ok error db wire revalidated rateLimitStore set_rateLimitStore].

Ltac action_cases := repeat action_case.

(** X11.  Whatever the backend answers, a result of one of the four
    limited actions is a success without an error, or a failure with an error
    that is truthy: a text that is not empty, or the inherited member that
    [getFriendlyErrorMessage] hands on.  So the test [!result.error] of the
    admin page and the test [result.ok] of the poll list agree on every
    result an action returns. *)
Theorem action_result_envelope `{Supabase DB} (w : World DB) (pollId : string)
    (formData : FormData) (optionIndex : JsValue) (voteSignature : option string) :
  Forall (λ r, envelope r ∧ (truthyValue (error r) = None ↔ ok r = true))
    [ (createPoll formData w).1; (updatePoll pollId formData w).1;
      (deletePoll pollId w).1; (submitVote pollId optionIndex voteSignature w).1 ].
Proof.
  assert (Henv : ∀ r, envelope r →
            envelope r ∧ (truthyValue (error r) = None ↔ ok r = true)).
  { intros [[] [[[|c m]|k]|]]; unfold envelope; cbn; try done. }
  repeat (apply Forall_cons_2; [apply Henv|]); [| | | |apply Forall_nil_2].
  - unfold createPoll. action_cases; unfold envelope; cbn; try done.
    intros [= E]. revert E. by eapply safeParse_failure_message.
  - unfold updatePoll. action_cases; unfold envelope; cbn; try done.
    intros [= E]. revert E. by eapply safeParse_failure_message.
  - unfold deletePoll. action_cases; unfold envelope; cbn; done.
  - unfold submitVote. action_cases; unfold envelope; cbn; done.
Qed.

(** X12.  The cache is told to drop a path exactly when the action
    succeeds: the list of polls after a creation, an update or a deletion,
    the page of the poll after a vote.  A failed action and the two reads
    invalidate nothing. *)
Theorem revalidation_follows_success `{Supabase DB} (w : World DB) (pollId : string)
    (formData : FormData) (optionIndex : JsValue) (voteSignature : option string) :
  let told (run : ActionResult * World DB) (path : string) :=
    revalidated run.2 = revalidated w ++ (if ok run.1 then [path] else []) in
  told (createPoll formData w) "/dashboard/polls"
  ∧ told (updatePoll pollId formData w) "/dashboard/polls"
  ∧ told (deletePoll pollId w) "/dashboard/polls"
  ∧ told (submitVote pollId optionIndex voteSignature w) ("/poll/" +:+ pollId)
  ∧ revalidated (getUserPolls w).2 = revalidated w
  ∧ revalidated (getPollById pollId w).2 = revalidated w.
Proof.
  intros told. unfold told. repeat split.
  - unfold createPoll. action_cases; by rewrite ?app_nil_r.
  - unfold updatePoll. action_cases; by rewrite ?app_nil_r.
  - unfold deletePoll. action_cases; by rewrite ?app_nil_r.
  - unfold submitVote. action_cases; by rewrite ?app_nil_r.
  - unfold getUserPolls. action_cases; done.
  - unfold getPollById. action_cases; done.
Qed.

(** The exchanges a finished run has added, and the writes among them. *)
Ltac exchanged_simpl :=
  unfold exchanged; cbn [wire];
  rewrite <- ?app_assoc, ?drop_app_length, ?drop_all;
  unfold mutations; cbn.

Lemma signedIn_eq (ur : UserResponse) (u : User) :
  user ur = Some u → user_error ur = None → ur = signedIn u.
Proof. destruct ur. cbn. by intros -> ->. Qed.

(** X13.  Whatever the backend answers, [createPoll] either fails without
    sending a write, or sends exactly one: the insert into [polls] of one row
    whose owner is the user the identity service names for the request (never
    a value of the form) and whose question and options are the sanitized
    texts of the form, which keep the rules of the schema.  In that case, and
    in no other, it may succeed, and it does exactly when the insert is
    answered without error. *)
Theorem createPoll_writes `{Supabase DB} (w : World DB) (formData : FormData) :
  let run := createPoll formData w in
  (ok run.1 = false ∧ mutations (exchanged w run.2) = [])
  ∨ ∃ u answer,
      (backend_getUser (db w)).1 = signedIn u
      ∧ valid_poll (postedQuestion formData) (postedOptions formData)
      ∧ mutations (exchanged w run.2)
        = [From "polls"
             (insert [pollRow u (postedQuestion formData) (postedOptions formData)]) answer]
      ∧ (ok run.1 = true ↔ data_error answer = None).
Proof.
  intros run. subst run.
  remember (backend_getUser (db w)).1 as who eqn:Ewho.
  unfold createPoll.
  action_cases; exchanged_simpl; try (by left);
    right;
    apply safeParse_posted in Eparse as (-> & -> & Hv);
    cbn in Ewho; subst who;
    exists u, pr;
    (split; [by apply signedIn_eq|]); (split; [done|]); (split; [done|]);
    rewrite Edata_error; done.
Qed.

(** Alice posts the form: one insert, answered without error. *)
Lemma createPoll_writes_witness :
  let w := request (database (signedIn alice) [] [] 0) in
  ∃ answer,
    mutations (exchanged w (createPoll colorsForm w).2)
    = [From "polls" (insert [pollRow alice "What is your favorite color?" ["Red"; "Blue"]])
         answer]
    ∧ data_error answer = None.
Proof.
  intros w.
  destruct (createPoll_writes w colorsForm) as [[Hok _] | (u & answer & Hu & _ & Hm & Hok)].
  { vm_compute in Hok. discriminate. }
  injection Hu as <-. exists answer. split; [exact Hm|].
  apply Hok. vm_compute. reflexivity.
Defined.

(** X14.  Whatever the backend answers, [updatePoll] either fails without
    sending a write, or sends exactly one: an update of [polls] that sets the
    sanitized, valid question and options of the form and is filtered by the
    poll and by the user the identity service names.  In that case, and in
    no other, it may succeed, and it does exactly when the update is answered
    without error and with at least one row. *)
Theorem updatePoll_writes `{Supabase DB} (w : World DB) (pollId : string)
    (formData : FormData) :
  let run := updatePoll pollId formData w in
  (ok run.1 = false ∧ mutations (exchanged w run.2) = [])
  ∨ ∃ u answer,
      (backend_getUser (db w)).1 = signedIn u
      ∧ valid_poll (postedQuestion formData) (postedOptions formData)
      ∧ mutations (exchanged w run.2)
        = [From "polls"
             (update (pollValues (postedQuestion formData) (postedOptions formData))
                     (ownerFilter pollId u)) answer]
      ∧ (ok run.1 = true ↔ data_error answer = None ∧ no_rows (data answer) = false).
Proof.
  intros run. subst run.
  remember (backend_getUser (db w)).1 as who eqn:Ewho.
  unfold updatePoll.
  action_cases; exchanged_simpl; try (by left);
    right;
    apply safeParse_posted in Eparse as (-> & -> & Hv);
    cbn in Ewho; subst who;
    exists u, pr;
    (split; [by apply signedIn_eq|]); (split; [done|]); (split; [done|]);
    rewrite Edata_error, ?Erows; split; try done; by intros [? ?].
Qed.

(** Alice edits her poll: one update, answered with her poll. *)
Lemma updatePoll_writes_witness :
  let w := request (database (signedIn alice) [colors] [] 1) in
  ∃ answer,
    mutations (exchanged w (updatePoll "id-0" colorsForm w).2)
    = [From "polls"
         (update (pollValues "What is your favorite color?" ["Red"; "Blue"])
                 (ownerFilter "id-0" alice)) answer]
    ∧ no_rows (data answer) = false.
Proof.
  intros w.
  destruct (updatePoll_writes w "id-0" colorsForm)
    as [[Hok _] | (u & answer & Hu & _ & Hm & Hok)].
  { vm_compute in Hok. discriminate. }
  injection Hu as <-. exists answer. split; [exact Hm|].
  apply Hok. vm_compute. reflexivity.
Defined.

(** X15.  Whatever the backend answers, [deletePoll] either fails without
    sending a write, or sends exactly one: a delete on [polls] filtered by
    the poll and by the user the identity service names.  In that case, and
    in no other, it may succeed, and it does exactly when the delete is
    answered without error and with at least one deleted row. *)
Theorem deletePoll_writes `{Supabase DB} (w : World DB) (pollId : string) :
  let run := deletePoll pollId w in
  (ok run.1 = false ∧ mutations (exchanged w run.2) = [])
  ∨ ∃ u answer,
      (backend_getUser (db w)).1 = signedIn u
      ∧ mutations (exchanged w run.2) = [From "polls" (delete (ownerFilter pollId u)) answer]
      ∧ (ok run.1 = true ↔ data_error answer = None ∧ no_rows (data answer) = false).
Proof.
  intros run. subst run.
  remember (backend_getUser (db w)).1 as who eqn:Ewho.
  unfold deletePoll.
  action_cases; exchanged_simpl; try (by left);
    right;
    cbn in Ewho; subst who;
    exists u, pr;
    (split; [by apply signedIn_eq|]); (split; [done|]);
    rewrite Edata_error, ?Erows; split; try done; by intros [? ?].
Qed.

(** Alice deletes her poll: one delete, answered with the deleted poll. *)
Lemma deletePoll_writes_witness :
  let w := request (database (signedIn alice) [colors] [] 1) in
  ∃ answer,
    mutations (exchanged w (deletePoll "id-0" w).2)
    = [From "polls" (delete (ownerFilter "id-0" alice)) answer]
    ∧ no_rows (data answer) = false.
Proof.
  intros w.
  destruct (deletePoll_writes w "id-0") as [[Hok _] | (u & answer & Hu & Hm & Hok)].
  { vm_compute in Hok. discriminate. }
  injection Hu as <-. exists answer. split; [exact Hm|].
  apply Hok. vm_compute. reflexivity.
Defined.

(** X16.  Whatever the backend, a write sent by [submitVote] is a single
    insert of one row into [votes], sent only after the poll was looked up
    and found.  The row carries the poll, the caller when the identity
    service names one, a signature that is not empty, and an index that is a
    number not below zero (or NaN, which is sent as null); the signature is
    the text the browser handed in, and it is not verified against anything. *)
Theorem submitVote_writes `{Supabase DB} (w : World DB) (pollId : string)
    (optionIndex : JsValue) (voteSignature : option string) (x : Exchange) :
  x ∈ mutations (exchanged w (submitVote pollId optionIndex voteSignature w).2) →
  ∃ sig found answer,
    voteSignature = Some sig ∧ sig ≠ ""
    ∧ (optionIndex = JsNaN ∨ ∃ n, optionIndex = JsNum n ∧ 0 <= n)
    ∧ From "polls" (select "id" [eq_ "id" (JString pollId)] None true) found
        ∈ exchanged w (submitVote pollId optionIndex voteSignature w).2
    ∧ data_error found = None ∧ data found ≠ null
    ∧ x = From "votes"
            (insert [voteRow pollId (user (backend_getUser (db w)).1) optionIndex sig])
            answer
    ∧ mutations (exchanged w (submitVote pollId optionIndex voteSignature w).2) = [x].
Proof.
  remember (backend_getUser (db w)).1 as who eqn:Ewho.
  unfold submitVote.
  action_cases; exchanged_simpl; try (by intros ?%elem_of_nil);
    intros ->%list_elem_of_singleton;
    cbn in Ewho; subst who;
    apply truthy_Some in Esig as [-> Hsig];
    apply bool_decide_eq_false in Esome;
    apply bool_decide_eq_false in Enull;
    exists s, pr, pr0;
    (split; [done|]); (split; [done|]);
    (split; [destruct optionIndex as [| | |n| |]; cbn in Eindex; try done;
             [right; exists n; split; [done|]; arith_hyps; lia | by left]|]);
    (split; [by right; left|]);
    (split; [by destruct (data_error pr); [destruct Esome|]|]);
    (split; [done|]); rewrite Euser; (split; [done|]); done.
Qed.

Lemma submitVote_writes_witness :
  let w := request (database anonymous [colors] [] 1) in
  let x := From "votes" (insert [voteRow "id-0" None (JsNum 7) sig1]) (Pg.succeeded null) in
  x ∈ mutations (exchanged w (submitVote "id-0" (JsNum 7) (Some sig1) w).2)
  ∧ mutations (exchanged w (submitVote "id-0" (JsNum 7) (Some sig1) w).2) = [x].
Proof.
  intros w x.
  assert (Hx : x ∈ mutations (exchanged w (submitVote "id-0" (JsNum 7) (Some sig1) w).2)).
  { vm_compute. left. }
  split; [exact Hx|].
  destruct (submitVote_writes w "id-0" (JsNum 7) (Some sig1) x Hx)
    as (s & found & answer & _ & _ & _ & _ & _ & _ & _ & Hm).
  exact Hm.
Defined.

(** X17.  [getUserPolls] sends no write.  Without a user it answers an
    empty list with "Not authenticated" and asks for no poll; with a user
    its one query selects the polls whose [user_id] is that user, newest
    first.  An error of the query gives an empty list with what
    [getFriendlyErrorMessage] makes of it, which is never the empty text; a
    null answer gives an empty list.  An error of the identity service alone
    does not stop it. *)
Theorem getUserPolls_scoped `{Supabase DB} (w : World DB) :
  let response := (backend_getUser (db w)).1 in
  let run := getUserPolls w in
  mutations (exchanged w run.2) = []
  ∧ (user response = None →
     run.1 = {| polls := array []; polls_error := Some "Not authenticated" |}
     ∧ exchanged w run.2 = [GetUser response])
  ∧ (∀ u, user response = Some u →
     ∃ answer,
       exchanged w run.2
       = [ GetUser response;
           From "polls"
             (select "*" [eq_ "user_id" (JString (id u))] (Some ("created_at", false)) false)
             answer ]
       ∧ (is_Some (data_error answer) →
          polls run.1 = array [] ∧ ∃ m, polls_error run.1 = Some m ∧ m ≠ "")
       ∧ (data_error answer = None →
          polls_error run.1 = None
          ∧ polls run.1 = match data answer with null => array [] | d => d end)).
Proof.
  intros response run. subst response run.
  remember (backend_getUser (db w)).1 as who eqn:Ewho.
  unfold getUserPolls.
  action_cases; cbn in Ewho; subst who; exchanged_simpl.
  - split; [done|]. split; [by rewrite Euser|]. intros u' Hu.
    rewrite Euser in Hu. injection Hu as <-. exists pr.
    split; [done|]. split; [by eauto|]. by rewrite Edata_error.
  - split; [done|]. split; [by rewrite Euser|]. intros u' Hu.
    rewrite Euser in Hu. injection Hu as <-. exists pr.
    split; [done|]. rewrite Edata_error. split; [by intros [? ?]|]. done.
  - split; [done|]. split; [done|]. intros u' Hu. by rewrite Euser in Hu.
Qed.

(** An anonymous visitor is told so and nothing is asked of the tables;
    Alice, signed in, has the polls with her [user_id] selected. *)
Lemma getUserPolls_scoped_witness :
  let visitor := request (database anonymous [colors] [] 1) in
  let owner := request (database (signedIn alice) [colors] [] 1) in
  (getUserPolls visitor).1
  = {| polls := array []; polls_error := Some "Not authenticated" |}
  ∧ ∃ answer,
      exchanged owner (getUserPolls owner).2
      = [ GetUser (signedIn alice);
          From "polls"
            (select "*" [eq_ "user_id" (JString "user-alice")] (Some ("created_at", false))
                    false)
            answer ]
      ∧ polls (getUserPolls owner).1 = data answer.
Proof.
  intros visitor owner. split.
  - exact (proj1 (proj1 (proj2 (getUserPolls_scoped visitor)) eq_refl)).
  - assert (Hu : user (backend_getUser (db owner)).1 = Some alice) by reflexivity.
    destruct (proj2 (proj2 (getUserPolls_scoped owner)) alice Hu)
      as (answer & Hx & _ & Hok).
    exists answer. split; [exact Hx|].
    assert (Hd : data answer = array [Pg.poll_json colors]).
    { vm_compute in Hx. by injection Hx as <-. }
    assert (He : data_error answer = None).
    { vm_compute in Hx. by injection Hx as <-. }
    destruct (Hok He) as [_ ->]. by rewrite Hd.
Defined.

(** ** The actions on the relational backend *)

Section RelationalActions.

Implicit Types (st : Pg.State) (w : World Pg.State).

Lemma execute_select_state table selected filters order single st :
  (Pg.execute table (select selected filters order single) st).2 = st.
Proof. unfold Pg.execute. by repeat case_bool_decide. Qed.

(** The insert of [submitVote] on the relational backend: it either stores
    the vote or leaves the tables as they are. *)
Lemma execute_vote st pollId (voter : option User) (i : JsValue) (sig : string) :
  let r := Pg.execute "votes" (insert [voteRow pollId voter i sig]) st in
  match data_error r.1 with
  | None =>
      ∃ n, i = JsNum n ∧ Pg.int4 n = true ∧ Pg.votable st pollId = true
           ∧ Pg.duplicate_signature st pollId (Some sig) = false
           ∧ r.2 = {| Pg.session := Pg.session st; Pg.poll_table := Pg.poll_table st;
                      Pg.vote_table := Pg.vote_table st ++
                        [ {| Pg.vote_id := Pg.fresh_id st; Pg.vote_poll_id := pollId;
                             Pg.vote_user_id := id <$> voter; Pg.vote_option_index := n;
                             Pg.vote_signature := Some sig;
                             Pg.vote_created_at := Z.of_nat (Pg.serial st) |} ];
                      Pg.serial := S (Pg.serial st) |}
  | Some e =>
      r.2 = st
      ∧ (Pg.duplicate_signature st pollId (Some sig) = true →
         Pg.votable st pollId = true → Js.length sig <= 255 →
         (∃ n, i = JsNum n ∧ Pg.int4 n = true) → code e = Some "23505")
  end.
Proof.
  intros r. subst r. unfold Pg.execute.
  rewrite bool_decide_eq_false_2 by done. rewrite bool_decide_eq_true_2 by done.
  unfold Pg.run_insert, Pg.insert_all, Pg.insert_vote. cbv beta zeta.
  change (row_get "poll_id" (voteRow pollId voter i sig)) with (Some (JString pollId)).
  change (row_get "user_id" (voteRow pollId voter i sig))
    with (Some (match voter with Some u => JString (id u) | None => JNull end)).
  change (row_get "option_index" (voteRow pollId voter i sig)) with (Some (toJSON i)).
  change (row_get "signature" (voteRow pollId voter i sig)) with (Some (JString sig)).
  replace (id <$> voter) with
    (match voter with Some u => Some (id u) | None => None end) by by destruct voter.
  destruct voter as [u|]; cbv iota beta.
  all: destruct i as [| |t|n| |]; cbn [toJSON from_option negb].
  all: try (destruct (Js.length sig >? 255); [by split; [|intros _ _ _ (? & ? & _)]|];
            destruct (Pg.votable st pollId); cbn [negb];
            by split; [|intros _ _ _ (? & ? & _)]).
  all: destruct (Pg.int4 n) eqn:En; cbn [negb];
    [|split; [done|]; intros _ _ _ (n' & [= <-] & E); congruence].
  all: destruct (Js.length sig >? 255) eqn:El;
    [split; [done|]; intros _ _ Hl _; arith_hyps; lia|].
  all: destruct (Pg.votable st pollId) eqn:Ev; cbn [negb]; [|by split].
  all: destruct (Pg.duplicate_signature st pollId (Some sig)) eqn:Ed;
    [split; done | cbn; exists n; done].
Qed.

Lemma duplicate_signature_false st pollId sig :
  Pg.duplicate_signature st pollId (Some sig) = false
  ↔ ∀ v, v ∈ Pg.vote_table st → Pg.vote_poll_id v = pollId → Pg.vote_signature v ≠ Some sig.
Proof.
  cbn. rewrite bool_decide_eq_false, Exists_exists. split.
  - intros Hno v Hv Hp Hs. apply Hno. by exists v.
  - intros Hno (v & Hv & Hp & Hs). by eapply Hno.
Qed.

End RelationalActions.

(** On the relational backend the identity is the session and a query is a
    statement run on the tables. *)
Ltac pg_facts :=
  repeat match goal with
  | E : backend_getUser _ = (_, _) |- _ =>
      cbn [backend_getUser Pg.supabase] in E; apply pair_equal_spec in E as [? ?]; subst
  | E : backend_execute ?t (select ?c ?f ?o ?s) ?d = (?r, ?d') |- _ =>
      change (Pg.execute t (select c f o s) d = (r, d')) in E;
      let Est := fresh "Estate" in
      pose proof (f_equal snd E) as Est; rewrite execute_select_state in Est;
      cbn [snd] in Est; subst
  | E : backend_execute ?t ?q ?d = (?r, ?d') |- _ =>
      change (Pg.execute t q d = (r, d')) in E
  end.

(** X18.  On the relational backend a vote that is accepted has stored
    exactly one new row at the end of [votes]: the poll, the signature handed
    in, the account of the session if there is one, and the index handed in,
    which is a number from 0 up to the largest 32-bit integer.  The poll is
    there and open to votes, the signature was not yet used on it, and
    [polls] is as it was. *)
Theorem submitVote_stores_one_vote (w : World Pg.State) (pollId : string)
    (optionIndex : JsValue) (voteSignature : option string) :
  let run := submitVote pollId optionIndex voteSignature w in
  ok run.1 = true →
  ∃ n sig,
    optionIndex = JsNum n ∧ 0 <= n < 2 ^ 31
    ∧ voteSignature = Some sig ∧ sig ≠ ""
    ∧ Pg.votable (db w) pollId = true
    ∧ (∀ v, v ∈ Pg.vote_table (db w) → Pg.vote_poll_id v = pollId →
            Pg.vote_signature v ≠ Some sig)
    ∧ Pg.vote_table (db run.2) = Pg.vote_table (db w) ++ [storedVote (db w) pollId n sig]
    ∧ Pg.poll_table (db run.2) = Pg.poll_table (db w).
Proof.
  intros run. subst run. unfold submitVote.
  action_cases; try done; intros _; pg_facts.
  all: apply truthy_Some in Esig as [-> Hsig].
  all: match type of Euser with
       | user _ = ?voter =>
           pose proof (execute_vote (db w) pollId voter optionIndex s) as Hv;
           assert (Hr : Pg.execute "votes" (insert [voteRow pollId voter optionIndex s]) (db w)
                        = (pr0, d1)) by exact Eq0
       end;
    cbv zeta in Hv; rewrite Hr in Hv;
    cbn [fst snd] in Hv; rewrite Edata_error in Hv;
    destruct Hv as (n & -> & Hint & Hvotable & Hdup & ->).
  all: exists n, s; cbn in Eindex; unfold Pg.int4 in Hint; arith_hyps.
  all: apply andb_true_iff in Hint as [_ Hint]; arith_hyps.
  all: split; [done|]; split; [lia|]; split; [done|]; split; [done|]; split; [done|].
  all: split; [by apply duplicate_signature_false|].
  all: split; [|done].
  all: cbn [Pg.vote_table]; unfold storedVote, Pg.auth_uid; by rewrite Euser.
Qed.

Lemma submitVote_stores_one_vote_witness :
  let w := request (database anonymous [colors] [] 1) in
  Pg.vote_table (db (submitVote "id-0" (JsNum 1) (Some sig1) w).2)
  = [storedVote (db w) "id-0" 1 sig1].
Proof.
  intros w.
  destruct (submitVote_stores_one_vote w "id-0" (JsNum 1) (Some sig1))
    as (n & sig & [= <-] & _ & [= <-] & _ & _ & _ & Hv & _).
  { vm_compute. reflexivity. }
  exact Hv.
Defined.

(** X19.  On the relational backend a vote under a signature that is
    already stored for the poll never succeeds and changes nothing, whatever
    option it names and whoever sends it. *)
Theorem duplicate_vote_refused (w : World Pg.State) (pollId : string)
    (optionIndex : JsValue) (sig : string) (v : Pg.VoteRow) :
  v ∈ Pg.vote_table (db w) → Pg.vote_poll_id v = pollId → Pg.vote_signature v = Some sig →
  let run := submitVote pollId optionIndex (Some sig) w in
  ok run.1 = false ∧ db run.2 = db w.
Proof.
  intros Hv Hp Hs run. subst run.
  assert (Hdup' : Pg.duplicate_signature (db w) pollId (Some sig) = true).
  { apply duplicate_signature_spec, list_elem_of_omap. exists v. split; [done|].
    unfold vote_key. by rewrite Hs, Hp. }
  clear v Hv Hp Hs. unfold submitVote.
  action_cases; pg_facts; try done.
  all: apply truthy_Some in Esig as [[= <-] Hsig].
  all: match type of Euser with
       | user _ = ?voter =>
           pose proof (execute_vote (db w) pollId voter optionIndex sig) as Hx;
           assert (Hr : Pg.execute "votes" (insert [voteRow pollId voter optionIndex sig]) (db w)
                        = (pr0, d1)) by exact Eq0
       end;
    cbv zeta in Hx; rewrite Hr in Hx;
    cbn [fst snd] in Hx; rewrite Edata_error in Hx.
  all: try (by destruct Hx as [-> _]).
  all: destruct Hx as (n & _ & _ & _ & Hdup & _); congruence.
Qed.

(** The second vote of the end-to-end run, for another option. *)
Lemma duplicate_vote_refused_witness :
  let voted := database anonymous [colors] [storedVote (database anonymous [colors] [] 1) "id-0" 0 sig1] 2 in
  ok (submitVote "id-0" (JsNum 1) (Some sig1) (request voted)).1 = false
  ∧ db (submitVote "id-0" (JsNum 1) (Some sig1) (request voted)).2 = voted.
Proof.
  intros voted.
  apply (duplicate_vote_refused (request voted) "id-0" (JsNum 1) sig1
           (storedVote (database anonymous [colors] [] 1) "id-0" 0 sig1)).
  - apply list_elem_of_singleton. reflexivity.
  - reflexivity.
  - reflexivity.
Defined.

Section RelationalQueries.

Implicit Types (st : Pg.State) (w : World Pg.State) (u : User) (p : Pg.PollRow).

Lemma matches_pollOf pollId u p :
  Pg.matches (ownerFilter pollId u) (Pg.poll_json p) ↔ pollOf pollId u p.
Proof. rewrite Is_true_true. apply matches_id_owner. Qed.

Lemma targeted_pollOf st pollId u p :
  Pg.session st = signedIn u →
  Pg.targeted st (ownerFilter pollId u) p ↔ pollOf pollId u p.
Proof.
  intros Hs. unfold Pg.targeted, Pg.owned, Pg.auth_uid. rewrite Hs. cbn [user signedIn fmap option_fmap option_map].
  rewrite andb_True, bool_decide_spec, matches_pollOf. unfold pollOf.
  split; [by intros [_ ?]|]. intros [? E]. split; [by rewrite E|done].
Qed.

Lemma filter_poll_json pollId u (l : list Pg.PollRow) :
  filter (λ r, Pg.matches (ownerFilter pollId u) r) (Pg.poll_json <$> l)
  = Pg.poll_json <$> filter (pollOf pollId u) l.
Proof.
  induction l as [|p l IH]; [done|].
  rewrite fmap_cons, !filter_cons, IH.
  destruct (decide (pollOf pollId u p)) as [Hp|Hp];
    destruct (decide (Pg.matches (ownerFilter pollId u) (Pg.poll_json p))) as [Hm|Hm];
    try done; by apply matches_pollOf in Hm || (exfalso; apply Hm, matches_pollOf).
Qed.

Lemma mapM_project_all (columns : list string) (rows : list Row) :
  mapM (Pg.project columns "*") rows = Some rows.
Proof.
  rewrite <- (list_fmap_id rows) at 1. by apply mapM_fmap_Some.
Qed.

(** The owner's read of one poll. *)
Lemma select_own st pollId u :
  Pg.execute "polls" (select "*" (ownerFilter pollId u) None true) st
  = (Pg.answer true (Pg.poll_json <$> filter (pollOf pollId u) (Pg.poll_table st)), st).
Proof.
  unfold Pg.execute. rewrite bool_decide_eq_true_2 by done.
  unfold Pg.run_select.
  change (Pg.known_columns Pg.poll_columns (ownerFilter pollId u)) with true.
  cbn [negb Pg.ordered]. by rewrite filter_poll_json, mapM_project_all.
Qed.

Lemma patch_pollValues q os p :
  Pg.patch (pollValues q os) p = Some (editedPoll q os p).
Proof. reflexivity. Qed.

(** The owner's update. *)
Lemma update_own st pollId u q os :
  Pg.session st = signedIn u →
  Pg.execute "polls" (update (pollValues q os) (ownerFilter pollId u)) st
  = (Pg.succeeded (array (Pg.poll_json <$>
                            (editedPoll q os <$> filter (pollOf pollId u) (Pg.poll_table st)))),
     {| Pg.session := Pg.session st;
        Pg.poll_table :=
          (λ p, if decide (pollOf pollId u p) then editedPoll q os p else p)
            <$> Pg.poll_table st;
        Pg.vote_table := Pg.vote_table st; Pg.serial := Pg.serial st |}).
Proof.
  intros Hs. unfold Pg.execute. rewrite bool_decide_eq_true_2 by done.
  unfold Pg.update_polls.
  change (Pg.known_columns Pg.poll_columns (ownerFilter pollId u)) with true.
  cbn [negb].
  assert (Hm : mapM (λ p, if Pg.targeted st (ownerFilter pollId u) p
                          then Pg.patch (pollValues q os) p else Some p) (Pg.poll_table st)
               = Some ((λ p, if decide (pollOf pollId u p) then editedPoll q os p else p)
                         <$> Pg.poll_table st)).
  { apply mapM_Some_2, Forall2_fmap_r, Forall_Forall2_diag, Forall_forall.
    intros p _. unfold compose. pose proof (targeted_pollOf st pollId u p Hs) as Ht.
    destruct (Pg.targeted st (ownerFilter pollId u) p); destruct (decide (pollOf pollId u p));
      try done; exfalso; cbn in Ht; tauto. }
  rewrite Hm.
  assert (Ho : omap (λ p, if Pg.targeted st (ownerFilter pollId u) p
                          then Pg.patch (pollValues q os) p else None) (Pg.poll_table st)
               = editedPoll q os <$> filter (pollOf pollId u) (Pg.poll_table st)).
  { generalize (Pg.poll_table st). intros l.
    induction l as [|p l IH]; [done|]. rewrite filter_cons. csimpl. rewrite IH.
    pose proof (targeted_pollOf st pollId u p Hs) as Ht.
    destruct (Pg.targeted st (ownerFilter pollId u) p); destruct (decide (pollOf pollId u p));
      try done; exfalso; cbn in Ht; tauto. }
  by rewrite Ho.
Qed.

(** The owner's delete, with the cascade to the votes of the polls that go. *)
Lemma delete_own st pollId u :
  Pg.session st = signedIn u →
  Pg.execute "polls" (delete (ownerFilter pollId u)) st
  = (Pg.succeeded (array (Pg.poll_json <$> filter (pollOf pollId u) (Pg.poll_table st))),
     {| Pg.session := Pg.session st;
        Pg.poll_table := filter (λ p, ¬ pollOf pollId u p) (Pg.poll_table st);
        Pg.vote_table :=
          filter (λ v, Pg.vote_poll_id v ∉
                       Pg.poll_id <$> filter (pollOf pollId u) (Pg.poll_table st))
                 (Pg.vote_table st);
        Pg.serial := Pg.serial st |}).
Proof.
  intros Hs. unfold Pg.execute. rewrite bool_decide_eq_true_2 by done.
  unfold Pg.delete_polls.
  change (Pg.known_columns Pg.poll_columns (ownerFilter pollId u)) with true.
  cbn [negb].
  assert (Hgone : filter (λ p, Pg.targeted st (ownerFilter pollId u) p) (Pg.poll_table st)
                  = filter (pollOf pollId u) (Pg.poll_table st)).
  { apply list_filter_iff. intros p. by apply targeted_pollOf. }
  rewrite Hgone. do 2 f_equal.
  apply list_filter_iff. intros p.
  rewrite <- (targeted_pollOf st pollId u p Hs).
  destruct (Pg.targeted st (ownerFilter pollId u) p); cbn; tauto.
Qed.

(** The insert of [createPoll]. *)
Lemma execute_poll st u q os :
  let r := Pg.execute "polls" (insert [pollRow u q os]) st in
  match data_error r.1 with
  | None =>
      Pg.auth_uid st = Some (id u)
      ∧ r.2 = {| Pg.session := Pg.session st;
                 Pg.poll_table := Pg.poll_table st ++ [storedPoll st u q os];
                 Pg.vote_table := Pg.vote_table st;
                 Pg.serial := S (Pg.serial st) |}
  | Some e => r.2 = st
  end.
Proof.
  intros r. subst r. unfold Pg.execute. rewrite bool_decide_eq_true_2 by done.
  unfold Pg.run_insert, Pg.insert_all, Pg.insert_poll. cbv beta zeta.
  change (row_get "user_id" (pollRow u q os)) with (Some (JString (id u))).
  change (row_get "question" (pollRow u q os)) with (Some (JString q)).
  change (row_get "options" (pollRow u q os)) with (Some (JStrings os)).
  cbv beta iota.
  case_bool_decide as Hp; cbn [negb]; [|done].
  destruct Hp as [_ Hp]. cbn. done.
Qed.

Lemma no_rows_array (rows : list Row) : no_rows (array rows) = true ↔ rows = [].
Proof. by destruct rows. Qed.

End RelationalQueries.

Section RelationalEffects.

Implicit Types (st : Pg.State) (w : World Pg.State) (u : User) (p : Pg.PollRow).

Lemma filter_nil_Forall {A} (P : A → Prop) `{∀ x, Decision (P x)} (l : list A) :
  filter P l = [] → Forall (λ x, ¬ P x) l.
Proof.
  induction l as [|x l IH]; [done|]. rewrite filter_cons.
  destruct (decide (P x)); [done|]. intros E. constructor; auto.
Qed.

Lemma state_eta st :
  {| Pg.session := Pg.session st; Pg.poll_table := Pg.poll_table st;
     Pg.vote_table := Pg.vote_table st; Pg.serial := Pg.serial st |} = st.
Proof. by destruct st. Qed.

(** An update or a delete by id and owner that finds no such poll leaves the
    tables as they are. *)
Lemma update_own_none st pollId u q os :
  Pg.session st = signedIn u → filter (pollOf pollId u) (Pg.poll_table st) = [] →
  (Pg.execute "polls" (update (pollValues q os) (ownerFilter pollId u)) st).2 = st.
Proof.
  intros Hs Hnone. rewrite (update_own st pollId u q os Hs). cbn [snd].
  rewrite <- (state_eta st) at 5. f_equal.
  apply filter_nil_Forall in Hnone.
  induction Hnone as [|p l Hp _ IH]; [done|]. rewrite fmap_cons, IH.
  by destruct (decide (pollOf pollId u p)).
Qed.

Lemma delete_own_none st pollId u :
  Pg.session st = signedIn u → filter (pollOf pollId u) (Pg.poll_table st) = [] →
  (Pg.execute "polls" (delete (ownerFilter pollId u)) st).2 = st.
Proof.
  intros Hs Hnone. rewrite (delete_own st pollId u Hs). cbn [snd].
  rewrite <- (state_eta st) at 5. rewrite Hnone. f_equal.
  - apply filter_all. by apply filter_nil_Forall in Hnone.
  - apply filter_all, Forall_forall. intros v _. apply not_elem_of_nil.
Qed.

Lemma json_le_total (a b : Json) : Pg.json_le a b ∨ Pg.json_le b a.
Proof.
  destruct a, b; cbn; auto; [|lia].
  unfold String.le. destruct (String.leb_total s s0) as [->| ->]; auto.
Qed.

Global Instance row_le_total column ascending : Total (Pg.row_le column ascending).
Proof. intros r1 r2. unfold Pg.row_le. destruct ascending; apply json_le_total. Qed.

(** The list of the polls of a user, newest first. *)
Lemma select_mine st u :
  Pg.execute "polls"
    (select "*" [eq_ "user_id" (JString (id u))] (Some ("created_at", false)) false) st
  = (Pg.succeeded (array (merge_sort (Pg.row_le "created_at" false)
       (Pg.poll_json <$> filter (λ p, Pg.poll_user_id p = id u) (Pg.poll_table st)))), st).
Proof.
  unfold Pg.execute. rewrite bool_decide_eq_true_2 by done.
  unfold Pg.run_select.
  change (Pg.known_columns Pg.poll_columns [eq_ "user_id" (JString (id u))]) with true.
  cbn [negb Pg.ordered].
  assert (Hf : filter (λ r, Pg.matches [eq_ "user_id" (JString (id u))] r)
                 (Pg.poll_json <$> Pg.poll_table st)
               = Pg.poll_json <$> filter (λ p, Pg.poll_user_id p = id u) (Pg.poll_table st)).
  { generalize (Pg.poll_table st). intros l.
    induction l as [|p l IH]; [done|].
    rewrite fmap_cons, !filter_cons, IH.
    assert (Hm : Pg.matches [eq_ "user_id" (JString (id u))] (Pg.poll_json p)
                 ↔ Pg.poll_user_id p = id u).
    { unfold Pg.matches. cbn [forallb Pg.satisfies].
      change (row_get "user_id" (Pg.poll_json p)) with (Some (JString (Pg.poll_user_id p))).
      rewrite andb_True, andb_True, bool_decide_spec, negb_True, bool_decide_spec.
      split; [intros [[? _] _]; by simplify_eq|]. intros ->. done. }
    destruct (decide (Pg.poll_user_id p = id u));
      destruct (decide (Pg.matches [eq_ "user_id" (JString (id u))] (Pg.poll_json p)));
      try done; exfalso; tauto. }
  rewrite Hf, mapM_project_all. done.
Qed.

(** The owner reads her poll. *)
Lemma getPollById_own w u pollId p :
  Pg.session (db w) = signedIn u →
  filter (pollOf pollId u) (Pg.poll_table (db w)) = [p] →
  (getPollById pollId w).1 = {| poll := object (Pg.poll_json p); poll_error := None |}.
Proof.
  intros Hs Hf. unfold getPollById, bind, auth_getUser, from, ret.
  cbn [backend_getUser backend_execute Pg.supabase db].
  rewrite Hs. cbn [user user_error signedIn db].
  change (Pg.execute "polls"
            (select "*" [eq_ "id" (JString pollId); eq_ "user_id" (JString (id u))] None true)
            (db w))
    with (Pg.execute "polls" (select "*" (ownerFilter pollId u) None true) (db w)).
  rewrite select_own, Hf. reflexivity.
Qed.

End RelationalEffects.

(** Read the answer of a statement of the relational backend off the
    lemma that gives it. *)
Ltac pg_answer E H :=
  match type of E with
  | Pg.execute ?t ?q ?d = (?r, ?d') =>
      match type of H with
      | Pg.execute ?t' ?q' ?d'' = _ =>
          let Hr := fresh "Hr" in
          assert (Hr : Pg.execute t' q' d'' = (r, d')) by exact E;
          rewrite H in Hr; apply pair_equal_spec in Hr as [? ?]; subst r d'
      end
  end.

(** X20.  On the relational backend a successful [createPoll] has added one
    poll at the end of [polls]: owned by the user of the session, holding the
    sanitized question and options of the form, which keep the rules, and
    open to votes; [votes] is as it was.  The owner then reads that very poll
    back through [getPollById]. *)
Theorem createPoll_then_read (w : World Pg.State) (formData : FormData) :
  let run := createPoll formData w in
  ok run.1 = true →
  ∃ u,
    let new := storedPoll (db w) u (postedQuestion formData) (postedOptions formData) in
    Pg.session (db w) = signedIn u
    ∧ valid_poll (postedQuestion formData) (postedOptions formData)
    ∧ Pg.poll_table (db run.2) = Pg.poll_table (db w) ++ [new]
    ∧ Pg.vote_table (db run.2) = Pg.vote_table (db w)
    ∧ (Pg.poll_id new ∉ Pg.poll_id <$> Pg.poll_table (db w) →
       ∀ w2, db w2 = db run.2 →
         (getPollById (Pg.poll_id new) w2).1
         = {| poll := object (Pg.poll_json new); poll_error := None |}).
Proof.
  intros run. subst run. unfold createPoll.
  action_cases; try done; intros _; pg_facts.
  apply safeParse_posted in Eparse as (-> & -> & Hvalid).
  pose proof (signedIn_eq _ _ Euser Euser_error) as Hs.
  pose proof (execute_poll (db w) u (postedQuestion formData) (postedOptions formData)) as Hx.
  cbv zeta in Hx.
  assert (Hr : Pg.execute "polls"
                 (insert [pollRow u (postedQuestion formData) (postedOptions formData)]) (db w)
               = (pr, d0)) by exact Eq.
  rewrite Hr in Hx. cbn [fst snd] in Hx. rewrite Edata_error in Hx.
  destruct Hx as [_ ->]. exists u. cbv zeta.
  split; [done|]. split; [done|]. split; [done|]. split; [done|].
  intros Hfresh w2 Hw2.
  apply (getPollById_own w2 u); rewrite Hw2; [done|].
  cbn [Pg.poll_table]. rewrite filter_app, filter_none.
  - rewrite filter_cons_True; done.
  - apply Forall_forall. intros p Hp [Hid _]. apply Hfresh.
    rewrite <- Hid. apply list_elem_of_fmap. by exists p.
Qed.

Lemma createPoll_then_read_witness :
  let w := request (database (signedIn alice) [] [] 0) in
  (getPollById "id-0" (request (db (createPoll colorsForm w).2))).1
  = {| poll := object (Pg.poll_json colors); poll_error := None |}.
Proof.
  intros w.
  destruct (createPoll_then_read w colorsForm) as (u & Hs & _ & _ & _ & Hread).
  { vm_compute. reflexivity. }
  injection Hs as <-.
  apply (Hread (not_elem_of_nil _)). reflexivity.
Defined.

(** X21.  On the relational backend a successful [updatePoll] has replaced
    the question and the options of the caller's poll of that id by the
    sanitized, valid texts of the form.  Identifier, owner and creation time
    stay, every other poll stays, and so do all votes, also those for
    options the poll no longer has. *)
Theorem updatePoll_edits_own_poll (w : World Pg.State) (pollId : string)
    (formData : FormData) :
  let run := updatePoll pollId formData w in
  let q := postedQuestion formData in
  let os := postedOptions formData in
  ok run.1 = true →
  ∃ u,
    Pg.session (db w) = signedIn u
    ∧ valid_poll q os
    ∧ (∃ p, p ∈ Pg.poll_table (db w) ∧ pollOf pollId u p)
    ∧ Pg.poll_table (db run.2)
      = (λ p, if decide (pollOf pollId u p) then editedPoll q os p else p)
          <$> Pg.poll_table (db w)
    ∧ Pg.vote_table (db run.2) = Pg.vote_table (db w).
Proof.
  intros run q os. subst run q os. unfold updatePoll.
  action_cases; try done; intros _; pg_facts.
  apply safeParse_posted in Eparse as (-> & -> & Hvalid).
  pose proof (signedIn_eq _ _ Euser Euser_error) as Hs.
  pose proof (update_own (db w) pollId u (postedQuestion formData) (postedOptions formData) Hs)
    as Hx.
  pg_answer Eq Hx. exists u.
  split; [done|]. split; [done|]. split; [|done].
  cbn [data Pg.succeeded] in Erows.
  destruct (filter (pollOf pollId u) (Pg.poll_table (db w))) as [|p l] eqn:Ef; [done|].
  assert (Hp : p ∈ filter (pollOf pollId u) (Pg.poll_table (db w))) by (rewrite Ef; left).
  apply list_elem_of_filter in Hp as [Hp Hin]. by exists p.
Qed.

Lemma updatePoll_edits_own_poll_witness :
  let w := request (database (signedIn alice) [colors] [] 1) in
  let form := [ ("question", JsStr "Which color do you like?");
                ("options", JsStr "Green"); ("options", JsStr "<b>Pink</b>") ] in
  Pg.poll_table (db (updatePoll "id-0" form w).2)
  = [editedPoll "Which color do you like?" ["Green"; "bPink/b"] colors].
Proof.
  intros w form.
  destruct (updatePoll_edits_own_poll w "id-0" form) as (u & Hs & _ & _ & Hp & _).
  { vm_compute. reflexivity. }
  injection Hs as <-. exact Hp.
Defined.

(** X22.  On the relational backend a successful [deletePoll] has removed
    the caller's poll of that id and, with it, the votes cast on it; every
    other poll and every other vote stays. *)
Theorem deletePoll_removes_own_poll (w : World Pg.State) (pollId : string) :
  let run := deletePoll pollId w in
  ok run.1 = true →
  ∃ u,
    Pg.session (db w) = signedIn u
    ∧ (∃ p, p ∈ Pg.poll_table (db w) ∧ pollOf pollId u p)
    ∧ Pg.poll_table (db run.2) = filter (λ p, ¬ pollOf pollId u p) (Pg.poll_table (db w))
    ∧ Pg.vote_table (db run.2)
      = filter (λ v, Pg.vote_poll_id v ≠ pollId) (Pg.vote_table (db w)).
Proof.
  intros run. subst run. unfold deletePoll.
  action_cases; try done; intros _; pg_facts.
  pose proof (signedIn_eq _ _ Euser Euser_error) as Hs.
  pose proof (delete_own (db w) pollId u Hs) as Hx.
  pg_answer Eq Hx. exists u.
  cbn [data Pg.succeeded] in Erows.
  destruct (filter (pollOf pollId u) (Pg.poll_table (db w))) as [|p l] eqn:Ef; [done|].
  assert (Hp : p ∈ filter (pollOf pollId u) (Pg.poll_table (db w))) by (rewrite Ef; left).
  apply list_elem_of_filter in Hp as [Hp Hin].
  split; [done|]. split; [by exists p|]. split; [done|].
  cbn [Pg.vote_table]. apply list_filter_iff. intros v.
  rewrite list_elem_of_fmap. split.
  - intros Hno E. apply Hno. exists p. split; [by rewrite E; destruct Hp|left].
  - intros Hne (p' & E & Hp'). rewrite <- Ef in Hp'.
    apply list_elem_of_filter in Hp' as [[? _] _]. congruence.
Qed.

Lemma deletePoll_removes_own_poll_witness :
  let w := request (database (signedIn alice) [colors]
                      [storedVote (database anonymous [colors] [] 1) "id-0" 0 sig1] 2) in
  Pg.poll_table (db (deletePoll "id-0" w).2) = []
  ∧ Pg.vote_table (db (deletePoll "id-0" w).2) = [].
Proof.
  intros w.
  destruct (deletePoll_removes_own_poll w "id-0") as (u & Hs & _ & Hp & Hv).
  { vm_compute. reflexivity. }
  injection Hs as <-. rewrite Hp, Hv. split; vm_compute; reflexivity.
Defined.

(** X23.  On the relational backend an action that fails has changed
    nothing in the tables, and the two reads never change anything. *)
Theorem failed_actions_change_nothing (w : World Pg.State) (pollId : string)
    (formData : FormData) (optionIndex : JsValue) (voteSignature : option string) :
  Forall (λ run : ActionResult * World Pg.State, ok run.1 = false → db run.2 = db w)
    [ createPoll formData w; updatePoll pollId formData w; deletePoll pollId w;
      submitVote pollId optionIndex voteSignature w ]
  ∧ db (getUserPolls w).2 = db w
  ∧ db (getPollById pollId w).2 = db w.
Proof.
  split; [|split].
  - repeat apply Forall_cons_2; [| | | |apply Forall_nil_2].
    + unfold createPoll. action_cases; try done; intros _; pg_facts; try done.
      pose proof (execute_poll (db w) u (postedQuestion formData) (postedOptions formData))
        as Hx. cbv zeta in Hx.
      apply safeParse_posted in Eparse as (-> & -> & _).
      assert (Hr : Pg.execute "polls"
                     (insert [pollRow u (postedQuestion formData) (postedOptions formData)])
                     (db w) = (pr, d0)) by exact Eq.
      rewrite Hr in Hx. cbn [fst snd] in Hx. by rewrite Edata_error in Hx.
    + unfold updatePoll. action_cases; try done; intros _; pg_facts; try done.
      all: pose proof (signedIn_eq _ _ Euser Euser_error) as Hs.
      all: apply safeParse_posted in Eparse as (-> & -> & _).
      all: pose proof (update_own (db w) pollId u (postedQuestion formData)
                         (postedOptions formData) Hs) as Hx.
      all: pg_answer Eq Hx; try done.
      cbn [data Pg.succeeded] in Erows. apply no_rows_array in Erows.
      apply fmap_nil_inv, fmap_nil_inv in Erows.
      pose proof (update_own_none (db w) pollId u (postedQuestion formData)
                    (postedOptions formData) Hs Erows) as Hnone.
      by rewrite (update_own _ _ _ _ _ Hs) in Hnone.
    + unfold deletePoll. action_cases; try done; intros _; pg_facts; try done.
      all: pose proof (signedIn_eq _ _ Euser Euser_error) as Hs.
      all: pose proof (delete_own (db w) pollId u Hs) as Hx.
      all: pg_answer Eq Hx; try done.
      cbn [data Pg.succeeded] in Erows. apply no_rows_array in Erows.
      apply fmap_nil_inv in Erows.
      pose proof (delete_own_none (db w) pollId u Hs Erows) as Hnone.
      by rewrite (delete_own _ _ _ Hs) in Hnone.
    + unfold submitVote. action_cases; try done; intros _; pg_facts; try done.
      all: apply truthy_Some in Esig as [-> Hsig].
      all: match type of Euser with
           | user _ = ?voter =>
               pose proof (execute_vote (db w) pollId voter optionIndex s) as Hx;
               assert (Hr : Pg.execute "votes"
                              (insert [voteRow pollId voter optionIndex s]) (db w)
                            = (pr0, d1)) by exact Eq0
           end;
        cbv zeta in Hx; rewrite Hr in Hx; cbn [fst snd] in Hx; rewrite Edata_error in Hx;
        by destruct Hx as [-> _].
  - unfold getUserPolls. action_cases; pg_facts; done.
  - unfold getPollById. action_cases; pg_facts; done.
Qed.

(** X24.  On the relational backend [getUserPolls] answers a signed-in
    caller with exactly the polls that caller owns, each once, ordered by
    creation time with the newest first, and with no error. *)
Theorem getUserPolls_own (w : World Pg.State) (u : User) :
  user (Pg.session (db w)) = Some u →
  ∃ rows,
    (getUserPolls w).1 = {| polls := array rows; polls_error := None |}
    ∧ rows ≡ₚ Pg.poll_json <$> filter (λ p, Pg.poll_user_id p = id u) (Pg.poll_table (db w))
    ∧ Sorted (Pg.row_le "created_at" false) rows.
Proof.
  intros Hu. unfold getUserPolls, bind, auth_getUser, from, ret.
  cbn [backend_getUser backend_execute Pg.supabase db]. rewrite Hu.
  rewrite select_mine. cbn [data data_error Pg.succeeded fst].
  eexists. split; [reflexivity|]. split.
  - apply merge_sort_Permutation.
  - apply (Sorted_merge_sort _).
Qed.

(** Alice and Bob each have polls; Alice is shown hers, the later one
    first. *)
Lemma getUserPolls_own_witness :
  let later := {| Pg.poll_id := "id-2"; Pg.poll_question := "Which season do you like?";
                  Pg.poll_options := ["Summer"; "Winter"]; Pg.poll_user_id := "user-alice";
                  Pg.poll_created_at := 2; Pg.poll_is_active := Some true |} in
  let other := {| Pg.poll_id := "id-1"; Pg.poll_question := "Tabs or spaces, dear reader?";
                  Pg.poll_options := ["Tabs"; "Spaces"]; Pg.poll_user_id := "user-bob";
                  Pg.poll_created_at := 1; Pg.poll_is_active := Some true |} in
  let w := request (database (signedIn alice) [colors; other; later] [] 3) in
  (getUserPolls w).1
  = {| polls := array [Pg.poll_json later; Pg.poll_json colors]; polls_error := None |}.
Proof.
  intros later other w.
  destruct (getUserPolls_own w alice eq_refl) as (rows & E & _ & _).
  rewrite E. vm_compute in E. injection E as <-. vm_compute. reflexivity.
Defined.

(** X25.  On the relational backend no action ever leaves two votes with
    the same signature on the same poll: whatever the six actions are given,
    the votes stay one per poll and signature. *)
Theorem actions_keep_signatures_unique (w : World Pg.State) (pollId : string)
    (formData : FormData) (optionIndex : JsValue) (voteSignature : option string) :
  unique_signatures (db w) →
  Forall (λ w' : World Pg.State, unique_signatures (db w'))
    [ (createPoll formData w).2; (updatePoll pollId formData w).2; (deletePoll pollId w).2;
      (submitVote pollId optionIndex voteSignature w).2; (getUserPolls w).2;
      (getPollById pollId w).2 ].
Proof.
  intros Hu.
  assert (Hstep : ∀ table q st r st',
            Pg.execute table q st = (r, st') → unique_signatures st → unique_signatures st').
  { intros table q st r st' E Hst. pose proof (execute_unique table q st Hst) as Hq.
    by rewrite E in Hq. }
  repeat apply Forall_cons_2; [| | | | | |apply Forall_nil_2].
  - unfold createPoll. action_cases; pg_facts; eauto.
  - unfold updatePoll. action_cases; pg_facts; eauto.
  - unfold deletePoll. action_cases; pg_facts; eauto.
  - unfold submitVote. action_cases; pg_facts; eauto.
  - unfold getUserPolls. action_cases; pg_facts; eauto.
  - unfold getPollById. action_cases; pg_facts; eauto.
Qed.

Lemma actions_keep_signatures_unique_witness :
  let voted := database anonymous [colors]
                 [storedVote (database anonymous [colors] [] 1) "id-0" 0 sig1] 2 in
  unique_signatures (db (submitVote "id-0" (JsNum 1) (Some sig2) (request voted)).2).
Proof.
  intros voted.
  assert (Hu : unique_signatures (db (request voted))).
  { apply (bool_decide_unpack _). vm_compute. reflexivity. }
  pose proof (actions_keep_signatures_unique (request voted) "id-0" [] (JsNum 1) (Some sig2) Hu)
    as Hall.
  apply Forall_cons in Hall as [_ Hall]. apply Forall_cons in Hall as [_ Hall].
  apply Forall_cons in Hall as [_ Hall]. apply Forall_cons in Hall as [Hvote _].
  exact Hvote.
Defined.

(** ** The results shown *)

Section Results.

Lemma totalVotes_sum (counts : list nat) : totalVotes counts = sum_list counts.
Proof.
  unfold totalVotes.
  assert (Hacc : ∀ a, foldl (λ sum count, (sum + count)%nat) a counts
                      = (a + sum_list counts)%nat).
  { induction counts as [|c cs IH]; intros a; cbn; [lia|]. rewrite IH. lia. }
  by rewrite Hacc.
Qed.

Lemma voteCounts_seq (options : list string) (votes : option (list Row)) :
  voteCounts options votes = countFor votes <$> seq 0 (length options).
Proof. apply imap_seq_0. Qed.

(** Summed over the indices from [i] on, a vote counts once when it names
    one of them. *)
Lemma indicator_sum (vote : Row) (n i : nat) :
  sum_list ((λ index, if decide (row_get "option_index" vote
                                 = Some (JNumber (Z.of_nat index))) then 1 else 0)%nat
              <$> seq i n)
  = match row_get "option_index" vote with
    | Some (JNumber k) =>
        if (Z.of_nat i <=? k) && (k <? Z.of_nat (i + n)) then 1%nat else 0%nat
    | _ => 0%nat
    end.
Proof.
  revert i. induction n as [|n IH]; intros i.
  - cbn. destruct (row_get "option_index" vote) as [[| |k| |]|]; try done.
    destruct (Z.of_nat i <=? k) eqn:E1, (k <? Z.of_nat (i + 0)) eqn:E2; try done.
    arith_hyps. lia.
  - cbn [seq fmap list_fmap sum_list]. change (list_fmap ?f ?l) with (f <$> l).
    rewrite IH.
    destruct (row_get "option_index" vote) as [[| |k| |]|]; try (by case_decide).
    case_decide as Hk.
    + injection Hk as Hk.
      repeat match goal with
             | |- context [?a <=? ?b] => destruct (a <=? b) eqn:?
             | |- context [?a <? ?b] => destruct (a <? b) eqn:?
             end; cbn [andb]; unfold Datatypes.id; arith_hyps; lia.
    + assert (k ≠ Z.of_nat i) by congruence.
      repeat match goal with
             | |- context [?a <=? ?b] => destruct (a <=? b) eqn:?
             | |- context [?a <? ?b] => destruct (a <? b) eqn:?
             end; cbn [andb]; unfold Datatypes.id; arith_hyps; lia.
Qed.

Lemma counts_sum (rows : list Row) (n : nat) :
  sum_list (countFor (Some rows) <$> seq 0 n) = length (filter (λ vote, inRange n vote) rows).
Proof.
  induction rows as [|vote rows IH].
  - cbn. induction (seq 0 n) as [|i l IHl]; [done|]. cbn. by rewrite IHl.
  - rewrite filter_cons.
    pose proof (indicator_sum vote n 0) as Hi.
    change (0 + n)%nat with n in Hi. change (Z.of_nat 0) with 0 in Hi.
    assert (Hsplit : sum_list (countFor (Some (vote :: rows)) <$> seq 0 n)
                     = (sum_list ((λ index, if decide (row_get "option_index" vote
                                               = Some (JNumber (Z.of_nat index)))
                                            then 1 else 0)%nat <$> seq 0 n)
                        + sum_list (countFor (Some rows) <$> seq 0 n))%nat).
    { generalize (seq 0 n). intros l. induction l as [|i l IHl]; [done|].
      cbn [fmap list_fmap sum_list]. change (list_fmap ?f ?l) with (f <$> l).
      rewrite IHl. unfold countFor at 1. rewrite filter_cons.
      unfold countFor at 2. case_decide; cbn [length]; unfold Datatypes.id; lia. }
    rewrite Hsplit, Hi, IH. unfold inRange.
    destruct (row_get "option_index" vote) as [[| |k| |]|]; try done.
    destruct ((0 <=? k) && (k <? Z.of_nat n)); cbn; done.
Qed.

End Results.

(** X26.  The results shown hold one count for each option, and their
    total is the number of votes that name one of the options: a stored
    vote whose index lies outside the options is counted nowhere, and when
    the votes cannot be read every count is zero. *)
Theorem voteCounts_total (options : list string) (rows : list Row) :
  length (voteCounts options (Some rows)) = length options
  ∧ totalVotes (voteCounts options (Some rows))
    = length (filter (λ vote, inRange (length options) vote) rows)
  ∧ (totalVotes (voteCounts options (Some rows)) ≤ length rows)%nat
  ∧ voteCounts options None = replicate (length options) 0%nat.
Proof.
  split; [|split; [|split]].
  - unfold voteCounts. by rewrite length_imap.
  - by rewrite totalVotes_sum, voteCounts_seq, counts_sum.
  - rewrite totalVotes_sum, voteCounts_seq, counts_sum. apply length_filter.
  - rewrite voteCounts_seq. cbn [countFor].
    generalize 0%nat at 1. induction (length options) as [|n IH]; intros i; [done|].
    cbn. by rewrite IH.
Qed.

(** ** The public page of a poll *)

Section PublicPage.

Lemma select_by_id (st : Pg.State) (id_ : string) :
  Pg.execute "polls" (select "*" [eq_ "id" (JString id_)] None true) st
  = (Pg.answer true (Pg.poll_json <$> filter (λ p, Pg.poll_id p = id_) (Pg.poll_table st)),
     st).
Proof.
  unfold Pg.execute. rewrite bool_decide_eq_true_2 by done.
  unfold Pg.run_select.
  change (Pg.known_columns Pg.poll_columns [eq_ "id" (JString id_)]) with true.
  cbn [negb Pg.ordered].
  assert (Hf : filter (λ r, Pg.matches [eq_ "id" (JString id_)] r)
                 (Pg.poll_json <$> Pg.poll_table st)
               = Pg.poll_json <$> filter (λ p, Pg.poll_id p = id_) (Pg.poll_table st)).
  { generalize (Pg.poll_table st). intros l.
    induction l as [|p l IH]; [done|].
    rewrite fmap_cons, !filter_cons, IH.
    assert (Hm : Pg.matches [eq_ "id" (JString id_)] (Pg.poll_json p) ↔ Pg.poll_id p = id_).
    { unfold Pg.matches. cbn [forallb Pg.satisfies].
      change (row_get "id" (Pg.poll_json p)) with (Some (JString (Pg.poll_id p))).
      rewrite andb_True, andb_True, bool_decide_spec, negb_True, bool_decide_spec.
      split; [intros [[? _] _]; by simplify_eq|]. intros ->. done. }
    destruct (decide (Pg.poll_id p = id_));
      destruct (decide (Pg.matches [eq_ "id" (JString id_)] (Pg.poll_json p)));
      try done; exfalso; tauto. }
  rewrite Hf, mapM_project_all. done.
Qed.

(** No policy lets the votes be read: the answer is an empty list. *)
Lemma select_votes (st : Pg.State) (pollId : string) :
  Pg.execute "votes" (select "option_index" [eq_ "poll_id" (JString pollId)] None false) st
  = (Pg.succeeded (array []), st).
Proof. reflexivity. Qed.

(** The signature of the page is read off the headers of the request and
    changes nothing. *)
Lemma voteSignature_reads_headers {DB} (secret params_id : string) :
  ∃ f : gmap string string → string,
    ∀ w : World DB, PublicPollPage_voteSignature secret params_id w = (f (requestHeaders w), w).
Proof.
  eexists (λ hs, generateVoteSignature secret params_id
                   (default "" (Js.truthy (hs !! "user-agent")))
                   (match Js.truthy (hs !! "x-forwarded-for") with
                    | Some forwardedFor => Some (Js.trim (Js.splitHead "," forwardedFor))
                    | None => None
                    end)).
  intros w. reflexivity.
Qed.

End PublicPage.

(** X27.  Whatever the backend, the public page of a poll asks for no
    identity and sends no write.  It looks the poll up by its id alone; an
    error or no poll is [notFound()], with no cookie set and no votes read.
    Otherwise it derives the signature and calls [cookieStore.set].  As a
    Server Component, which is how a page is rendered, it ends there with the
    error of that call: no cookie is set, the votes are not read, nothing is
    rendered.  Where cookies may be written it sets one cookie, named after
    the poll, scoped to the path of the poll, marked httpOnly and holding the
    signature of the request, and goes on to read the votes of the poll. *)
Theorem PublicPollPage_public `{Supabase DB} (w : World DB) (scope : RequestScope)
    (secret env params_id : string) :
  let run := PublicPollPage scope secret env params_id w in
  let lookup := select "*" [eq_ "id" (JString params_id)] None true in
  ∃ found,
    (backend_execute "polls" lookup (db w)).1 = found
    ∧ ((is_Some (data_error found) ∨ data found = null) →
       run.1 = (NotFound, []) ∧ exchanged w run.2 = [From "polls" lookup found])
    ∧ (data_error found = None → data found ≠ null →
       (scope = ServerComponent →
        run.1 = (ReadonlyRequestCookiesError, [])
        ∧ exchanged w run.2 = [From "polls" lookup found])
       ∧ (scope ≠ ServerComponent →
          ∃ votes,
            exchanged w run.2
            = [ From "polls" lookup found;
                From "votes"
                  (select "option_index" [eq_ "poll_id" (JString params_id)] None false)
                  votes ]
            ∧ run.1.1 ≠ NotFound ∧ run.1.1 ≠ ReadonlyRequestCookiesError
            ∧ run.1.2
              = [ {| cookie_name := "vote_sig_" +:+ params_id;
                     cookie_value := (PublicPollPage_voteSignature secret params_id w).1;
                     httpOnly := true;
                     secure := bool_decide (env = "production");
                     sameSite := "lax";
                     maxAge := 2592000;
                     cookie_path := "/poll/" +:+ params_id |} ])).
Proof.
  intros run lookup. subst run lookup.
  destruct (voteSignature_reads_headers (DB:=DB) secret params_id) as [f Hf].
  rewrite (Hf w). cbn [fst]. unfold PublicPollPage.
  action_step. exists pr. split; [done|].
  destruct (data_error pr) as [e|] eqn:Ee.
  - rewrite bool_decide_eq_true_2 by eauto. cbn [orb fst snd]. exchanged_simpl.
    split; [done|]. by intros.
  - rewrite bool_decide_eq_false_2 by (by intros [? ?]). cbn [orb].
    case_bool_decide as Hnull.
    + cbn [fst snd]. exchanged_simpl. split; [done|]. by intros.
    + split; [by intros [[? ?]|?]|]. intros _ _.
      rewrite Hf. cbn [requestHeaders].
      destruct scope; cbn [cookieStore_set app].
      * split; [|done]. intros _. cbn [fst snd]. by exchanged_simpl.
      * split; [done|]. intros _. action_step. exists pr0.
        destruct (data pr) as [|poll|rows]; [done| |].
        -- destruct (row_get "options" poll) as [[| | | |options]|];
             try (cbn [fst snd]; exchanged_simpl; by repeat split).
           destruct (data pr0) as [|r|rs], options as [|o options];
             cbn [fst snd]; exchanged_simpl; by repeat split.
        -- cbn [fst snd]. exchanged_simpl. by repeat split.
      * split; [done|]. intros _. action_step. exists pr0.
        destruct (data pr) as [|poll|rows]; [done| |].
        -- destruct (row_get "options" poll) as [[| | | |options]|];
             try (cbn [fst snd]; exchanged_simpl; by repeat split).
           destruct (data pr0) as [|r|rs], options as [|o options];
             cbn [fst snd]; exchanged_simpl; by repeat split.
        -- cbn [fst snd]. exchanged_simpl. by repeat split.
Qed.

(** A visitor opens the page of Alice's poll: rendered as a page it stops
    at the cookie, with nothing set and the votes not read. *)
Lemma PublicPollPage_public_witness :
  let w := request (database anonymous [colors] [] 1) in
  (PublicPollPage ServerComponent "secret" "production" "id-0" w).1
  = (ReadonlyRequestCookiesError, [])
  ∧ length (exchanged w (PublicPollPage ServerComponent "secret" "production" "id-0" w).2)
    = 1%nat.
Proof.
  intros w.
  destruct (PublicPollPage_public w ServerComponent "secret" "production" "id-0")
    as (found & E & _ & Hp).
  destruct Hp as [Hpage _].
  - by rewrite <- E.
  - by rewrite <- E.
  - destruct (Hpage eq_refl) as [Hrun Hx]. split; [exact Hrun|]. by rewrite Hx.
Defined.

(** X28.  On the relational backend, whose policies let anyone read a poll
    and no one read a vote: rendered as a page, the public page of an
    existing poll ends in the cookie error for every visitor and shows
    nothing; where the cookie may be written it shows the poll to any
    visitor, whoever owns it, with zero for every option, whatever votes are
    stored. *)
Theorem PublicPollPage_counts_unreadable (w : World Pg.State) (scope : RequestScope)
    (secret env : string) (p : Pg.PollRow) :
  filter (λ q, Pg.poll_id q = Pg.poll_id p) (Pg.poll_table (db w)) = [p] →
  (PublicPollPage scope secret env (Pg.poll_id p) w).1.1
  = if decide (scope = ServerComponent) then ReadonlyRequestCookiesError
    else Page {| props_poll := Pg.poll_json p;
                 props_voteCounts := replicate (length (Pg.poll_options p)) 0%nat;
                 props_pollId := Pg.poll_id p |}.
Proof.
  intros Hp.
  destruct (voteSignature_reads_headers (DB:=Pg.State) secret (Pg.poll_id p)) as [f Hf].
  unfold PublicPollPage, bind, from, ret.
  cbn [backend_execute Pg.supabase db].
  rewrite select_by_id, Hp. cbn [fmap list_fmap Pg.answer Pg.succeeded data data_error].
  rewrite bool_decide_eq_false_2 by (by intros [? ?]).
  rewrite bool_decide_eq_false_2 by done. cbn [orb].
  rewrite Hf. cbn [db].
  assert (Hzero : voteCounts (Pg.poll_options p) (Some [])
                  = replicate (length (Pg.poll_options p)) 0%nat).
  { rewrite voteCounts_seq. cbn [countFor filter list_filter length].
    generalize 0%nat at 1.
    induction (length (Pg.poll_options p)) as [|n IH]; intros i; [done|].
    cbn. by rewrite IH. }
  destruct scope; cbn [cookieStore_set]; [done| |];
    rewrite select_votes; cbn [data Pg.succeeded];
    change (row_get "options" (Pg.poll_json p)) with (Some (JStrings (Pg.poll_options p)));
    cbn [fst]; rewrite Hzero; by case_decide.
Qed.

(** One vote is stored for the first option of Alice's poll.  The page as
    it is rendered shows nothing; with the cookie written it would show no
    vote. *)
Lemma PublicPollPage_counts_unreadable_witness :
  let w := request (database anonymous [colors]
                      [storedVote (database anonymous [colors] [] 1) "id-0" 0 sig1] 2) in
  (PublicPollPage ServerComponent "secret" "production" "id-0" w).1.1
  = ReadonlyRequestCookiesError
  ∧ (PublicPollPage RouteHandler "secret" "production" "id-0" w).1.1
    = Page {| props_poll := Pg.poll_json colors; props_voteCounts := [0; 0]%nat;
              props_pollId := "id-0" |}.
Proof.
  intros w. split.
  - apply (PublicPollPage_counts_unreadable w ServerComponent "secret" "production" colors).
    reflexivity.
  - apply (PublicPollPage_counts_unreadable w RouteHandler "secret" "production" colors).
    reflexivity.
Defined.

(** ** The address the limiter counts by *)

Lemma splitHead_none (sep : ascii) (s : string) :
  sep ∉ chars s → Js.splitHead sep s = s.
Proof.
  induction s as [|c s IH]; [done|]. cbn. intros Hs.
  rewrite bool_decide_eq_false_2.
  - f_equal. apply IH. intros Hin. apply Hs. by right.
  - intros ->. apply Hs. left.
Qed.

(** X29.  The limiter counts by the address the request itself states: a
    sender who puts an address into [x-forwarded-for] is counted under that
    address, and is granted the request whenever nothing is counted under it
    yet, however many requests were counted under the address used before. *)
Theorem forwarded_header_chooses_bucket {DB} (w : World DB) (action ip : string) :
  ip ≠ "" → ","%char ∉ chars ip → Js.trim ip = ip →
  let w' := with_header "x-forwarded-for" ip w in
  (getClientIP w').1 = ip
  ∧ rateLimitKey w' action = ip +:+ ":" +:+ action
  ∧ (rateLimitStore w !! (ip +:+ ":" +:+ action) = None →
     (rateLimitCheck action w').1 = granted).
Proof.
  intros Hne Hcomma Htrim w'.
  assert (Hip : (getClientIP w').1 = ip).
  { unfold getClientIP, bind, headers, ret, w', with_header. cbn [requestHeaders].
    rewrite lookup_insert_eq, (truthy_of_nonempty ip Hne). cbn [fst].
    by rewrite (splitHead_none _ _ Hcomma). }
  assert (Hkey : rateLimitKey w' action = ip +:+ ":" +:+ action).
  { unfold rateLimitKey. by rewrite Hip. }
  split; [done|]. split; [done|]. intros Hnone.
  unfold rateLimitCheck, bind. rewrite checkRateLimit_eq. cbv zeta.
  rewrite Hkey. change (rateLimitStore w') with (rateLimitStore w). by rewrite Hnone.
Qed.

(** Twenty deletions are counted under the address of the request; the same
    request, stating another address, is granted. *)
Lemma forwarded_header_chooses_bucket_witness :
  let w := mkWorld {[ "203.0.113.7:deletePoll" := {| count := 20; resetTime := 60500 |} ]}
             {[ "x-forwarded-for" := "203.0.113.7" ]} 1000
             (database (signedIn alice) [colors] [] 1) [] [] [] in
  (rateLimitCheck "deletePoll" w).1 = rateLimited
  ∧ (rateLimitCheck "deletePoll" (with_header "x-forwarded-for" "198.51.100.9" w)).1 = granted.
Proof.
  intros w. split; [vm_compute; reflexivity|].
  apply (forwarded_header_chooses_bucket w "deletePoll" "198.51.100.9").
  - discriminate.
  - apply (bool_decide_unpack _). vm_compute. reflexivity.
  - reflexivity.
  - reflexivity.
Defined.

(** ** The edit page *)

(** X30.  The edit page sends no write, whatever the backend.  On the
    relational backend it hands a poll to the edit form exactly when the
    caller is signed in and that poll is the caller's poll of the requested
    id; a poll of someone else and a poll that does not exist both end in
    [notFound()]. *)
Theorem EditPollPage_owner_only :
  (∀ DB (backend : Supabase DB) (w : World DB) (params_id : string),
     mutations (exchanged w (EditPollPage params_id w).2) = [])
  ∧ (∀ (w : World Pg.State) (params_id : string) (d : Data),
       (EditPollPage params_id w).1 = Page d
       ↔ ∃ u p, Pg.session (db w) = signedIn u
                ∧ filter (pollOf params_id u) (Pg.poll_table (db w)) = [p]
                ∧ d = object (Pg.poll_json p)).
Proof.
  split.
  - intros DB backend w params_id. unfold EditPollPage, bind at 1. unfold getPollById.
    action_cases; cbn [poll poll_error];
      repeat (case_bool_decide; cbn [orb]); unfold ret; cbn [snd]; by exchanged_simpl.
  - intros w params_id d. split.
    + unfold EditPollPage, bind at 1.
      destruct (Pg.session (db w)) as [[u|] [e|]] eqn:Hs;
        try (unfold getPollById, bind, auth_getUser, ret;
             cbn [backend_getUser Pg.supabase db]; rewrite Hs; by cbn).
      destruct (filter (pollOf params_id u) (Pg.poll_table (db w))) as [|p [|p' l]] eqn:Hf.
      * unfold getPollById, bind, auth_getUser, from, ret.
        cbn [backend_getUser backend_execute Pg.supabase db]. rewrite Hs.
        cbn [user user_error db].
        change (Pg.execute "polls"
                  (select "*" [eq_ "id" (JString params_id); eq_ "user_id" (JString (id u))]
                          None true) (db w))
          with (Pg.execute "polls" (select "*" (ownerFilter params_id u) None true) (db w)).
        rewrite select_own, Hf. by cbn.
      * rewrite (surjective_pairing (getPollById params_id w)).
        rewrite (getPollById_own w u params_id p Hs Hf). cbn.
        intros [= <-]. by exists u, p.
      * unfold getPollById, bind, auth_getUser, from, ret.
        cbn [backend_getUser backend_execute Pg.supabase db]. rewrite Hs.
        cbn [user user_error db].
        change (Pg.execute "polls"
                  (select "*" [eq_ "id" (JString params_id); eq_ "user_id" (JString (id u))]
                          None true) (db w))
          with (Pg.execute "polls" (select "*" (ownerFilter params_id u) None true) (db w)).
        rewrite select_own, Hf. by cbn.
    + intros (u & p & Hs & Hf & ->). unfold EditPollPage, bind at 1.
      rewrite (surjective_pairing (getPollById params_id w)).
      rewrite (getPollById_own w u params_id p Hs Hf). by cbn.
Qed.
